(** * testParser.ts: ingestion of JUnit reports and synthesis of annotations

    A shallow embedding of [src/testParser.ts].

    Conventions of the embedding.
    - A JavaScript string is a [string]: a sequence of code units below 256.
    - A JavaScript number that holds a count or a line is a [Z]; [NaN] is the
      [None] of an [option Z] (the source turns it into [null] at once).
    - A promise that rejects, or a statement that throws, is [Throw]; [await]
      is the bind of the [result] monad.
    - The logging calls ([core.debug], [core.info], [core.warning],
      [core.error]) have no influence on any returned value and are left out.
    - The collaborators that are not part of the file (the regular expression
      engine, the file system walk, the XML converter, [path.join],
      [applyTransformer], the environment) are the fields of a record
      [Collaborators] that every function of the parser receives. *)

From Stdlib Require Import ZArith List Bool Ascii String Lia.
Import ListNotations.

Set Implicit Arguments.

Local Open Scope string_scope.
Local Open Scope Z_scope.

(** ** Strings as the JavaScript runtime sees them *)

Module JsString.

Definition code (c : ascii) : Z := Z.of_N (N_of_ascii c).

(** WhiteSpace and LineTerminator code units below 256: TAB, LF, VT, FF,
    CR, SP and NBSP. *)
Definition isWhiteSpace (c : ascii) : bool :=
  let n := code c in
  ((9 <=? n) && (n <=? 13)) || (n =? 32) || (n =? 160).

(** The characters the dot of a regular expression refuses. *)
Definition isLineTerminator (c : ascii) : bool :=
  let n := code c in (n =? 10) || (n =? 13).

Definition isDigit (c : ascii) : bool :=
  let n := code c in (48 <=? n) && (n <=? 57).

Definition isEmpty (s : string) : bool :=
  match s with EmptyString => true | String _ _ => false end.

(** [stripPrefix p s] is the rest of [s] after its prefix [p]. *)
Fixpoint stripPrefix (p s : string) : option string :=
  match p with
  | EmptyString => Some s
  | String a p' =>
      match s with
      | EmptyString => None
      | String b s' => if Ascii.eqb a b then stripPrefix p' s' else None
      end
  end.

Definition startsWith (p s : string) : bool :=
  match stripPrefix p s with Some _ => true | None => false end.

(** [s.endsWith(suf)] *)
Fixpoint endsWith (suf s : string) : bool :=
  String.eqb s suf ||
  match s with
  | EmptyString => false
  | String _ s' => endsWith suf s'
  end.

(** [s.includes(sub)] *)
Fixpoint includes (sub s : string) : bool :=
  startsWith sub s ||
  match s with
  | EmptyString => false
  | String _ s' => includes sub s'
  end.

(** [cut pat s]: the text before and after the first occurrence of [pat]. *)
Fixpoint cut (pat s : string) : option (string * string) :=
  match stripPrefix pat s with
  | Some rest => Some (EmptyString, rest)
  | None =>
      match s with
      | EmptyString => None
      | String c s' =>
          match cut pat s' with
          | Some (before, after) => Some (String c before, after)
          | None => None
          end
      end
  end.

(** GetSubstitution for a string pattern (no capture groups): [$$], [$&],
    [$`] and [$'] are expanded, every other character stands for itself. *)
Fixpoint getSubstitution (matched before after rep : string) : string :=
  match rep with
  | EmptyString => EmptyString
  | String a t =>
      if Ascii.eqb a "$" then
        match t with
        | EmptyString => String a EmptyString
        | String c r =>
            if Ascii.eqb c "$" then String "$" (getSubstitution matched before after r)
            else if Ascii.eqb c "&" then matched ++ getSubstitution matched before after r
            else if Ascii.eqb c "`" then before ++ getSubstitution matched before after r
            else if Ascii.eqb c "'" then after ++ getSubstitution matched before after r
            else String a (getSubstitution matched before after t)
        end
      else String a (getSubstitution matched before after t)
  end.

(** [s.replace(pat, rep)] with a string [pat]: the first occurrence only. *)
Definition replace (pat rep s : string) : string :=
  match cut pat s with
  | None => s
  | Some (before, after) => before ++ getSubstitution pat before after rep ++ after
  end.

(** [s.split(sep)] for a separator of one character. *)
Fixpoint split (sep : ascii) (s : string) : list string :=
  match s with
  | EmptyString => [EmptyString]
  | String c s' =>
      if Ascii.eqb c sep then EmptyString :: split sep s'
      else match split sep s' with
           | t :: ts => String c t :: ts
           | [] => [String c EmptyString]
           end
  end.

(** [parts.join(sep)] *)
Fixpoint join (sep : string) (parts : list string) : string :=
  match parts with
  | [] => EmptyString
  | [p] => p
  | p :: rest => p ++ sep ++ join sep rest
  end.

Fixpoint trimStart (s : string) : string :=
  match s with
  | EmptyString => EmptyString
  | String c s' => if isWhiteSpace c then trimStart s' else s
  end.

Fixpoint trimEnd (s : string) : string :=
  match s with
  | EmptyString => EmptyString
  | String c s' =>
      let t := trimEnd s' in
      if isWhiteSpace c && isEmpty t then EmptyString else String c t
  end.

Definition trim (s : string) : string := trimEnd (trimStart s).

(** [s.slice(n)] for [n >= 0] *)
Fixpoint sliceFrom (n : nat) (s : string) : string :=
  match n, s with
  | S k, String _ s' => sliceFrom k s'
  | _, _ => s
  end.

(** The value of a digit in the given radix. *)
Definition digitVal (radix : Z) (c : ascii) : option Z :=
  let n := code c in
  let v := if (48 <=? n) && (n <=? 57) then n - 48
           else if (97 <=? n) && (n <=? 122) then n - 87
           else if (65 <=? n) && (n <=? 90) then n - 55
           else radix in
  if v <? radix then Some v else None.

(** The value of the longest prefix of digits, [None] when it is empty. *)
Fixpoint digitsPrefix (radix : Z) (s : string) (acc : option Z) : option Z :=
  match s with
  | EmptyString => acc
  | String c s' =>
      match digitVal radix c with
      | Some d =>
          digitsPrefix radix s'
            (Some (radix * match acc with Some a => a | None => 0 end + d))
      | None => acc
      end
  end.

(** [parseInt(s)] without a radix argument; [None] is [NaN].  Values are
    exact integers (the runtime rounds beyond 2^53, which changes neither
    the sign of a value nor whether it is zero). *)
Definition parseInt (s : string) : option Z :=
  let s1 := trimStart s in
  let '(sign, s2) :=
    match s1 with
    | String c r =>
        if Ascii.eqb c "-" then (-1, r)
        else if Ascii.eqb c "+" then (1, r)
        else (1, s1)
    | EmptyString => (1, s1)
    end in
  let '(radix, s3) :=
    match s2 with
    | String z (String x r) =>
        if Ascii.eqb z "0" && (Ascii.eqb x "x" || Ascii.eqb x "X")
        then (16, r) else (10, s2)
    | _ => (10, s2)
    end in
  option_map (Z.mul sign) (digitsPrefix radix s3 None).

End JsString.

(** ** Results of fallible code *)

Inductive exn : Type :=
| TypeError      (* a property read on [undefined] or [null], or a call of
                    something that is not a function *)
| SyntaxError    (* an invalid regular expression *)
| IoError        (* the file system refused a read *)
| XmlError       (* the XML converter refused a document *)
| FuelExhausted. (* the recursion bound of the embedding, see [parseSuite] *)

Inductive result (A : Type) : Type :=
| Ok (a : A)
| Throw (e : exn).

Arguments Ok {A} a.
Arguments Throw {A} e.

Definition bind {A B : Type} (r : result A) (k : A -> result B) : result B :=
  match r with
  | Ok a => k a
  | Throw e => Throw e
  end.

Notation "x <- r ;; k" := (bind r (fun x => k))
  (at level 61, r at next level, right associativity).

(** ** LocationResolver: [resolveFileAndLine] *)

Record Position : Type := { fileName : string; line : Z }.

(** What [output.match(new RegExp(pattern, 'g'))] can do: throw, return
    [null], or return the array of the matched texts. *)
Inductive matchAnswer : Type :=
| Raised
| NoMatch
| Matches (ms : list string).

(** A computation that consults the regular expression engine at most once.
    [Done] is a return before any search; [Match pattern corpus k] is the
    search of [corpus] for [pattern], continued by [k]. *)
Inductive searching (A : Type) : Type :=
| Done (a : A)
| Match (pattern corpus : string) (k : matchAnswer -> A).

Arguments Done {A} a.
Arguments Match {A} pattern corpus k.

Definition runSearch {A : Type} (engine : string -> string -> matchAnswer)
  (s : searching A) : A :=
  match s with
  | Done a => a
  | Match pattern corpus k => k (engine pattern corpus)
  end.

(** [safeParseInt]: [null] for a missing, empty or non-numeric token. *)
Definition safeParseInt (line : option string) : option Z :=
  match line with
  | None => None
  | Some s => if JsString.isEmpty s then None else JsString.parseInt s
  end.

(** [n || d] for a number-or-null [n]. *)
Definition orElse (n : option Z) (d : Z) : Z :=
  match n with
  | Some v => if v =? 0 then d else v
  | None => d
  end.

(** [s || d] for a string-or-undefined [s]. *)
Definition strOr (s : option string) (d : string) : string :=
  match s with
  | Some t => if JsString.isEmpty t then d else t
  | None => d
  end.

(** [l.pop()]: the list without its last element, and that element. *)
Definition pop {A : Type} (l : list A) : list A * option A :=
  match rev l with
  | [] => ([], None)
  | x :: r => (rev r, Some x)
  end.

(** The class [[.*+?^${}()|[\]\\]] of the escaping replacement. *)
Definition isRegExpSpecial (c : ascii) : bool :=
  existsb (Ascii.eqb c) (list_ascii_of_string ".*+?^${}()|[]\").

(** [s.replace(/[.*+?^${}()|[\]\\]/g, '\\$&')] *)
Fixpoint escapeRegExp (s : string) : string :=
  match s with
  | EmptyString => EmptyString
  | String c s' =>
      if isRegExpSpecial c then String "\" (String c (escapeRegExp s'))
      else String c (escapeRegExp s')
  end.

Definition escapedFileName (fileName : string) : string :=
  JsString.replace "::" "/" (escapeRegExp fileName).

(** The source of the regular expression searched in the stack trace. *)
Definition fileLinePattern (escaped : string) : string :=
  " [^ ]*" ++ escaped ++ ".*?:\d+".

(** The resolved file name: the explicit one, else the last dot-segment of
    the class name. *)
Definition resolvedFileName (file : option string) (className : string) : string :=
  match file with
  | Some f => if JsString.isEmpty f then last (JsString.split "." className) "" else f
  | None => last (JsString.split "." className) ""
  end.

(** The statements of the [try] block that follow a successful search. *)
Definition fromMatches (fileName : string) (ms : list string) : result Position :=
  match snd (pop ms) with
  | None => Throw TypeError
  | Some lastItem =>
      let lineTokens := JsString.split ":" lastItem in
      let line := strOr (snd (pop lineTokens)) "0" in
      let lineNumberPrefix := strOr (snd (pop (fst (pop lineTokens)))) "" in
      let fileName' :=
        if JsString.endsWith ".rs" lineNumberPrefix
        then strOr (snd (pop (JsString.split " " lineNumberPrefix))) ""
        else fileName in
      Ok {| fileName := fileName'; line := orElse (safeParseInt (Some line)) (-1) |}
  end.

(** The [try] block from the search on. *)
Definition tryBody (fileName : string) (lineNumber : option Z) (ans : matchAnswer)
  : result Position :=
  match ans with
  | Raised => Throw SyntaxError
  | NoMatch => Ok {| fileName := fileName; line := orElse lineNumber 1 |}
  | Matches ms => fromMatches fileName ms
  end.

(** The [catch] block. *)
Definition catchBlock (fileName : string) (line : option string) : Position :=
  {| fileName := fileName; line := orElse (safeParseInt line) (-1) |}.

Definition resolveFileAndLine (file line : option string) (className output : string)
  : searching Position :=
  let fileName := resolvedFileName file className in
  let lineNumber := safeParseInt line in
  let search :=
    Match (fileLinePattern (escapedFileName fileName)) output
      (fun ans =>
         match tryBody fileName lineNumber ans with
         | Ok p => p
         | Throw _ => catchBlock fileName line
         end) in
  match lineNumber with
  | Some n =>
      if negb (JsString.isEmpty fileName) && negb (n =? 0)
      then Done {| fileName := fileName; line := n |}
      else search
  | None => search
  end.

(** ** The regular expression engine on the patterns of [resolveFileAndLine]

    Every pattern the resolver builds has the shape
    [" [^ ]*" ++ escaped ++ ".*?:\d+"], where [escaped] is a sequence of
    literal characters, the special ones behind a backslash.  The engine
    below implements the backtracking search of the runtime on this family:
    a space, the longest run of non-spaces that still lets the rest match,
    the literal, the shortest run of characters other than line terminators,
    a colon and the longest run of digits; with the [g] flag the search
    restarts where the previous match ended. *)

Module RegExp.

(** The literal text an escaped sequence stands for; [None] outside the
    family (an unescaped special character, a dangling backslash, or an
    escape of a character that is not special). *)
Fixpoint literalOf (escaped : string) : option string :=
  match escaped with
  | EmptyString => Some EmptyString
  | String c r =>
      if Ascii.eqb c "\" then
        match r with
        | String d r' =>
            if isRegExpSpecial d then option_map (String d) (literalOf r') else None
        | EmptyString => None
        end
      else if isRegExpSpecial c then None
      else option_map (String c) (literalOf r)
  end.

(** The part of a pattern between [" [^ ]*"] and [".*?:\d+"]. *)
Definition middleOf (pattern : string) : option string :=
  match JsString.stripPrefix " [^ ]*" pattern with
  | None => None
  | Some rest =>
      let n := (String.length rest - 7)%nat in
      if String.eqb (substring n 7 rest) ".*?:\d+" && (7 <=? String.length rest)%nat
      then Some (substring 0 n rest)
      else None
  end.

Fixpoint takeDigits (s : string) : string :=
  match s with
  | EmptyString => EmptyString
  | String c s' => if JsString.isDigit c then String c (takeDigits s') else EmptyString
  end.

(** [:\d+] anchored at the start of [u]: the matched text. *)
Definition colonDigits (u : string) : option string :=
  match u with
  | String c u' =>
      if Ascii.eqb c ":" && negb (JsString.isEmpty (takeDigits u'))
      then Some (String c (takeDigits u'))
      else None
  | EmptyString => None
  end.

(** [.*?:\d+] anchored at the start of [u]. *)
Fixpoint lazyTail (u : string) : option string :=
  match colonDigits u with
  | Some m => Some m
  | None =>
      match u with
      | String c u' =>
          if JsString.isLineTerminator c then None
          else option_map (String c) (lazyTail u')
      | EmptyString => None
      end
  end.

(** The literal followed by [.*?:\d+], anchored at the start of [t]. *)
Definition nameTail (name t : string) : option string :=
  match JsString.stripPrefix name t with
  | Some u => option_map (append name) (lazyTail u)
  | None => None
  end.

(** [[^ ]*] followed by the rest of the pattern, anchored at the start of
    [r]: the greedy star tries the longer run first. *)
Fixpoint afterSpace (name r : string) : option string :=
  match r with
  | String c r' =>
      if Ascii.eqb c " " then nameTail name r
      else match afterSpace name r' with
           | Some m => Some (String c m)
           | None => nameTail name r
           end
  | EmptyString => nameTail name r
  end.

(** The global search: [skip] counts the characters of the previous match
    that are still to be passed over. *)
Fixpoint scan (name s : string) (skip : nat) : list string :=
  match s with
  | EmptyString => []
  | String c s' =>
      match skip with
      | S k => scan name s' k
      | O =>
          match (if Ascii.eqb c " " then afterSpace name s' else None) with
          | Some m => String c m :: scan name s' (String.length m)
          | None => scan name s' O
          end
      end
  end.

(** [corpus.match(new RegExp(pattern, 'g'))] *)
Definition matchAll (pattern corpus : string) : matchAnswer :=
  match middleOf pattern with
  | None => Raised
  | Some escaped =>
      match literalOf escaped with
      | None => Raised
      | Some name =>
          match scan name corpus O with
          | [] => NoMatch
          | ms => Matches ms
          end
      end
  end.

End RegExp.

(** ** The document tree

    The value of [JSON.parse(parser.xml2json(data, {compact: true}))] and of
    everything read out of it.  In the compact form an element is an object
    whose [_attributes] property, when present, maps the names of the XML
    attributes to strings; the other properties are the children (an element,
    or an array when a name repeats) and the [_text] and [_cdata] payloads. *)

Set Warnings "-register-all".

Inductive jsval : Type :=
| JUndefined
| JNull
| JString (s : string)
| JArray (items : list jsval)
| JObject (attributes : option (list (string * string))) (fields : list (string * jsval)).

Fixpoint assoc {A : Type} (key : string) (l : list (string * A)) : option A :=
  match l with
  | [] => None
  | (k, v) :: rest => if String.eqb k key then Some v else assoc key rest
  end.

(** ToBoolean *)
Definition truthy (v : jsval) : bool :=
  match v with
  | JUndefined | JNull => false
  | JString s => negb (JsString.isEmpty s)
  | JArray _ | JObject _ _ => true
  end.

Definition truthyStr (s : option string) : bool :=
  match s with
  | Some t => negb (JsString.isEmpty t)
  | None => false
  end.

Definition ofOptStr (s : option string) : jsval :=
  match s with
  | Some t => JString t
  | None => JUndefined
  end.

(** [v?.key], also [v.key] where [v] is known not to be nullish; [key] is
    never [_attributes]. *)
Definition prop (key : string) (v : jsval) : jsval :=
  match v with
  | JObject _ fields =>
      match assoc key fields with
      | Some x => x
      | None => JUndefined
      end
  | _ => JUndefined
  end.

(** [v.key]: a TypeError on [undefined] and [null]. *)
Definition get (key : string) (v : jsval) : result jsval :=
  match v with
  | JUndefined | JNull => Throw TypeError
  | _ => Ok (prop key v)
  end.

(** [v?._attributes?.key] *)
Definition attrOpt (key : string) (v : jsval) : option string :=
  match v with
  | JObject (Some attrs) _ => assoc key attrs
  | _ => None
  end.

(** [v._attributes.key]: a TypeError when [v] is nullish or has no
    [_attributes]. *)
Definition attr (key : string) (v : jsval) : result (option string) :=
  match v with
  | JObject (Some attrs) _ => Ok (assoc key attrs)
  | _ => Throw TypeError
  end.

(** ToString, as [.toString()] and template literals apply it. *)
Fixpoint toStr (v : jsval) : string :=
  match v with
  | JUndefined => "undefined"
  | JNull => "null"
  | JString s => s
  | JArray items =>
      JsString.join ","
        (map (fun x => match x with
                       | JUndefined | JNull => EmptyString
                       | _ => toStr x
                       end) items)
  | JObject _ _ => "[object Object]"
  end.

(** [a || b] *)
Definition jsOr (a b : jsval) : jsval := if truthy a then a else b.

Definition strOrStr (a b : option string) : option string :=
  if truthyStr a then a else b.

(** [Array.isArray(v) ? v : [v]] *)
Definition asArray (v : jsval) : list jsval :=
  match v with
  | JArray items => items
  | _ => [v]
  end.

(** [v ? (Array.isArray(v) ? v : [v])[0] : undefined] *)
Definition firstOf (v : jsval) : jsval :=
  if truthy v then hd JUndefined (asArray v) else JUndefined.

(** The nesting depth of a value. *)
Fixpoint height (v : jsval) : nat :=
  match v with
  | JArray items => S (fold_right (fun x n => Nat.max (height x) n) O items)
  | JObject _ fields =>
      S (fold_right (fun kv n => Nat.max (height (snd kv)) n) O fields)
  | _ => O
  end.

(** ** Annotations and results *)

Inductive annotationLevel : Type := LFailure | LNotice | LWarning.
Inductive annotationStatus : Type := SSuccess | SFailure | SSkipped.

Record Annotation : Type := {
  path : string;
  start_line : Z;
  end_line : Z;
  start_column : Z;
  end_column : Z;
  annotation_level : annotationLevel;
  status : annotationStatus;
  title : string;
  message : string;
  raw_details : string
}.

Record InternalTestResult : Type := {
  totalCount : Z;
  skipped : Z;
  annotations : list Annotation
}.

Module Report.
Record TestResult : Type := {
  checkName : string;
  summary : string;
  totalCount : Z;
  skipped : Z;
  failed : Z;
  passed : Z;
  foundFiles : Z;
  annotations : list Annotation
}.
End Report.

Record Transformer : Type := { searchValue : string; replaceValue : string }.

(** The parameters [parseFile], [parseSuite] and [parseTestReports] hand
    down unchanged. *)
Record Options : Type := {
  suiteRegex : string;
  annotatePassed : bool;
  checkRetries : bool;
  excludeSources : list string;
  checkTitleTemplate : option string;
  testFilesPrefix : string;
  transformer : list Transformer;
  followSymlink : bool;
  annotationsLimit : Z;
  truncateStackTraces : bool
}.

Definition isFailureLevel (a : Annotation) : bool :=
  match annotation_level a with
  | LFailure => true
  | _ => false
  end.

Definition isSkippedStatus (a : Annotation) : bool :=
  match status a with
  | SSkipped => true
  | _ => false
  end.

(** [annotations.filter(a => a.annotation_level === 'failure' || annotatePassed).length] *)
Definition limitCount (opts : Options) (l : list Annotation) : Z :=
  Z.of_nat (List.length (filter (fun a => isFailureLevel a || annotatePassed opts) l)).

(** [annotationsLimit > 0 && count >= annotationsLimit] *)
Definition limitReached (opts : Options) (l : list Annotation) : bool :=
  (0 <? annotationsLimit opts) && (annotationsLimit opts <=? limitCount opts l).

(** [escapeEmoji]: of the ranges of the source only U+00A9 and U+00AE lie
    below 256. *)
Fixpoint escapeEmoji (input : string) : string :=
  match input with
  | EmptyString => EmptyString
  | String c r =>
      if (JsString.code c =? 169) || (JsString.code c =? 174)
      then escapeEmoji r
      else String c (escapeEmoji r)
  end.

Definition templateVar (varName : string) : string := "{{" ++ varName ++ "}}".

Definition newline : string := String "010"%char EmptyString.

(** ** The collaborators of the parser *)

Record Collaborators : Type := {
  (** [output.match(new RegExp(pattern, 'g'))] *)
  regexMatch : string -> string -> matchAnswer;
  (** [name.match(suiteRegex)]: [null] or the array of the match; a
      SyntaxError on an invalid pattern *)
  suiteMatch : string -> string -> result jsval;
  (** [glob.create(pattern, {followSymbolicLinks})]: what [globGenerator()]
      yields, in order, and [getSearchPaths()] *)
  globGenerator : string -> bool -> list string;
  getSearchPaths : string -> bool -> list string;
  (** [applyTransformer] of [./utils] *)
  applyTransformer : Transformer -> string -> string;
  (** [pathHelper.join] *)
  pathJoin : string -> string -> string;
  (** [process.env['GITHUB_WORKSPACE']] *)
  GITHUB_WORKSPACE : option string;
  (** [fs.readFileSync(file, 'utf8')] *)
  readFileSync : string -> result string;
  (** [JSON.parse(parser.xml2json(data, {compact: true}))] *)
  xml2json : string -> result jsval
}.

(** ** The parser *)

Section Parser.

Variable env : Collaborators.

(** *** PathResolver: [resolvePath] *)

(** [fileName.replace(/^\.\//, '')] *)
Definition stripDotSlash (fileName : string) : string :=
  match JsString.stripPrefix "./" fileName with
  | Some rest => rest
  | None => fileName
  end.

(** The first result for which [excludeSources.find(v => result.includes(v))]
    is falsy: not found, or found as the empty string. *)
Fixpoint firstUnexcluded (excludeSources results : list string) : option string :=
  match results with
  | [] => None
  | r :: rest =>
      if truthyStr (find (fun v => JsString.includes v r) excludeSources)
      then firstUnexcluded excludeSources rest
      else Some r
  end.

Definition resolvePath (fileName : string) (excludeSources : list string)
  (followSymlink : bool) : result string :=
  let normalizedFilename := stripDotSlash fileName in
  let pattern := "**/" ++ normalizedFilename ++ ".*" in
  match firstUnexcluded excludeSources (globGenerator env pattern followSymlink) with
  | Some r =>
      match getSearchPaths env pattern followSymlink with
      | searchPath :: _ => Ok (JsString.sliceFrom (String.length searchPath + 1) r)
      | [] => Throw TypeError
      end
  | None => Ok normalizedFilename
  end.

(** *** TestCaseEvaluator: one iteration of the loop over the test cases *)

(** [testcase.failure || testcase.error] *)
Definition testFailureOf (testcase : jsval) : jsval :=
  jsOr (prop "failure" testcase) (prop "error" testcase).

(** [(x && x._cdata) || (x && x._text)] *)
Definition payloadOf (x : jsval) : jsval :=
  jsOr (if truthy x then prop "_cdata" x else x)
       (if truthy x then prop "_text" x else x).

(** [testcase.skipped || status === 'disabled' || status === 'ignored'] *)
Definition skipOf (testcase : jsval) : result bool :=
  if truthy (prop "skipped" testcase) then Ok true
  else
    st <- attr "status" testcase ;;
    Ok match st with
       | Some v => String.eqb v "disabled" || String.eqb v "ignored"
       | None => false
       end.

Definition stackTraceOf (testcase : jsval) : string :=
  let failure := firstOf (prop "failure" testcase) in
  let error := prop "error" testcase in
  JsString.trim
    (toStr (jsOr (payloadOf failure) (jsOr (payloadOf error) (JString EmptyString)))).

Definition stackTraceMessageOf (opts : Options) (stackTrace : string) : string :=
  if truncateStackTraces opts
  then JsString.join newline (firstn 2 (JsString.split "010" stackTrace))
  else stackTrace.

Definition sysoutOf (testcase : jsval) : option string :=
  match payloadOf (firstOf (prop "system-out" testcase)) with
  | JUndefined | JNull => None
  | v => Some (JsString.trim (toStr v))
  end.

Definition messageOf (opts : Options) (testcase : jsval) (stackTrace : string)
  : result string :=
  let failure := firstOf (prop "failure" testcase) in
  let m := strOrStr (attrOpt "message" failure)
             (strOrStr (attrOpt "message" (prop "error" testcase))
                (Some (stackTraceMessageOf opts stackTrace))) in
  if truthyStr m then Ok (JsString.trim (strOr m EmptyString))
  else
    name <- attr "name" testcase ;;
    match name with
    | Some n => Ok (JsString.trim n)
    | None => Throw TypeError
    end.

(** The arguments of the call of [resolveFileAndLine], and the call. *)
Definition positionOf (testsuite testcase : jsval) (stackTrace : string)
  : result Position :=
  let failure := firstOf (prop "failure" testcase) in
  file0 <- attr "file" testcase ;;
  let file := strOrStr file0 (strOrStr (attrOpt "file" failure) (attrOpt "file" testsuite)) in
  line0 <- attr "line" testcase ;;
  let line := strOrStr line0 (strOrStr (attrOpt "line" failure) (attrOpt "line" testsuite)) in
  classname <- attr "classname" testcase ;;
  name <- attr "name" testcase ;;
  match (if truthyStr classname then classname else name) with
  | Some className =>
      Ok (runSearch (regexMatch env) (resolveFileAndLine file line className stackTrace))
  | None =>
      (* [className] is undefined: [className.split] throws unless the file
         is given, and then the class name is not read *)
      if truthyStr file
      then Ok (runSearch (regexMatch env) (resolveFileAndLine file line "undefined" stackTrace))
      else Throw TypeError
  end.

Definition titleOf (opts : Options) (suiteName testcase : jsval) (pos : Position)
  : result string :=
  classname <- attr "classname" testcase ;;
  name <- attr "name" testcase ;;
  let sameName := match name with
                  | Some n => String.eqb (fileName pos) n
                  | None => false
                  end in
  if truthyStr (checkTitleTemplate opts) then
    let fileName' := if sameName then EmptyString else fileName pos in
    match (if truthyStr classname then classname else name) with
    | None => Throw TypeError
    | Some baseClassName =>
        let className := last (JsString.split "." baseClassName) EmptyString in
        Ok (JsString.replace (templateVar "CLASS_NAME") className
             (JsString.replace (templateVar "TEST_NAME") (toStr (ofOptStr name))
               (JsString.replace (templateVar "SUITE_NAME")
                  (match suiteName with
                   | JUndefined | JNull => EmptyString
                   | v => toStr v
                   end)
                 (JsString.replace (templateVar "FILE_NAME") fileName'
                    (strOr (checkTitleTemplate opts) EmptyString)))))
    end
  else if negb sameName then
    Ok (if truthy suiteName
        then fileName pos ++ "." ++ toStr suiteName ++ "/" ++ toStr (ofOptStr name)
        else fileName pos ++ "." ++ toStr (ofOptStr name))
  else
    Ok (if truthy suiteName
        then toStr suiteName ++ "/" ++ toStr (ofOptStr name)
        else toStr (ofOptStr name)).

(** What one test case contributes: whether it is skipped, and its
    annotation. *)
Record CaseOutcome : Type := { skip : bool; annotation : Annotation }.

Definition evalTestcase (opts : Options) (testsuite suiteName testcase : jsval)
  : result CaseOutcome :=
  _ <- get "failure" testcase ;;
  let testFailure := truthy (testFailureOf testcase) in
  skip <- skipOf testcase ;;
  let failed := testFailure && negb skip in
  let success := negb testFailure in
  let stackTrace := stackTraceOf testcase in
  let sysout := sysoutOf testcase in
  message <- messageOf opts testcase stackTrace ;;
  pos <- positionOf testsuite testcase stackTrace ;;
  let transformedFileName :=
    fold_left (fun acc r => applyTransformer env r acc) (transformer opts) (fileName pos) in
  resolved <- (if failed || (annotatePassed opts && success)
               then resolvePath transformedFileName (excludeSources opts) (followSymlink opts)
               else Ok transformedFileName) ;;
  let stripped :=
    if truthyStr (GITHUB_WORKSPACE env)
    then JsString.replace (strOr (GITHUB_WORKSPACE env) EmptyString ++ "/") EmptyString resolved
    else resolved in
  title <- titleOf opts suiteName testcase pos ;;
  let resolvedPath :=
    if JsString.isEmpty (testFilesPrefix opts) then stripped
    else pathJoin env (testFilesPrefix opts) stripped in
  let rawDetails :=
    if truthyStr sysout
    then stackTrace ++ newline ++ newline ++ strOr sysout EmptyString
    else stackTrace in
  Ok {| skip := skip;
        annotation :=
          {| path := resolvedPath;
             start_line := line pos;
             end_line := line pos;
             start_column := 0;
             end_column := 0;
             annotation_level := if success || skip then LNotice else LFailure;
             status := if skip then SSkipped else if success then SSuccess else SFailure;
             title := escapeEmoji title;
             message := escapeEmoji message;
             raw_details := escapeEmoji rawDetails |} |}.

(** *** FlakyRetryReconciler: the [checkRetries] block *)

(** The [Map] from test case names to test cases, in insertion order. *)
Definition caseMap : Type := list (option string * jsval).

Definition keyEqb (a b : option string) : bool :=
  match a, b with
  | Some x, Some y => String.eqb x y
  | None, None => true
  | _, _ => false
  end.

Fixpoint mapGet (key : option string) (m : caseMap) : option jsval :=
  match m with
  | [] => None
  | (k, v) :: rest => if keyEqb k key then Some v else mapGet key rest
  end.

(** [testcaseMap.set(key, v)]: an existing key keeps its place. *)
Fixpoint mapSet (key : option string) (v : jsval) (m : caseMap) : caseMap :=
  match m with
  | [] => [(key, v)]
  | (k, w) :: rest =>
      if keyEqb k key then (k, v) :: rest else (k, w) :: mapSet key v rest
  end.

Fixpoint reconcileLoop (testcases : list jsval) (m : caseMap) : result caseMap :=
  match testcases with
  | [] => Ok m
  | testcase :: rest =>
      key <- attr "name" testcase ;;
      match mapGet key m with
      | Some previous =>
          let failed := truthy (testFailureOf testcase) in
          let previousFailed := truthy (testFailureOf previous) in
          if failed && negb previousFailed then reconcileLoop rest m
          else if negb failed && previousFailed
               then reconcileLoop rest (mapSet key testcase m)
               else reconcileLoop rest m
      | None => reconcileLoop rest (mapSet key testcase m)
      end
  end.

(** [Array.from(testcaseMap.values())] after the loop. *)
Definition reconcile (testcases : list jsval) : result (list jsval) :=
  m <- reconcileLoop testcases [] ;;
  Ok (map snd m).

(** *** SuiteTraversal: [parseSuite] *)

(** How the body of a loop ends: with the next iteration, or with a
    [return] out of the function. *)
Inductive flow (A : Type) : Type :=
| Next (a : A)
| Return (a : A).

Arguments Next {A} a.
Arguments Return {A} a.

Definition emptyResult : InternalTestResult :=
  {| totalCount := 0; skipped := 0; annotations := [] |}.

(** [totalCount += res.totalCount; skipped += res.skipped;
    annotations.push(...res.annotations)] *)
Definition addResult (acc res : InternalTestResult) : InternalTestResult :=
  {| totalCount := totalCount acc + totalCount res;
     skipped := skipped acc + skipped res;
     annotations := annotations acc ++ annotations res |}.

(** The counters and the list after one test case. *)
Definition addCase (acc : InternalTestResult) (o : CaseOutcome) : InternalTestResult :=
  {| totalCount := totalCount acc + 1;
     skipped := if skip o then skipped acc + 1 else skipped acc;
     annotations := annotations acc ++ [annotation o] |}.

(** [for (const testcase of testcases) { ... }] *)
Fixpoint casesLoop (opts : Options) (testsuite suiteName : jsval)
  (testcases : list jsval) (acc : InternalTestResult)
  : result (flow InternalTestResult) :=
  match testcases with
  | [] => Ok (Next acc)
  | testcase :: rest =>
      o <- evalTestcase opts testsuite suiteName testcase ;;
      let acc' := addCase acc o in
      if limitReached opts (annotations acc') then Ok (Return acc')
      else casesLoop opts testsuite suiteName rest acc'
  end.

(** [testsuite._attributes.name] *)
Definition suiteAttrName (testsuite : jsval) : result jsval :=
  n <- attr "name" testsuite ;;
  Ok (ofOptStr n).

(** The display name of a suite. *)
Definition suiteNameOf (opts : Options) (parentName testsuite : jsval) : result jsval :=
  if JsString.isEmpty (suiteRegex opts) then Ok (JString EmptyString)
  else
    s <- (if truthy parentName then
            n <- suiteAttrName testsuite ;;
            Ok (JString (toStr parentName ++ "/" ++ toStr n))
          else if negb (String.eqb (suiteRegex opts) "*") then
            n <- attr "name" testsuite ;;
            match n with
            | Some name => suiteMatch env name (suiteRegex opts)
            | None => Throw TypeError
            end
          else Ok (JString EmptyString)) ;;
    if truthy s then Ok s else suiteAttrName testsuite.

(** [for (const testsuite of testsuites) { ... }]; [rec] is the recursive
    call of [parseSuite]. *)
Fixpoint suitesLoop (opts : Options) (rec : jsval -> jsval -> result InternalTestResult)
  (parentName : jsval) (testsuites : list jsval) (acc : InternalTestResult)
  : result InternalTestResult :=
  match testsuites with
  | [] => Ok acc
  | testsuite :: rest =>
      if negb (truthy testsuite) then Ok acc
      else
        suiteName <- suiteNameOf opts parentName testsuite ;;
        res <- rec testsuite suiteName ;;
        let acc1 := addResult acc res in
        let testcase := prop "testcase" testsuite in
        if negb (truthy testcase) then suitesLoop opts rec parentName rest acc1
        else if limitReached opts (annotations acc1) then Ok acc1
        else
          testcases <- (if checkRetries opts then reconcile (asArray testcase)
                        else Ok (asArray testcase)) ;;
          f <- casesLoop opts testsuite suiteName testcases acc1 ;;
          match f with
          | Return acc2 => Ok acc2
          | Next acc2 => suitesLoop opts rec parentName rest acc2
          end
  end.

(** The normalized sequence of suites of a node that has some. *)
Definition testsuitesOf (suite : jsval) : list jsval :=
  if truthy (prop "testsuite" suite) then asArray (prop "testsuite" suite)
  else asArray (prop "testsuite" (prop "testsuites" suite)).

(** The body of [parseSuite], the recursive call abstracted. *)
Definition suiteBody (opts : Options) (rec : jsval -> jsval -> result InternalTestResult)
  (suite parentName : jsval) : result InternalTestResult :=
  _ <- get "testsuite" suite ;;
  if negb (truthy (prop "testsuite" suite)) && negb (truthy (prop "testsuites" suite))
  then Ok emptyResult
  else suitesLoop opts rec parentName (testsuitesOf suite) emptyResult.

(** [parseSuite] with a bound on the depth of the recursion. *)
Fixpoint parseSuiteN (n : nat) (opts : Options) (suite parentName : jsval)
  : result InternalTestResult :=
  match n with
  | O => Throw FuelExhausted
  | S n' => suiteBody opts (parseSuiteN n' opts) suite parentName
  end.

(** [parseSuite]: the recursion descends into the document, so the height of
    the document bounds it (see [parseSuite_unfold]). *)
Definition parseSuite (opts : Options) (suite parentName : jsval)
  : result InternalTestResult :=
  parseSuiteN (S (height suite)) opts suite parentName.

(** *** ReportIngestor: [parseFile] *)

Definition parseFile (opts : Options) (file : string) : result InternalTestResult :=
  data <- readFileSync env file ;;
  match xml2json env data with
  | Throw _ => Ok emptyResult
  | Ok report => parseSuite opts report (JString EmptyString)
  end.

(** *** AggregateReporter: [parseTestReports] *)

(** The variables of the loop over the report files. *)
Record Totals : Type := {
  t_annotations : list Annotation;
  t_totalCount : Z;
  t_skipped : Z;
  t_foundFiles : Z
}.

Definition noTotals : Totals :=
  {| t_annotations := []; t_totalCount := 0; t_skipped := 0; t_foundFiles := 0 |}.

(** [for await (const file of globber.globGenerator()) { ... }] *)
Fixpoint filesLoop (opts : Options) (files : list string) (t : Totals) : result Totals :=
  match files with
  | [] => Ok t
  | file :: rest =>
      let found := t_foundFiles t + 1 in
      r <- parseFile opts file ;;
      if totalCount r =? 0 then
        filesLoop opts rest
          {| t_annotations := t_annotations t; t_totalCount := t_totalCount t;
             t_skipped := t_skipped t; t_foundFiles := found |}
      else
        let t' := {| t_annotations := t_annotations t ++ annotations r;
                     t_totalCount := t_totalCount t + totalCount r;
                     t_skipped := t_skipped t + skipped r;
                     t_foundFiles := found |} in
        if limitReached opts (t_annotations t') then Ok t'
        else filesLoop opts rest t'
  end.

Definition parseTestReports (checkName summary reportPaths : string) (opts : Options)
  : result Report.TestResult :=
  t <- filesLoop opts (globGenerator env reportPaths (followSymlink opts)) noTotals ;;
  let failed := Z.of_nat (List.length (filter isFailureLevel (t_annotations t))) in
  let passed := t_totalCount t - failed - t_skipped t in
  Ok {| Report.checkName := checkName;
        Report.summary := summary;
        Report.totalCount := t_totalCount t;
        Report.skipped := t_skipped t;
        Report.failed := failed;
        Report.passed := passed;
        Report.foundFiles := t_foundFiles t;
        Report.annotations := t_annotations t |}.

End Parser.

(** ** Vocabulary of the properties *)

(** A skipped annotation is never of the failure level. *)
Definition coherent (a : Annotation) : Prop :=
  isSkippedStatus a = true -> isFailureLevel a = false.

(** Every counted test case has its annotation, the skip counter counts the
    annotations of skipped cases, and these are notices. *)
Definition consistent (r : InternalTestResult) : Prop :=
  totalCount r = Z.of_nat (List.length (annotations r)) /\
  skipped r = Z.of_nat (List.length (filter isSkippedStatus (annotations r))) /\
  Forall coherent (annotations r).

(** The counters of the loop over the files, as a result. *)
Definition totalsResult (t : Totals) : InternalTestResult :=
  {| totalCount := t_totalCount t; skipped := t_skipped t;
     annotations := t_annotations t |}.

(** The names of a suite's test cases in the order of their first
    occurrence. *)
Fixpoint firstOccurrences (names : list (option string)) : list (option string) :=
  match names with
  | [] => []
  | k :: rest => k :: filter (fun k' => negb (keyEqb k' k)) (firstOccurrences rest)
  end.

(** [testcase?._attributes?.name] *)
Definition caseName (testcase : jsval) : option string := attrOpt "name" testcase.

(** A test case that carries a failure or an error. *)
Definition failing (testcase : jsval) : bool := truthy (testFailureOf testcase).

(** The test cases of a suite that bear the name [k], in document order. *)
Definition casesNamed (k : option string) (testcases : list jsval) : list jsval :=
  filter (fun c => keyEqb (caseName c) k) testcases.

(** The case that stands for the name [k] after the reconciliation: the
    first one that does not fail, and the first one when all fail. *)
Definition representative (testcases : list jsval) (k : option string) : jsval :=
  match find (fun c => negb (failing c)) (casesNamed k testcases) with
  | Some c => c
  | None => hd JUndefined (casesNamed k testcases)
  end.

(** A test case whose [_attributes] can be read. *)
Definition hasAttributes (testcase : jsval) : bool :=
  match testcase with
  | JObject (Some _) _ => true
  | _ => false
  end.

(** ** A world for the examples

    A report file is identified with its name; [files] gives the document
    each one converts to, [None] for contents that are not XML. *)

Definition sampleWorld (files : list (string * option jsval)) : Collaborators :=
  {| regexMatch := RegExp.matchAll;
     suiteMatch := fun _ _ => Ok JNull;
     globGenerator := fun pattern _ =>
       if String.eqb pattern "reports/*.xml" then map fst files else [];
     getSearchPaths := fun _ _ => ["/work"];
     applyTransformer := fun _ s => s;
     pathJoin := fun a b => a ++ "/" ++ b;
     GITHUB_WORKSPACE := None;
     readFileSync := fun file =>
       match assoc file files with
       | Some _ => Ok file
       | None => Throw IoError
       end;
     xml2json := fun data =>
       match assoc data files with
       | Some (Some doc) => Ok doc
       | _ => Throw XmlError
       end |}.

(** The default values of the parameters of [parseFile]. *)
Definition defaultOptions : Options :=
  {| suiteRegex := EmptyString;
     annotatePassed := false;
     checkRetries := false;
     excludeSources := ["/build/"; "/__pycache__/"];
     checkTitleTemplate := None;
     testFilesPrefix := EmptyString;
     transformer := [];
     followSymlink := false;
     annotationsLimit := -1;
     truncateStackTraces := true |}.

Definition withLimit (n : Z) (o : Options) : Options :=
  {| suiteRegex := suiteRegex o;
     annotatePassed := annotatePassed o;
     checkRetries := checkRetries o;
     excludeSources := excludeSources o;
     checkTitleTemplate := checkTitleTemplate o;
     testFilesPrefix := testFilesPrefix o;
     transformer := transformer o;
     followSymlink := followSymlink o;
     annotationsLimit := n;
     truncateStackTraces := truncateStackTraces o |}.

(** [<testcase name=.../>] *)
Definition passingCase (name : string) : jsval :=
  JObject (Some [("name", name)]) [].

(** [<testcase name=...><failure message=...>text</failure></testcase>] *)
Definition failingCase (name msg text : string) : jsval :=
  JObject (Some [("name", name)])
    [("failure", JObject (Some [("message", msg)]) [("_text", JString text)])].

(** [<testcase name=... status="ignored"><failure message=.../></testcase>] *)
Definition ignoredFailingCase (name msg : string) : jsval :=
  JObject (Some [("name", name); ("status", "ignored")])
    [("failure", JObject (Some [("message", msg)]) [])].

(** [<testsuite name=...>] with the given [testcase] and [testsuite]
    children; a name that occurs once is an element, otherwise an array. *)
Definition children (name : string) (l : list jsval) : list (string * jsval) :=
  match l with
  | [] => []
  | [x] => [(name, x)]
  | _ => [(name, JArray l)]
  end.

Definition suiteElement (name : string) (suites cases : list jsval) : jsval :=
  JObject (Some [("name", name)])
    (children "testsuite" suites ++ children "testcase" cases).

(** A report with one suite: a passing, a failing and an ignored failing
    test case. *)
Definition flatReport : jsval :=
  JObject None
    [("testsuite",
      suiteElement "Suite" []
        [passingCase "ok";
         failingCase "bad" "boom" ("trace line" ++ newline ++ " at X (bad.js:10)");
         ignoredFailingCase "later" "not yet"])].

(** A report whose two failing test cases lie in suites nested in two
    sibling suites without test cases of their own:
    [<testsuites><testsuite name="X"><testsuite name="X1"><testcase name="a">
    <failure/></testcase></testsuite></testsuite><testsuite name="Y">
    <testsuite name="Y1"><testcase name="b"><failure/></testcase></testsuite>
    </testsuite></testsuites>]. *)
Definition nestedReport : jsval :=
  JObject None
    [("testsuites",
      JObject None
        (children "testsuite"
           [suiteElement "X" [suiteElement "X1" [] [failingCase "a" "boom" "at a"]] [];
            suiteElement "Y" [suiteElement "Y1" [] [failingCase "b" "boom" "at b"]] []]))].

(** The same two failing test cases in one suite. *)
Definition twoFailuresReport : jsval :=
  JObject None
    [("testsuite",
      suiteElement "Suite" []
        [failingCase "a" "boom" "at a"; failingCase "b" "boom" "at b"])].

(** A sequence of suites with a [null] in the middle. *)
Definition suiteA : jsval := suiteElement "A" [] [passingCase "ok"].
Definition suiteB : jsval := suiteElement "B" [] [failingCase "bad" "boom" "at b"].
Definition holedReport : jsval :=
  JObject None [("testsuite", JArray [suiteA; JNull; suiteB])].

(** The counters of the files loop after a file that contributes nothing. *)
Definition bumpFound (t : Totals) : Totals :=
  {| t_annotations := t_annotations t; t_totalCount := t_totalCount t;
     t_skipped := t_skipped t; t_foundFiles := t_foundFiles t + 1 |}.

(** Two runs of the files loop end alike: with the same error, or with the
    same counts and annotations and [k] more files found on the left. *)
Definition sameRun (k : Z) (a b : result Totals) : Prop :=
  match a, b with
  | Ok x, Ok y => totalsResult x = totalsResult y /\ t_foundFiles x = t_foundFiles y + k
  | Throw e1, Throw e2 => e1 = e2
  | _, _ => False
  end.

(** Three report files, the second of which is not XML. *)
Definition threeFiles : list (string * option jsval) :=
  [("reports/a.xml", Some flatReport);
   ("reports/bad.xml", None);
   ("reports/b.xml", Some twoFailuresReport)].



(** One iteration of the reconciliation loop on a test case whose name can
    be read. *)
Definition reconcileStep (m : caseMap) (testcase : jsval) : caseMap :=
  let key := caseName testcase in
  match mapGet key m with
  | Some previous =>
      if negb (failing testcase) && failing previous then mapSet key testcase m else m
  | None => mapSet key testcase m
  end.

Definition memKey (k : option string) (ks : list (option string)) : bool :=
  existsb (keyEqb k) ks.

(** The map the reconciliation loop ends with. *)
Definition reconciledMap (testcases : list jsval) : caseMap :=
  map (fun k => (k, representative testcases k))
    (firstOccurrences (map caseName testcases)).

(** A suite with a retried test: [T] fails, [U] passes, [T] passes. *)
Definition flakySuite : list jsval :=
  [failingCase "T" "boom" "at T"; passingCase "U"; passingCase "T"].

(** A world with source files: the walk for [**/<name>.*] yields, in the
    order of [sources], the paths that have a component [<name>.<ext>]. *)
Definition sourceGlob (sources : list string) (pattern : string) : list string :=
  match JsString.stripPrefix "**/" pattern with
  | Some rest =>
      let stem := substring 0 (String.length rest - 1) rest in
      filter (JsString.includes ("/" ++ stem)) sources
  | None => []
  end.

Definition sourceWorld (sources : list string) (files : list (string * option jsval))
  : Collaborators :=
  {| regexMatch := RegExp.matchAll;
     suiteMatch := fun _ _ => Ok JNull;
     globGenerator := fun pattern _ =>
       if String.eqb pattern "reports/*.xml" then map fst files
       else sourceGlob sources pattern;
     getSearchPaths := fun _ _ => ["/work"];
     applyTransformer := fun _ s => s;
     pathJoin := fun a b => a ++ "/" ++ b;
     GITHUB_WORKSPACE := None;
     readFileSync := fun file =>
       match assoc file files with
       | Some _ => Ok file
       | None => Throw IoError
       end;
     xml2json := fun data =>
       match assoc data files with
       | Some (Some doc) => Ok doc
       | _ => Throw XmlError
       end |}.

(** The sources of a small Java project with a build directory. *)
Definition javaSources : list string :=
  ["/work/build/classes/FooTest.class";
   "/work/src/test/java/FooTest.java";
   "/work/src/test/java/BarTest.java"].

(** [excludeSources.find(v => result.includes(v))] is a non-empty string. *)
Definition excluded (excludeSources : list string) (r : string) : bool :=
  truthyStr (find (fun v => JsString.includes v r) excludeSources).

(** The code units below 256 that [escapeEmoji] removes. *)
Definition isEmojiUnit (c : ascii) : bool :=
  (JsString.code c =? 169) || (JsString.code c =? 174).

Fixpoint hasEmojiUnit (s : string) : bool :=
  match s with
  | EmptyString => false
  | String c r => isEmojiUnit c || hasEmojiUnit r
  end.

(** The shape every annotation has: one line that is not zero, no columns,
    and a level that agrees with the status. *)
Definition wellShaped (a : Annotation) : Prop :=
  start_line a = end_line a /\
  start_line a <> 0 /\
  start_column a = 0 /\ end_column a = 0 /\
  match status a with
  | SFailure => annotation_level a = LFailure
  | SSuccess | SSkipped => annotation_level a = LNotice
  end.

(** A passing test case followed by two failing ones. *)
Definition passThenTwoFailures : list jsval :=
  [passingCase "ok"; failingCase "a" "boom" "at a"; failingCase "b" "boom" "at b"].

(** What the loop over these cases ends with under a limit of one. *)
Definition stoppedFlow : flow InternalTestResult :=
  match casesLoop (sampleWorld []) (withLimit 1 defaultOptions) suiteA (JString "")
          passThenTwoFailures emptyResult with
  | Ok f => f
  | Throw _ => Next emptyResult
  end.

(** [<testsuite ...>] with only [testcase] children, as the root of a
    report. *)
Definition flatSuite (attrs : option (list (string * string))) (testcase : jsval) : jsval :=
  JObject attrs [("testcase", testcase)].

Definition reportOf (suite : jsval) : jsval := JObject None [("testsuite", suite)].

(** The accumulator a loop ends with. *)
Definition flowResult (f : flow InternalTestResult) : InternalTestResult :=
  match f with
  | Next a => a
  | Return a => a
  end.

(** A report whose only test case has no attribute at all. *)
Definition bareCaseFiles : list (string * option jsval) :=
  [("reports/a.xml", Some flatReport);
   ("reports/bare.xml",
    Some (reportOf (flatSuite (Some [("name", "Suite")]) (JObject None []))));
   ("reports/b.xml", Some twoFailuresReport)].

(** The number of occurrences of a character. *)
Fixpoint countChar (c : ascii) (s : string) : nat :=
  match s with
  | EmptyString => O
  | String x r => if Ascii.eqb x c then S (countChar c r) else countChar c r
  end.

(** The collaborators with another file system walk. *)
Definition withWalk (walk paths : string -> bool -> list string) (env : Collaborators)
  : Collaborators :=
  {| regexMatch := regexMatch env;
     suiteMatch := suiteMatch env;
     globGenerator := walk;
     getSearchPaths := paths;
     applyTransformer := applyTransformer env;
     pathJoin := pathJoin env;
     GITHUB_WORKSPACE := GITHUB_WORKSPACE env;
     readFileSync := readFileSync env;
     xml2json := xml2json env |}.

(** Report files of which the second holds a document without suites
    ([<coverage/>]). *)
Definition otherDocumentFiles : list (string * option jsval) :=
  [("reports/a.xml", Some flatReport);
   ("reports/coverage.xml", Some (JObject None [("coverage", JObject None [])]));
   ("reports/b.xml", Some twoFailuresReport)].

(** A test case with a file and a line of its own, in a suite and with a
    failure that carry others. *)
Definition locatedCase : jsval :=
  JObject (Some [("name", "t"); ("file", "spec/a_spec.rb"); ("line", "12")])
    [("failure",
      JObject (Some [("message", "boom"); ("file", "lib/a.rb"); ("line", "3")])
        [("_text", JString "at lib/a.rb:3")])].



(** * Properties *)

(** ** The runtime functions on examples *)

Example parseInt_decimal : JsString.parseInt "  42abc" = Some 42.
Proof. reflexivity. Qed.

Example parseInt_hex : JsString.parseInt "-0x1f" = Some (-31).
Proof. reflexivity. Qed.

Example parseInt_nan : JsString.parseInt "line 42" = None.
Proof. reflexivity. Qed.

Example split_empty : JsString.split "." "" = [""].
Proof. reflexivity. Qed.

Example split_dots : JsString.split "." "a.b..c" = ["a"; "b"; ""; "c"].
Proof. reflexivity. Qed.

Example replace_first_only : JsString.replace "a" "$&$&" "banana" = "baanana".
Proof. reflexivity. Qed.

Example trim_both : JsString.trim "  x y  " = "x y".
Proof. reflexivity. Qed.

Example engine_js_trace :
  RegExp.matchAll (fileLinePattern (escapedFileName "file.js"))
    "trace line at X (file.js:10)" = Matches [" (file.js:10"].
Proof. reflexivity. Qed.

Example engine_two :
  RegExp.matchAll (fileLinePattern (escapedFileName "Foo"))
    "at a.Foo.bar(Foo.java:12) at a.Foo.baz(Foo.java:30)x" 
    = Matches [" a.Foo.bar(Foo.java:12"; " a.Foo.baz(Foo.java:30"].
Proof. reflexivity. Qed.

Example resolve_js :
  runSearch RegExp.matchAll (resolveFileAndLine None None "file.js" "trace line
 at X (file.js:10)") = {| fileName := "js"; line := 10 |}.
Proof. vm_compute. reflexivity. Qed.

(** ** The recursion of [parseSuite] *)

Lemma height_assoc (a : option (list (string * string))) (key : string)
  (fields : list (string * jsval)) (v : jsval) :
  assoc key fields = Some v -> (height v < height (JObject a fields))%nat.
Proof.
  simpl. induction fields as [|[k w] rest IH]; simpl; intros H.
  - discriminate.
  - destruct (String.eqb k key).
    + injection H as ->. lia.
    + specialize (IH H). lia.
Qed.

Lemma height_item (items : list jsval) (x : jsval) :
  In x items -> (height x < height (JArray items))%nat.
Proof.
  simpl. induction items as [|y rest IH]; simpl; intros H.
  - contradiction.
  - destruct H as [->|H].
    + lia.
    + specialize (IH H). lia.
Qed.

Lemma prop_height (key : string) (v : jsval) :
  prop key v = JUndefined \/ (height (prop key v) < height v)%nat.
Proof.
  destruct v as [| |s|items|a fields]; try (left; reflexivity).
  unfold prop. destruct (assoc key fields) as [x|] eqn:E.
  - right. eapply height_assoc; eassumption.
  - left; reflexivity.
Qed.

Lemma asArray_height (x t : jsval) :
  In t (asArray x) -> (height t <= height x)%nat.
Proof.
  destruct x as [| |s|items|a fields]; simpl;
    try (intros [<-|[]]; simpl; lia).
  intros H. apply height_item in H. simpl in H. lia.
Qed.

Lemma asArray_undefined (t : jsval) :
  In t (asArray JUndefined) -> truthy t = false.
Proof. intros [<-|[]]. reflexivity. Qed.

Lemma testsuitesOf_height (suite t : jsval) :
  In t (testsuitesOf suite) -> truthy t = true -> (height t < height suite)%nat.
Proof.
  unfold testsuitesOf. intros Hin Ht.
  destruct (truthy (prop "testsuite" suite)).
  - destruct (prop_height "testsuite" suite) as [E|E].
    + rewrite E in Hin. apply asArray_undefined in Hin. congruence.
    + apply asArray_height in Hin. lia.
  - destruct (prop_height "testsuites" suite) as [E|E].
    + rewrite E in Hin. simpl in Hin. apply asArray_undefined in Hin. congruence.
    + destruct (prop_height "testsuite" (prop "testsuites" suite)) as [E'|E'].
      * rewrite E' in Hin. apply asArray_undefined in Hin. congruence.
      * apply asArray_height in Hin. lia.
Qed.

Section ParserFacts.

Variable env : Collaborators.

(** The loop over the suites calls [rec] on truthy elements only. *)
Lemma suitesLoop_ext (opts : Options) (rec1 rec2 : jsval -> jsval -> result InternalTestResult)
  (parentName : jsval) (testsuites : list jsval) :
  (forall t p, In t testsuites -> truthy t = true -> rec1 t p = rec2 t p) ->
  forall acc,
    suitesLoop env opts rec1 parentName testsuites acc
    = suitesLoop env opts rec2 parentName testsuites acc.
Proof.
  induction testsuites as [|t rest IH]; intros Hrec acc; simpl.
  - reflexivity.
  - destruct (truthy t) eqn:Ht; simpl; [|reflexivity].
    destruct (suiteNameOf env opts parentName t) as [sn|e]; simpl; [|reflexivity].
    rewrite (Hrec t sn (or_introl eq_refl) Ht).
    destruct (rec2 t sn) as [res|e]; simpl; [|reflexivity].
    assert (Hrest : forall acc', suitesLoop env opts rec1 parentName rest acc'
                                 = suitesLoop env opts rec2 parentName rest acc').
    { apply IH. intros t' p Hin. apply Hrec. right; exact Hin. }
    destruct (truthy (prop "testcase" t)); simpl; [|apply Hrest].
    destruct (limitReached opts _); [reflexivity|].
    destruct (if checkRetries opts then _ else _) as [tcs|e]; simpl; [|reflexivity].
    destruct (casesLoop env opts t sn tcs _) as [[acc2|acc2]|e]; simpl;
      [apply Hrest|reflexivity|reflexivity].
Qed.

Lemma suiteBody_ext (opts : Options) (rec1 rec2 : jsval -> jsval -> result InternalTestResult)
  (suite parentName : jsval) :
  (forall t p, In t (testsuitesOf suite) -> truthy t = true -> rec1 t p = rec2 t p) ->
  suiteBody env opts rec1 suite parentName = suiteBody env opts rec2 suite parentName.
Proof.
  intros H. unfold suiteBody.
  destruct (get "testsuite" suite); simpl; [|reflexivity].
  destruct (negb _ && negb _); [reflexivity|].
  apply suitesLoop_ext. exact H.
Qed.

(** Any bound above the height of the document gives the same result. *)
Lemma parseSuiteN_stable (opts : Options) (n : nat) :
  forall m suite parentName,
    (height suite < n)%nat -> (height suite < m)%nat ->
    parseSuiteN env n opts suite parentName = parseSuiteN env m opts suite parentName.
Proof.
  induction n as [|n IH]; intros m suite parentName Hn Hm; [lia|].
  destruct m as [|m]; [lia|]. simpl.
  apply suiteBody_ext. intros t p Hin Ht.
  pose proof (testsuitesOf_height suite t Hin Ht).
  apply IH; lia.
Qed.

(** [parseSuite] satisfies the recursive equation of the source. *)
Lemma parseSuite_unfold (opts : Options) (suite parentName : jsval) :
  parseSuite env opts suite parentName
  = suiteBody env opts (parseSuite env opts) suite parentName.
Proof.
  unfold parseSuite at 1. simpl.
  apply suiteBody_ext. intros t p Hin Ht.
  pose proof (testsuitesOf_height suite t Hin Ht).
  unfold parseSuite. apply parseSuiteN_stable; lia.
Qed.

End ParserFacts.

(** *** The bound is never hit *)

Lemma bind_not_exhausted {A B : Type} (r : result A) (k : A -> result B) :
  r <> Throw FuelExhausted ->
  (forall a, k a <> Throw FuelExhausted) ->
  bind r k <> Throw FuelExhausted.
Proof.
  destruct r as [a|e]; simpl; intros Hr Hk; [apply Hk|].
  intros E. apply Hr. injection E as ->. reflexivity.
Qed.

Ltac not_exhausted :=
  repeat first
    [ discriminate
    | assumption
    | apply bind_not_exhausted
    | match goal with
      | |- forall _, _ => intro
      | |- (if ?b then _ else _) <> _ => destruct b
      | |- match ?x with _ => _ end <> _ => destruct x
      end ].

Section Exhaustion.

Variable env : Collaborators.
Variable opts : Options.

(** The one collaborator that can throw inside [parseSuite] throws errors of
    its own. *)
Hypothesis suiteMatch_own_errors :
  forall name pattern, suiteMatch env name pattern <> Throw FuelExhausted.

Lemma evalTestcase_not_exhausted (testsuite suiteName testcase : jsval) :
  evalTestcase env opts testsuite suiteName testcase <> Throw FuelExhausted.
Proof.
  unfold evalTestcase, get, skipOf, messageOf, positionOf, resolvePath, titleOf, attr.
  not_exhausted.
Qed.

Lemma casesLoop_not_exhausted (testsuite suiteName : jsval) (testcases : list jsval) :
  forall acc, casesLoop env opts testsuite suiteName testcases acc <> Throw FuelExhausted.
Proof.
  induction testcases as [|tc rest IH]; intros acc; simpl; [discriminate|].
  apply bind_not_exhausted; [apply evalTestcase_not_exhausted|].
  intros o. destruct (limitReached opts _); [discriminate|apply IH].
Qed.

Lemma reconcileLoop_not_exhausted (testcases : list jsval) :
  forall m, reconcileLoop testcases m <> Throw FuelExhausted.
Proof.
  induction testcases as [|tc rest IH]; intros m; simpl; [discriminate|].
  unfold attr. not_exhausted; apply IH.
Qed.

Lemma suiteNameOf_not_exhausted (parentName testsuite : jsval) :
  suiteNameOf env opts parentName testsuite <> Throw FuelExhausted.
Proof.
  unfold suiteNameOf, suiteAttrName, attr. not_exhausted; apply suiteMatch_own_errors.
Qed.

Lemma suitesLoop_not_exhausted (rec : jsval -> jsval -> result InternalTestResult)
  (parentName : jsval) (testsuites : list jsval) :
  (forall t p, In t testsuites -> truthy t = true -> rec t p <> Throw FuelExhausted) ->
  forall acc, suitesLoop env opts rec parentName testsuites acc <> Throw FuelExhausted.
Proof.
  induction testsuites as [|t rest IH]; intros Hrec acc; simpl; [discriminate|].
  destruct (truthy t) eqn:Ht; simpl; [|discriminate].
  assert (Hrest : forall acc', suitesLoop env opts rec parentName rest acc'
                               <> Throw FuelExhausted).
  { apply IH. intros t' p I. apply Hrec. right; exact I. }
  apply bind_not_exhausted; [apply suiteNameOf_not_exhausted|]. intros sn.
  apply bind_not_exhausted; [apply Hrec; [left; reflexivity|exact Ht]|]. intros res.
  destruct (truthy (prop "testcase" t)); simpl; [|apply Hrest].
  destruct (limitReached opts _); [discriminate|].
  apply bind_not_exhausted.
  { destruct (checkRetries opts); [|discriminate].
    unfold reconcile. apply bind_not_exhausted; [apply reconcileLoop_not_exhausted|].
    discriminate. }
  intros tcs. apply bind_not_exhausted; [apply casesLoop_not_exhausted|].
  intros [acc2|acc2]; [apply Hrest|discriminate].
Qed.

Lemma parseSuiteN_not_exhausted (n : nat) :
  forall suite parentName,
    (height suite < n)%nat ->
    parseSuiteN env n opts suite parentName <> Throw FuelExhausted.
Proof.
  induction n as [|n IH]; intros suite parentName H; [lia|]. simpl.
  unfold suiteBody. apply bind_not_exhausted.
  { unfold get. destruct suite; discriminate. }
  intros _. destruct (negb _ && negb _); [discriminate|].
  apply suitesLoop_not_exhausted. intros t p I Ht.
  apply IH. pose proof (testsuitesOf_height suite t I Ht). lia.
Qed.

(** [parseSuite] never fails for want of recursion depth. *)
Lemma parseSuite_not_exhausted (suite parentName : jsval) :
  parseSuite env opts suite parentName <> Throw FuelExhausted.
Proof. apply parseSuiteN_not_exhausted. lia. Qed.

End Exhaustion.

(** ** Counting invariants *)

Lemma bind_ok {A B : Type} (r : result A) (k : A -> result B) (b : B) :
  bind r k = Ok b -> exists a, r = Ok a /\ k a = Ok b.
Proof. destruct r as [a|e]; simpl; intros H; [eauto|discriminate]. Qed.

Ltac bind_inv H :=
  let a := fresh "v" in
  let E := fresh "E" in
  apply bind_ok in H; destruct H as (a & E & H).

Lemma consistent_empty : consistent emptyResult.
Proof. repeat split; simpl; auto. Qed.

Lemma filter_length_app {A : Type} (f : A -> bool) (l1 l2 : list A) :
  List.length (filter f (l1 ++ l2))
  = (List.length (filter f l1) + List.length (filter f l2))%nat.
Proof. rewrite filter_app, length_app. reflexivity. Qed.

Lemma consistent_addResult (acc res : InternalTestResult) :
  consistent acc -> consistent res -> consistent (addResult acc res).
Proof.
  intros (T1 & S1 & F1) (T2 & S2 & F2). unfold consistent, addResult; simpl.
  repeat split.
  - rewrite length_app. lia.
  - rewrite filter_length_app. lia.
  - apply Forall_app; split; assumption.
Qed.

Lemma consistent_addCase (acc : InternalTestResult) (o : CaseOutcome) :
  consistent acc ->
  skip o = isSkippedStatus (annotation o) ->
  coherent (annotation o) ->
  consistent (addCase acc o).
Proof.
  intros (T & S & F) Hs Hc. unfold consistent, addCase; simpl.
  repeat split.
  - rewrite length_app. simpl. lia.
  - rewrite filter_length_app. simpl. rewrite Hs.
    destruct (isSkippedStatus (annotation o)); simpl; lia.
  - apply Forall_app; split; [assumption|]. constructor; [exact Hc|constructor].
Qed.

Section Counting.

Variable env : Collaborators.
Variable opts : Options.

(** How one test case is classified. *)
Lemma evalTestcase_classification (testsuite suiteName testcase : jsval) (o : CaseOutcome) :
  evalTestcase env opts testsuite suiteName testcase = Ok o ->
  skipOf testcase = Ok (skip o) /\
  annotation_level (annotation o)
  = (if negb (truthy (testFailureOf testcase)) || skip o then LNotice else LFailure) /\
  status (annotation o)
  = (if skip o then SSkipped
     else if negb (truthy (testFailureOf testcase)) then SSuccess else SFailure).
Proof.
  unfold evalTestcase. intros H.
  bind_inv H. bind_inv H. bind_inv H. bind_inv H. bind_inv H. bind_inv H.
  injection H as <-. simpl. auto.
Qed.

Lemma evalTestcase_coherent (testsuite suiteName testcase : jsval) (o : CaseOutcome) :
  evalTestcase env opts testsuite suiteName testcase = Ok o ->
  skip o = isSkippedStatus (annotation o) /\ coherent (annotation o).
Proof.
  intros H. apply evalTestcase_classification in H. destruct H as (_ & L & S).
  unfold coherent, isSkippedStatus, isFailureLevel. rewrite L, S.
  destruct (skip o), (truthy (testFailureOf testcase)); simpl; split; auto; discriminate.
Qed.

Lemma casesLoop_consistent (testsuite suiteName : jsval) (testcases : list jsval) :
  forall acc f,
    consistent acc ->
    casesLoop env opts testsuite suiteName testcases acc = Ok f ->
    consistent (match f with Next a => a | Return a => a end).
Proof.
  induction testcases as [|tc rest IH]; simpl; intros acc f Hacc H.
  - injection H as <-. exact Hacc.
  - bind_inv H. apply evalTestcase_coherent in E. destruct E as (Hs & Hc).
    pose proof (@consistent_addCase acc v Hacc Hs Hc) as Hacc'.
    destruct (limitReached opts _).
    + injection H as <-. exact Hacc'.
    + eapply IH; eassumption.
Qed.

Lemma suitesLoop_consistent (rec : jsval -> jsval -> result InternalTestResult)
  (parentName : jsval) (testsuites : list jsval) :
  (forall t p r, rec t p = Ok r -> consistent r) ->
  forall acc r,
    consistent acc ->
    suitesLoop env opts rec parentName testsuites acc = Ok r ->
    consistent r.
Proof.
  intros Hrec. induction testsuites as [|t rest IH]; simpl; intros acc r Hacc H.
  - injection H as <-. exact Hacc.
  - destruct (truthy t); simpl in H; [|injection H as <-; exact Hacc].
    bind_inv H. bind_inv H.
    pose proof (@consistent_addResult acc v0 Hacc (Hrec _ _ _ E0)) as Hacc1.
    destruct (truthy (prop "testcase" t)); simpl in H; [|eapply IH; eassumption].
    destruct (limitReached opts _); [injection H as <-; exact Hacc1|].
    bind_inv H. bind_inv H.
    pose proof (casesLoop_consistent _ _ _ Hacc1 E2) as Hf.
    destruct v2 as [acc2|acc2].
    + eapply IH; eassumption.
    + injection H as <-. exact Hf.
Qed.

Lemma parseSuiteN_consistent (n : nat) :
  forall suite parentName r,
    parseSuiteN env n opts suite parentName = Ok r -> consistent r.
Proof.
  induction n as [|n IH]; simpl; intros suite parentName r H; [discriminate|].
  unfold suiteBody in H. bind_inv H.
  destruct (negb _ && negb _).
  - injection H as <-. apply consistent_empty.
  - eapply suitesLoop_consistent; [|apply consistent_empty|exact H].
    intros t p r'. apply IH.
Qed.

Lemma parseSuite_consistent (suite parentName : jsval) (r : InternalTestResult) :
  parseSuite env opts suite parentName = Ok r -> consistent r.
Proof. apply parseSuiteN_consistent. Qed.

Lemma parseFile_consistent (file : string) (r : InternalTestResult) :
  parseFile env opts file = Ok r -> consistent r.
Proof.
  unfold parseFile. intros H. bind_inv H.
  destruct (xml2json env v).
  - eapply parseSuite_consistent; eassumption.
  - injection H as <-. apply consistent_empty.
Qed.

Lemma filesLoop_consistent (files : list string) :
  forall t t',
    consistent (totalsResult t) ->
    filesLoop env opts files t = Ok t' ->
    consistent (totalsResult t').
Proof.
  induction files as [|file rest IH]; simpl; intros t t' Ht H.
  - injection H as <-. exact Ht.
  - bind_inv H. apply parseFile_consistent in E.
    destruct (totalCount v =? 0).
    + eapply IH; [|exact H]. exact Ht.
    + pose proof (@consistent_addResult _ _ Ht E) as Ht2.
      destruct (limitReached opts _).
      * injection H as <-. exact Ht2.
      * eapply IH; [|exact H]. exact Ht2.
Qed.

End Counting.

Lemma disjoint_filters_length {A : Type} (f g : A -> bool) (l : list A) :
  Forall (fun a => g a = true -> f a = false) l ->
  (List.length (filter f l) + List.length (filter g l) <= List.length l)%nat.
Proof.
  induction 1 as [|a l Ha _ IH]; simpl; [lia|].
  destruct (g a) eqn:G.
  - rewrite (Ha eq_refl). simpl. lia.
  - destruct (f a); simpl; lia.
Qed.

Lemma parseTestReports_consistent (env : Collaborators)
  (checkName summary reportPaths : string) (opts : Options) (r : Report.TestResult) :
  parseTestReports env checkName summary reportPaths opts = Ok r ->
  consistent {| totalCount := Report.totalCount r; skipped := Report.skipped r;
                annotations := Report.annotations r |} /\
  Report.failed r = Z.of_nat (List.length (filter isFailureLevel (Report.annotations r))) /\
  Report.passed r = Report.totalCount r - Report.failed r - Report.skipped r.
Proof.
  unfold parseTestReports. intros H. bind_inv H. injection H as <-. simpl.
  split; [|split; reflexivity].
  eapply filesLoop_consistent in E; [exact E|]. apply consistent_empty.
Qed.

(** C1. Every [TestResult] that [parseTestReports] produces has
    [totalCount = passed + failed + skipped], its [failed] is the number of
    the annotations whose [annotation_level] is ['failure'], and the number
    of its annotations is at most [totalCount]. *)
Theorem parseTestReports_counts (env : Collaborators)
  (checkName summary reportPaths : string) (opts : Options) (r : Report.TestResult) :
  parseTestReports env checkName summary reportPaths opts = Ok r ->
  Report.totalCount r = Report.passed r + Report.failed r + Report.skipped r /\
  Report.failed r = Z.of_nat (List.length (filter isFailureLevel (Report.annotations r))) /\
  Z.of_nat (List.length (Report.annotations r)) <= Report.totalCount r.
Proof.
  intros H. apply parseTestReports_consistent in H.
  destruct H as ((T & _ & _) & F & P). simpl in T.
  repeat split; [lia|exact F|lia].
Qed.

Lemma parseTestReports_counts_witness :
  exists r,
    parseTestReports (sampleWorld [("r.xml", Some flatReport)])
      "check" "summary" "reports/*.xml" defaultOptions = Ok r /\
    (Report.totalCount r, Report.passed r, Report.failed r, Report.skipped r) = (3, 1, 1, 1) /\
    Report.totalCount r = Report.passed r + Report.failed r + Report.skipped r /\
    Report.failed r = Z.of_nat (List.length (filter isFailureLevel (Report.annotations r))) /\
    Z.of_nat (List.length (Report.annotations r)) <= Report.totalCount r.
Proof.
  eexists. split; [vm_compute; reflexivity|]. split; [reflexivity|].
  apply (@parseTestReports_counts (sampleWorld [("r.xml", Some flatReport)])
           "check" "summary" "reports/*.xml" defaultOptions).
  vm_compute. reflexivity.
Defined.

(** C10. Every [TestResult] that [parseTestReports] produces has
    [passed >= 0]: every counted test case has one annotation, the skipped
    counter counts the annotations of status ['skipped'], [failed] counts
    those of level ['failure'], no annotation is both, and so
    [failed + skipped <= totalCount]. *)
Theorem parseTestReports_passed_nonneg (env : Collaborators)
  (checkName summary reportPaths : string) (opts : Options) (r : Report.TestResult) :
  parseTestReports env checkName summary reportPaths opts = Ok r ->
  0 <= Report.passed r /\
  Report.failed r + Report.skipped r <= Report.totalCount r /\
  Report.totalCount r = Z.of_nat (List.length (Report.annotations r)) /\
  Report.skipped r = Z.of_nat (List.length (filter isSkippedStatus (Report.annotations r))) /\
  Report.failed r = Z.of_nat (List.length (filter isFailureLevel (Report.annotations r))) /\
  Forall (fun a => isFailureLevel a && isSkippedStatus a = false) (Report.annotations r).
Proof.
  intros H. apply parseTestReports_consistent in H.
  destruct H as ((T & S & C) & F & P). simpl in T, S, C.
  pose proof (disjoint_filters_length isFailureLevel isSkippedStatus C) as D.
  repeat split; try assumption; try lia.
  eapply Forall_impl; [|exact C]. intros a Ha. unfold coherent in Ha.
  destruct (isSkippedStatus a).
  - rewrite (Ha eq_refl). reflexivity.
  - apply andb_false_r.
Qed.

Lemma parseTestReports_passed_nonneg_witness :
  exists r,
    parseTestReports (sampleWorld [("r.xml", Some flatReport)])
      "check" "summary" "reports/*.xml" (withLimit 5 defaultOptions) = Ok r /\
    0 <= Report.passed r /\
    Report.failed r + Report.skipped r <= Report.totalCount r /\
    Report.totalCount r = Z.of_nat (List.length (Report.annotations r)) /\
    Report.skipped r = Z.of_nat (List.length (filter isSkippedStatus (Report.annotations r))) /\
    Report.failed r = Z.of_nat (List.length (filter isFailureLevel (Report.annotations r))) /\
    Forall (fun a => isFailureLevel a && isSkippedStatus a = false) (Report.annotations r).
Proof.
  eexists. split; [vm_compute; reflexivity|].
  apply (@parseTestReports_passed_nonneg (sampleWorld [("r.xml", Some flatReport)])
           "check" "summary" "reports/*.xml" (withLimit 5 defaultOptions)).
  vm_compute. reflexivity.
Defined.

(** ** Falsy elements in the sequence of suites *)

Lemma suitesLoop_falsy_head (env : Collaborators) (opts : Options)
  (rec : jsval -> jsval -> result InternalTestResult) (parentName x : jsval)
  (post : list jsval) (acc : InternalTestResult) :
  truthy x = false ->
  suitesLoop env opts rec parentName (x :: post) acc = Ok acc.
Proof. intros H. simpl. rewrite H. reflexivity. Qed.

Lemma suitesLoop_falsy (env : Collaborators) (opts : Options)
  (rec : jsval -> jsval -> result InternalTestResult) (parentName x : jsval)
  (pre post : list jsval) :
  truthy x = false ->
  forall acc,
    suitesLoop env opts rec parentName (pre ++ x :: post) acc
    = suitesLoop env opts rec parentName pre acc.
Proof.
  intros H. induction pre as [|t pre IH]; intros acc.
  - apply suitesLoop_falsy_head. exact H.
  - simpl. destruct (truthy t); simpl; [|reflexivity].
    destruct (suiteNameOf env opts parentName t) as [sn|e]; simpl; [|reflexivity].
    destruct (rec t sn) as [res|e]; simpl; [|reflexivity].
    destruct (truthy (prop "testcase" t)); simpl; [|apply IH].
    destruct (limitReached opts _); [reflexivity|].
    destruct (if checkRetries opts then _ else _) as [tcs|e]; simpl; [|reflexivity].
    destruct (casesLoop env opts t sn tcs _) as [[acc2|acc2]|e]; simpl;
      [apply IH|reflexivity|reflexivity].
Qed.

Lemma get_of_truthy_prop (key key' : string) (suite : jsval) :
  truthy (prop key suite) = true -> get key' suite = Ok (prop key' suite).
Proof. destruct suite; simpl; try discriminate; reflexivity. Qed.

(** C9. When the normalized sequence of suites of a node contains a falsy
    element, [parseSuite] returns what the elements before it accumulated
    (for a first element: the empty result), whatever follows the falsy
    element, and the falsy element raises no error. *)
Theorem parseSuite_returns_at_falsy_suite (env : Collaborators) (opts : Options)
  (suite parentName x : jsval) (pre post : list jsval) :
  truthy (prop "testsuite" suite) || truthy (prop "testsuites" suite) = true ->
  testsuitesOf suite = (pre ++ x :: post)%list ->
  truthy x = false ->
  parseSuite env opts suite parentName
  = suitesLoop env opts (parseSuite env opts) parentName pre emptyResult /\
  (forall rec acc,
     suitesLoop env opts rec parentName (pre ++ x :: post) acc
     = suitesLoop env opts rec parentName pre acc) /\
  (forall rec acc,
     suitesLoop env opts rec parentName (x :: post) acc = Ok acc).
Proof.
  intros Hs Hseq Hx. split; [|split].
  - rewrite parseSuite_unfold. unfold suiteBody.
    assert (G : get "testsuite" suite = Ok (prop "testsuite" suite)).
    { destruct (truthy (prop "testsuite" suite)) eqn:E.
      - eapply get_of_truthy_prop; exact E.
      - simpl in Hs. eapply get_of_truthy_prop; exact Hs. }
    rewrite G. simpl.
    destruct (truthy (prop "testsuite" suite)), (truthy (prop "testsuites" suite));
      try discriminate; simpl; rewrite Hseq; apply suitesLoop_falsy; exact Hx.
  - intros rec acc. apply suitesLoop_falsy. exact Hx.
  - intros rec acc. apply suitesLoop_falsy_head. exact Hx.
Qed.

(** A sequence [A, null, B]: only [A] is processed. *)
Lemma parseSuite_returns_at_falsy_suite_witness :
  (exists r, parseSuite (sampleWorld []) defaultOptions holedReport (JString "") = Ok r /\
             totalCount r = 1 /\ List.length (annotations r) = 1%nat) /\
  parseSuite (sampleWorld []) defaultOptions holedReport (JString "")
  = suitesLoop (sampleWorld []) defaultOptions (parseSuite (sampleWorld []) defaultOptions)
      (JString "") [suiteA] emptyResult /\
  (forall rec acc,
     suitesLoop (sampleWorld []) defaultOptions rec (JString "")
       ([suiteA] ++ JNull :: [suiteB]) acc
     = suitesLoop (sampleWorld []) defaultOptions rec (JString "") [suiteA] acc) /\
  (forall rec acc,
     suitesLoop (sampleWorld []) defaultOptions rec (JString "") (JNull :: [suiteB]) acc
     = Ok acc).
Proof.
  split.
  - eexists. split; [vm_compute; reflexivity|]. split; reflexivity.
  - apply (@parseSuite_returns_at_falsy_suite (sampleWorld []) defaultOptions holedReport
             (JString "") JNull [suiteA] [suiteB]); reflexivity.
Defined.

(** The empty [<testsuites/>] wrapper: the sequence is [[undefined]]. *)
Example parseSuite_empty_wrapper (env : Collaborators) (opts : Options) (parentName : jsval) :
  testsuitesOf (JObject None [("testsuites", JObject None [])]) = [JUndefined] /\
  parseSuite env opts (JObject None [("testsuites", JObject None [])]) parentName
  = Ok emptyResult.
Proof. split; reflexivity. Qed.

(** ** Report files that are not XML *)

Lemma parseFile_parse_failure (env : Collaborators) (opts : Options)
  (file data : string) (e : exn) :
  readFileSync env file = Ok data -> xml2json env data = Throw e ->
  parseFile env opts file = Ok emptyResult.
Proof. intros R X. unfold parseFile. rewrite R. simpl. rewrite X. reflexivity. Qed.

(** The number of files found so far has no influence on the loop. *)
Lemma filesLoop_shift (env : Collaborators) (opts : Options) (k : Z) (files : list string) :
  forall t1 t2,
    totalsResult t1 = totalsResult t2 -> t_foundFiles t1 = t_foundFiles t2 + k ->
    sameRun k (filesLoop env opts files t1) (filesLoop env opts files t2).
Proof.
  induction files as [|f rest IH]; intros t1 t2 HR HF; simpl.
  - split; assumption.
  - destruct (parseFile env opts f) as [r|e]; simpl; [|reflexivity].
    injection HR as HT HS HA.
    destruct (totalCount r =? 0).
    + apply IH; simpl; [unfold totalsResult; simpl; congruence|lia].
    + rewrite HA. destruct (limitReached opts _).
      * simpl. unfold totalsResult; simpl. split; [congruence|lia].
      * apply IH; simpl; [unfold totalsResult; simpl; congruence|lia].
Qed.

Lemma filesLoop_skips_unparsable (env : Collaborators) (opts : Options)
  (file : string) (rest : list string) (t : Totals) :
  parseFile env opts file = Ok emptyResult ->
  filesLoop env opts (file :: rest) t = filesLoop env opts rest (bumpFound t).
Proof. intros P. simpl. rewrite P. reflexivity. Qed.

Lemma filesLoop_without_unparsable (env : Collaborators) (opts : Options)
  (file : string) (pre post : list string) :
  parseFile env opts file = Ok emptyResult ->
  forall t, exists k,
    (k = 0 \/ k = 1) /\
    sameRun k (filesLoop env opts (pre ++ file :: post) t)
              (filesLoop env opts (pre ++ post) t).
Proof.
  intros P. induction pre as [|f pre IH]; intros t.
  - exists 1. split; [right; reflexivity|].
    rewrite app_nil_l, filesLoop_skips_unparsable by exact P.
    apply filesLoop_shift; [reflexivity|simpl; lia].
  - simpl. destruct (parseFile env opts f) as [r|e]; simpl.
    + destruct (totalCount r =? 0); [apply IH|].
      destruct (limitReached opts _); [|apply IH].
      exists 0. split; [left; reflexivity|]. simpl. split; [reflexivity|lia].
    + exists 0. split; [left; reflexivity|reflexivity].
Qed.

(** C8. A report file whose contents are not XML makes [parseFile] return
    the empty result instead of throwing; in [parseTestReports] the file
    contributes no count and no annotation, and the loop goes on with the
    remaining files: the run ends as the run without that file does, with
    the same counts and annotations. *)
Theorem unparsable_report_is_skipped (env : Collaborators) (opts : Options)
  (file data : string) (e : exn) :
  readFileSync env file = Ok data ->
  xml2json env data = Throw e ->
  parseFile env opts file = Ok emptyResult /\
  (forall rest t,
     filesLoop env opts (file :: rest) t = filesLoop env opts rest (bumpFound t)) /\
  (forall pre post t, exists k,
     (k = 0 \/ k = 1) /\
     sameRun k (filesLoop env opts (pre ++ file :: post) t)
               (filesLoop env opts (pre ++ post) t)) /\
  (forall checkName summary reportPaths pre post,
     globGenerator env reportPaths (followSymlink opts) = (pre ++ file :: post)%list ->
     match filesLoop env opts (pre ++ post) noTotals with
     | Ok t =>
         exists r, parseTestReports env checkName summary reportPaths opts = Ok r /\
                   Report.totalCount r = t_totalCount t /\
                   Report.skipped r = t_skipped t /\
                   Report.annotations r = t_annotations t
     | Throw e' => parseTestReports env checkName summary reportPaths opts = Throw e'
     end).
Proof.
  intros R X. pose proof (parseFile_parse_failure env opts file R X) as P.
  split; [exact P|]. split; [|split].
  - intros rest t. apply filesLoop_skips_unparsable. exact P.
  - intros pre post t. apply filesLoop_without_unparsable. exact P.
  - intros checkName summary reportPaths pre post G.
    unfold parseTestReports. rewrite G.
    destruct (filesLoop_without_unparsable env opts file pre post P noTotals)
      as (k & _ & S).
    destruct (filesLoop env opts (pre ++ post) noTotals) as [t|e'];
      destruct (filesLoop env opts (pre ++ file :: post) noTotals) as [t'|e''];
      simpl in S; try contradiction.
    + destruct S as (S & _). injection S as HT HS HA.
      eexists. split; [reflexivity|]. simpl. auto.
    + simpl. congruence.
Qed.

Lemma unparsable_report_is_skipped_witness :
  (exists r,
     parseTestReports (sampleWorld threeFiles) "check" "summary" "reports/*.xml"
       defaultOptions = Ok r /\
     (Report.totalCount r, Report.foundFiles r, List.length (Report.annotations r))
     = (5, 3, 5%nat)) /\
  parseFile (sampleWorld threeFiles) defaultOptions "reports/bad.xml" = Ok emptyResult /\
  (forall rest t,
     filesLoop (sampleWorld threeFiles) defaultOptions ("reports/bad.xml" :: rest) t
     = filesLoop (sampleWorld threeFiles) defaultOptions rest (bumpFound t)) /\
  (forall pre post t, exists k,
     (k = 0 \/ k = 1) /\
     sameRun k
       (filesLoop (sampleWorld threeFiles) defaultOptions (pre ++ "reports/bad.xml" :: post) t)
       (filesLoop (sampleWorld threeFiles) defaultOptions (pre ++ post) t)) /\
  (forall checkName summary reportPaths pre post,
     globGenerator (sampleWorld threeFiles) reportPaths (followSymlink defaultOptions)
     = (pre ++ "reports/bad.xml" :: post)%list ->
     match filesLoop (sampleWorld threeFiles) defaultOptions (pre ++ post) noTotals with
     | Ok t =>
         exists r,
           parseTestReports (sampleWorld threeFiles) checkName summary reportPaths
             defaultOptions = Ok r /\
           Report.totalCount r = t_totalCount t /\
           Report.skipped r = t_skipped t /\
           Report.annotations r = t_annotations t
     | Throw e' =>
         parseTestReports (sampleWorld threeFiles) checkName summary reportPaths
           defaultOptions = Throw e'
     end).
Proof.
  split.
  - eexists. split; vm_compute; reflexivity.
  - apply (@unparsable_report_is_skipped (sampleWorld threeFiles) defaultOptions
             "reports/bad.xml" "reports/bad.xml" XmlError); reflexivity.
Defined.

(** ** Skipped test cases *)

Section Skipping.

Variable env : Collaborators.
Variable opts : Options.

Lemma skipOf_evidence (attrs : list (string * string)) (fields : list (string * jsval)) :
  truthy (prop "skipped" (JObject (Some attrs) fields)) = true \/
  assoc "status" attrs = Some "ignored" \/
  assoc "status" attrs = Some "disabled" ->
  skipOf (JObject (Some attrs) fields) = Ok true.
Proof.
  intros H. unfold skipOf.
  destruct (truthy (prop "skipped" (JObject (Some attrs) fields))); [reflexivity|].
  destruct H as [H|[H|H]]; [discriminate| |]; simpl; rewrite H; reflexivity.
Qed.

(** A test case with a name, a failure or error payload and a reason to be
    skipped is evaluated without an exception. *)
Lemma evalTestcase_skipped_failure_returns (testsuite suiteName : jsval)
  (attrs : list (string * string)) (fields : list (string * jsval)) (name : string) :
  assoc "name" attrs = Some name ->
  failing (JObject (Some attrs) fields) = true ->
  skipOf (JObject (Some attrs) fields) = Ok true ->
  exists o, evalTestcase env opts testsuite suiteName (JObject (Some attrs) fields) = Ok o.
Proof.
  intros N F S. unfold evalTestcase. unfold failing in F. rewrite S, F. simpl.
  assert (M : exists m, messageOf opts (JObject (Some attrs) fields)
                          (stackTraceOf (JObject (Some attrs) fields)) = Ok m).
  { unfold messageOf. destruct (truthyStr _); [eauto|]. simpl. rewrite N. eauto. }
  destruct M as (m & ->). simpl.
  assert (P : exists p, positionOf env testsuite (JObject (Some attrs) fields)
                          (stackTraceOf (JObject (Some attrs) fields)) = Ok p).
  { unfold positionOf. simpl. rewrite N.
    destruct (truthyStr (assoc "classname" attrs)) eqn:C; [|eauto].
    destruct (assoc "classname" attrs); [eauto|discriminate]. }
  destruct P as (p & ->). simpl. rewrite andb_false_r. simpl.
  assert (T : exists t, titleOf opts suiteName (JObject (Some attrs) fields) p = Ok t).
  { unfold titleOf. simpl. rewrite N.
    destruct (truthyStr (checkTitleTemplate opts)).
    - destruct (truthyStr (assoc "classname" attrs)) eqn:C; [|eauto].
      destruct (assoc "classname" attrs); [eauto|discriminate].
    - destruct (negb _); eauto. }
  destruct T as (t & ->). simpl. eauto.
Qed.

(** C5. The annotation of a test case has the level ['notice'] whenever its
    status is ['skipped']; and a test case with a failure or error payload
    that has a [skipped] child or the status ["ignored"] or ["disabled"]
    gets the status ['skipped'] and the level ['notice'], adds one to the
    skipped counter and nothing to the annotations of level ['failure']. *)
Theorem skipped_case_is_a_notice (testsuite suiteName : jsval)
  (attrs : list (string * string)) (fields : list (string * jsval)) (name : string) :
  assoc "name" attrs = Some name ->
  failing (JObject (Some attrs) fields) = true ->
  truthy (prop "skipped" (JObject (Some attrs) fields)) = true \/
  assoc "status" attrs = Some "ignored" \/
  assoc "status" attrs = Some "disabled" ->
  (forall testcase o,
     evalTestcase env opts testsuite suiteName testcase = Ok o ->
     status (annotation o) = SSkipped -> annotation_level (annotation o) = LNotice) /\
  exists o,
    evalTestcase env opts testsuite suiteName (JObject (Some attrs) fields) = Ok o /\
    status (annotation o) = SSkipped /\
    annotation_level (annotation o) = LNotice /\
    forall acc,
      totalCount (addCase acc o) = totalCount acc + 1 /\
      skipped (addCase acc o) = skipped acc + 1 /\
      filter isFailureLevel (annotations (addCase acc o))
      = filter isFailureLevel (annotations acc).
Proof.
  intros N F Ev. split.
  - intros testcase o H Hs. apply evalTestcase_classification in H.
    destruct H as (_ & L & S). rewrite L. rewrite Hs in S.
    destruct (skip o); [rewrite orb_true_r; reflexivity|].
    destruct (negb (truthy (testFailureOf testcase))); discriminate.
  - pose proof (skipOf_evidence attrs fields Ev) as S.
    destruct (evalTestcase_skipped_failure_returns testsuite suiteName attrs fields N F S)
      as (o & H).
    exists o. split; [exact H|].
    apply evalTestcase_classification in H. destruct H as (K & L & St).
    rewrite S in K. injection K as K. rewrite <- K in L, St.
    rewrite orb_true_r in L. repeat split; try assumption.
    + unfold addCase; simpl. rewrite <- K. reflexivity.
    + unfold addCase; simpl. rewrite filter_app. simpl.
      unfold isFailureLevel. rewrite L. apply app_nil_r.
Qed.

End Skipping.

Lemma skipped_case_is_a_notice_witness :
  (forall testcase o,
     evalTestcase (sampleWorld []) defaultOptions suiteA (JString "") testcase = Ok o ->
     status (annotation o) = SSkipped -> annotation_level (annotation o) = LNotice) /\
  exists o,
    evalTestcase (sampleWorld []) defaultOptions suiteA (JString "")
      (ignoredFailingCase "later" "not yet") = Ok o /\
    status (annotation o) = SSkipped /\
    annotation_level (annotation o) = LNotice /\
    forall acc,
      totalCount (addCase acc o) = totalCount acc + 1 /\
      skipped (addCase acc o) = skipped acc + 1 /\
      filter isFailureLevel (annotations (addCase acc o))
      = filter isFailureLevel (annotations acc).
Proof.
  apply (@skipped_case_is_a_notice (sampleWorld []) defaultOptions suiteA (JString "")
           [("name", "later"); ("status", "ignored")]
           [("failure", JObject (Some [("message", "not yet")]) [])] "later").
  - reflexivity.
  - reflexivity.
  - right; left; reflexivity.
Defined.

(** ** [resolveFileAndLine]: the return before the search *)

Lemma resolveFileAndLine_cases (file line : option string) (className output : string) :
  let fileName := resolvedFileName file className in
  (exists n,
     safeParseInt line = Some n /\ n <> 0 /\ fileName <> EmptyString /\
     resolveFileAndLine file line className output
     = Done {| fileName := fileName; line := n |}) \/
  ((fileName = EmptyString \/ safeParseInt line = None \/ safeParseInt line = Some 0) /\
   resolveFileAndLine file line className output
   = Match (fileLinePattern (escapedFileName fileName)) output
       (fun ans =>
          match tryBody fileName (safeParseInt line) ans with
          | Ok p => p
          | Throw _ => catchBlock fileName line
          end)).
Proof.
  intros fileName. unfold resolveFileAndLine. fold fileName.
  destruct (safeParseInt line) as [n|]; [|right; auto].
  destruct fileName as [|c s] eqn:E; simpl.
  - right; auto.
  - destruct (Z.eqb_spec n 0) as [->|Hn]; simpl.
    + right; auto.
    + left. exists n. repeat split; auto. discriminate.
Qed.

(** C4, as the claim states it, fails: with no explicit file name the class
    name supplies one, and the function returns before any search. *)
Lemma explicit_file_is_not_needed_to_return_at_once :
  ~ (forall file line className output,
       (exists p, resolveFileAndLine file line className output = Done p) <->
       (truthyStr file = true /\ exists n, safeParseInt line = Some n)).
Proof.
  intros H.
  destruct (H None (Some "5") "pkg.Foo" "at pkg.Foo.run(Foo.java:12)") as [H1 _].
  destruct H1 as [F _]; [eexists; reflexivity|discriminate].
Qed.

(** C4, amended. [resolveFileAndLine] returns before any search exactly when
    the resolved file name (the explicit one, else the last dot-segment of
    the class name) is not empty and the explicit line parses to a number
    other than zero, and it then returns that name and that number;
    otherwise it searches the stack trace for the pattern built from the
    resolved file name. *)
Theorem resolveFileAndLine_returns_at_once_iff (file lineText : option string)
  (className output : string) :
  ((exists p, resolveFileAndLine file lineText className output = Done p) <->
   (resolvedFileName file className <> EmptyString /\
    exists n, safeParseInt lineText = Some n /\ n <> 0)) /\
  (forall p, resolveFileAndLine file lineText className output = Done p ->
     fileName p = resolvedFileName file className /\ safeParseInt lineText = Some (line p)) /\
  ((forall p, resolveFileAndLine file lineText className output <> Done p) ->
   exists k, resolveFileAndLine file lineText className output
             = Match (fileLinePattern (escapedFileName (resolvedFileName file className)))
                 output k).
Proof.
  destruct (resolveFileAndLine_cases file lineText className output)
    as [(n & P & Hn & Hf & R)|(C & R)]; rewrite R.
  - split; [split|split].
    + intros _. split; [exact Hf|]. exists n. auto.
    + intros _. eexists; reflexivity.
    + intros p Hp. injection Hp as <-. simpl. auto.
    + intros Hp. exfalso. eapply Hp. reflexivity.
  - split; [split|split].
    + intros (p & Hp). discriminate.
    + intros (Hf & n & Hn & Hz). exfalso.
      destruct C as [C|[C|C]]; [contradiction|congruence|congruence].
    + intros p Hp. discriminate.
    + intros _. eexists; reflexivity.
Qed.

Example returns_at_once_without_explicit_file :
  resolveFileAndLine None (Some "5") "pkg.Foo" "at pkg.Foo.run(Foo.java:12)"
  = Done {| fileName := "Foo"; line := 5 |}.
Proof. reflexivity. Qed.

Example searches_despite_explicit_file_and_line_zero :
  runSearch RegExp.matchAll
    (resolveFileAndLine (Some "Foo.java") (Some "0") "pkg.Foo" "at pkg.Foo.run(Foo.java:12)")
  = {| fileName := "Foo.java"; line := 12 |}.
Proof. vm_compute. reflexivity. Qed.

(** ** [resolveFileAndLine]: the pattern of the search *)

(** The escaped name stands for the name itself. *)
Lemma literalOf_escapeRegExp (s : string) :
  RegExp.literalOf (escapeRegExp s) = Some s.
Proof.
  induction s as [|c s IH]; [reflexivity|].
  simpl. destruct (isRegExpSpecial c) eqn:E.
  - simpl. rewrite E, IH. reflexivity.
  - simpl. destruct (Ascii.eqb_spec c "\").
    + subst c. discriminate.
    + rewrite E, IH. reflexivity.
Qed.

(** C7. The replacement of ["::"] by ["/"] is made once: of the resolved
    name [a::b::c] only the first separator is replaced, the pattern
    searched is [ [^ ]*a/b::c.*?:\d+], and the location
    [src/a/b/c.rs:48] of the stack trace is not found; with one separator
    it is. *)
Theorem only_first_double_colon_is_replaced :
  escapedFileName "a::b::c" = "a/b::c" /\
  fileLinePattern (escapedFileName "a::b::c") = " [^ ]*a/b::c.*?:\d+" /\
  runSearch RegExp.matchAll
    (resolveFileAndLine None None "a::b::c" "panicked at src/a/b/c.rs:48:38")
  = {| fileName := "a::b::c"; line := 1 |} /\
  runSearch RegExp.matchAll
    (resolveFileAndLine None None "a::b" "panicked at src/a/b.rs:48:38")
  = {| fileName := "src/a/b.rs"; line := 48 |}.
Proof. repeat split; vm_compute; reflexivity. Qed.

(** ** The annotation limit *)

(** C2. With [annotationsLimit = 1], the report [nestedReport] has two
    failing test cases and [parseFile] and [parseTestReports] return two
    annotations of level ['failure']: the suite [X] has no test case of its
    own, the loop goes on to its sibling without looking at the limit, and
    the second failing case is processed.  The same two cases in one suite
    give one annotation. *)
Theorem limit_is_not_checked_after_a_suite_without_cases :
  (exists r,
     parseFile (sampleWorld [("reports/r.xml", Some nestedReport)])
       (withLimit 1 defaultOptions) "reports/r.xml" = Ok r /\
     totalCount r = 2 /\
     map title (filter isFailureLevel (annotations r)) = ["a"; "b"]) /\
  (exists r,
     parseTestReports (sampleWorld [("reports/r.xml", Some nestedReport)])
       "check" "summary" "reports/*.xml" (withLimit 1 defaultOptions) = Ok r /\
     Report.failed r = 2) /\
  (exists r,
     parseFile (sampleWorld [("reports/r.xml", Some twoFailuresReport)])
       (withLimit 1 defaultOptions) "reports/r.xml" = Ok r /\
     totalCount r = 1 /\
     map title (filter isFailureLevel (annotations r)) = ["a"]).
Proof.
  repeat split; eexists; (split; [vm_compute; reflexivity|]); repeat split.
Qed.

(** A limit that is not positive is never reached. *)
Lemma limitReached_unlimited (opts : Options) (l : list Annotation) :
  annotationsLimit opts <= 0 -> limitReached opts l = false.
Proof.
  intros H. unfold limitReached. destruct (Z.ltb_spec 0 (annotationsLimit opts)); [lia|reflexivity].
Qed.

(** With [annotatePassed] every annotation counts toward the limit. *)
Lemma limitCount_annotatePassed (opts : Options) (l : list Annotation) :
  annotatePassed opts = true -> limitCount opts l = Z.of_nat (List.length l).
Proof.
  intros H. unfold limitCount. rewrite H. f_equal. f_equal.
  induction l as [|a l IH]; simpl; [reflexivity|].
  rewrite orb_true_r. f_equal. exact IH.
Qed.

(** Without a limit the loop over the test cases never returns early. *)
Lemma casesLoop_unlimited (env : Collaborators) (opts : Options)
  (testsuite suiteName : jsval) (testcases : list jsval) :
  annotationsLimit opts <= 0 ->
  forall acc f,
    casesLoop env opts testsuite suiteName testcases acc = Ok f ->
    exists acc', f = Next acc' /\
                 totalCount acc' = totalCount acc + Z.of_nat (List.length testcases).
Proof.
  intros L. induction testcases as [|tc rest IH]; simpl; intros acc f H.
  - injection H as <-. exists acc. split; [reflexivity|lia].
  - bind_inv H. rewrite limitReached_unlimited in H by exact L.
    apply IH in H. destruct H as (acc' & -> & T).
    exists acc'. split; [reflexivity|]. rewrite T. simpl. lia.
Qed.

Lemma limitCount_snoc (opts : Options) (l : list Annotation) (a : Annotation) :
  limitCount opts (l ++ [a])
  = limitCount opts l + (if isFailureLevel a || annotatePassed opts then 1 else 0).
Proof.
  unfold limitCount. rewrite filter_app, length_app. simpl.
  destruct (isFailureLevel a || annotatePassed opts); simpl; lia.
Qed.

(** Inside the loop over the test cases of one suite the limit is kept:
    the loop returns as soon as the count reaches it. *)
Lemma casesLoop_keeps_limit (env : Collaborators) (opts : Options)
  (testsuite suiteName : jsval) (testcases : list jsval) :
  0 < annotationsLimit opts ->
  forall acc f,
    limitCount opts (annotations acc) < annotationsLimit opts ->
    casesLoop env opts testsuite suiteName testcases acc = Ok f ->
    match f with
    | Return a => limitCount opts (annotations a) = annotationsLimit opts
    | Next a => limitCount opts (annotations a) < annotationsLimit opts
    end.
Proof.
  intros L. induction testcases as [|tc rest IH]; simpl; intros acc f B H.
  - injection H as <-. exact B.
  - bind_inv H. unfold limitReached in H.
    pose proof (limitCount_snoc opts (annotations acc) (annotation v)) as S.
    destruct (Z.ltb_spec 0 (annotationsLimit opts)); [|lia]. simpl in H.
    destruct (Z.leb_spec (annotationsLimit opts)
                (limitCount opts (annotations acc ++ [annotation v]))).
    + injection H as <-. simpl.
      destruct (isFailureLevel (annotation v) || annotatePassed opts); lia.
    + eapply IH; [|exact H]. simpl. lia.
Qed.

(** ** [resolveFileAndLine]: the line that is returned *)

Local Arguments Ascii.eqb : simpl never.
Local Arguments String.eqb : simpl never.

Lemma stripPrefix_append (p s : string) : JsString.stripPrefix p (p ++ s) = Some s.
Proof.
  induction p as [|a p IH]; simpl; [reflexivity|].
  rewrite Ascii.eqb_refl. exact IH.
Qed.

(** *** The engine on the patterns of the resolver *)

Lemma literalOf_append (b t : string) :
  RegExp.literalOf (escapeRegExp b ++ t) = option_map (append b) (RegExp.literalOf t).
Proof.
  induction b as [|c b IH]; simpl.
  - destruct (RegExp.literalOf t); reflexivity.
  - destruct (isRegExpSpecial c) eqn:E; simpl.
    + rewrite E, IH. destruct (RegExp.literalOf t); reflexivity.
    + destruct (Ascii.eqb_spec c "\").
      * subst c. discriminate.
      * rewrite E, IH. destruct (RegExp.literalOf t); reflexivity.
Qed.

Lemma escapeRegExp_colon (s : string) :
  JsString.stripPrefix "::" (escapeRegExp s)
  = option_map escapeRegExp (JsString.stripPrefix "::" s).
Proof.
  destruct s as [|c s]; [reflexivity|]. simpl.
  destruct (isRegExpSpecial c) eqn:E.
  - simpl. destruct (Ascii.eqb_spec ":" c) as [<-|]; [discriminate|reflexivity].
  - simpl. destruct (Ascii.eqb_spec ":" c) as [<-|]; [|reflexivity].
    destruct s as [|d s]; [reflexivity|]. simpl.
    destruct (isRegExpSpecial d) eqn:E'.
    + simpl. destruct (Ascii.eqb_spec ":" d) as [<-|]; [discriminate|reflexivity].
    + simpl. destruct (Ascii.eqb ":" d); reflexivity.
Qed.

Lemma cut_cons (pat : string) (c : ascii) (s : string) :
  JsString.cut pat (String c s)
  = match JsString.stripPrefix pat (String c s) with
    | Some rest => Some (EmptyString, rest)
    | None =>
        match JsString.cut pat s with
        | Some (before, after) => Some (String c before, after)
        | None => None
        end
    end.
Proof. reflexivity. Qed.

Lemma stripPrefix_colons_special (c : ascii) (s : string) :
  isRegExpSpecial c = true -> JsString.stripPrefix "::" (String c s) = None.
Proof.
  intros E. simpl. destruct (Ascii.eqb_spec ":" c) as [<-|]; [discriminate|reflexivity].
Qed.

Lemma cut_escapeRegExp (s : string) :
  JsString.cut "::" (escapeRegExp s)
  = option_map (fun ba => (escapeRegExp (fst ba), escapeRegExp (snd ba)))
      (JsString.cut "::" s).
Proof.
  induction s as [|c s IH]; [reflexivity|].
  assert (P := escapeRegExp_colon (String c s)).
  rewrite (cut_cons "::" c s).
  destruct (JsString.stripPrefix "::" (String c s)) as [rest|] eqn:S.
  - simpl option_map in *.
    destruct (escapeRegExp (String c s)) as [|x e] eqn:X.
    + simpl in P. discriminate.
    + rewrite cut_cons, P. reflexivity.
  - simpl option_map in P. simpl escapeRegExp in *.
    destruct (isRegExpSpecial c) eqn:E.
    + rewrite cut_cons, P, cut_cons, (stripPrefix_colons_special c _ E), IH.
      destruct (JsString.cut "::" s) as [[b a]|]; simpl; [rewrite E|]; reflexivity.
    + rewrite cut_cons, P, IH.
      destruct (JsString.cut "::" s) as [[b a]|]; simpl; [rewrite E|]; reflexivity.
Qed.

(** The escaped file name stands for the file name with its first ["::"]
    replaced by ["/"]. *)
Lemma literalOf_escapedFileName (f : string) :
  RegExp.literalOf (escapedFileName f) = Some (JsString.replace "::" "/" f).
Proof.
  unfold escapedFileName, JsString.replace. rewrite cut_escapeRegExp.
  destruct (JsString.cut "::" f) as [[b a]|]; simpl.
  - rewrite literalOf_append. simpl. rewrite literalOf_escapeRegExp. reflexivity.
  - apply literalOf_escapeRegExp.
Qed.

Lemma substring_append_right (e suf : string) :
  substring (String.length e) (String.length suf) (e ++ suf) = suf.
Proof.
  induction e as [|c e IH]; simpl; [|exact IH].
  induction suf as [|d suf IH]; simpl; [reflexivity|]. rewrite IH. reflexivity.
Qed.

Lemma substring_append_left (e suf : string) :
  substring 0 (String.length e) (e ++ suf) = e.
Proof.
  induction e as [|c e IH]; simpl; [|rewrite IH; reflexivity].
  destruct suf; reflexivity.
Qed.

Lemma length_append (a b : string) :
  String.length (a ++ b) = (String.length a + String.length b)%nat.
Proof. induction a as [|c a IH]; simpl; [reflexivity|]. rewrite IH. reflexivity. Qed.

Lemma middleOf_fileLinePattern (escaped : string) :
  RegExp.middleOf (fileLinePattern escaped) = Some escaped.
Proof.
  unfold RegExp.middleOf, fileLinePattern.
  rewrite stripPrefix_append, length_append.
  replace (String.length escaped + String.length ".*?:\d+" - 7)%nat
    with (String.length escaped) by (simpl; lia).
  pose proof (substring_append_right escaped ".*?:\d+") as R.
  simpl String.length in R. rewrite R.
  rewrite substring_append_left. rewrite String.eqb_refl.
  destruct (Nat.leb_spec 7 (String.length escaped + String.length ".*?:\d+"));
    [reflexivity|simpl in *; lia].
Qed.


(** *** Every match ends with a colon and a line number *)










(** *** The last token of a match *)

Lemma split_nonempty (sep : ascii) (s : string) : JsString.split sep s <> [].
Proof.
  destruct s as [|c s]; simpl; [discriminate|].
  destruct (Ascii.eqb c sep); [discriminate|].
  destruct (JsString.split sep s); discriminate.
Qed.

Lemma split_append_sep (sep : ascii) (a b : string) :
  JsString.split sep (a ++ String sep b)
  = (JsString.split sep a ++ JsString.split sep b)%list.
Proof.
  induction a as [|x a IH]; simpl.
  - rewrite Ascii.eqb_refl. reflexivity.
  - destruct (Ascii.eqb x sep); [rewrite IH; reflexivity|].
    rewrite IH. pose proof (split_nonempty sep a) as N.
    destruct (JsString.split sep a); [contradiction|reflexivity].
Qed.



Lemma pop_snoc {A : Type} (l : list A) (x : A) : pop (l ++ [x]) = (l, Some x).
Proof. unfold pop. rewrite rev_app_distr. simpl. rewrite rev_involutive. reflexivity. Qed.


(** *** [parseInt] on a line number *)






(** *** The line of the returned position *)

Lemma orElse_nonzero (n : option Z) (d : Z) : d <> 0 -> orElse n d <> 0.
Proof.
  intros D. unfold orElse. destruct n as [v|]; [|exact D].
  destruct (Z.eqb_spec v 0); assumption.
Qed.

Lemma fromMatches_nonzero (name : string) (ms : list string) (p : Position) :
  fromMatches name ms = Ok p -> line p <> 0.
Proof.
  unfold fromMatches. destruct (snd (pop ms)); [|discriminate].
  intros H. injection H as <-. simpl. apply orElse_nonzero. discriminate.
Qed.


(** *** The number read from a line token *)







(** The class name is a string for [resolveFileAndLine], as its signature
    declares.  A test case that has neither a name nor a class name, and no
    file anywhere, gives [undefined] instead, and the call throws before the
    [try] block is entered. *)
Example nameless_case_has_no_position :
  positionOf (sampleWorld []) suiteA (JObject (Some [("time", "1")]) []) "trace"
  = Throw TypeError.
Proof. reflexivity. Qed.

Example resolve_java_trace :
  runSearch RegExp.matchAll
    (resolveFileAndLine None None "com.acme.FooTest"
       "java.lang.AssertionError at com.acme.FooTest.bar(FooTest.java:42) at Runner.run(Runner.java:7)")
  = {| fileName := "FooTest"; line := 42 |}.
Proof. vm_compute. reflexivity. Qed.

Example resolve_line_zero_in_trace :
  runSearch RegExp.matchAll (resolveFileAndLine None None "Foo" "at Foo.bar( Foo.java:0)")
  = {| fileName := "Foo"; line := -1 |}.
Proof. vm_compute. reflexivity. Qed.

Example resolve_no_match :
  runSearch RegExp.matchAll
    (resolveFileAndLine None None "pkg.SomeClass" "at SomeClass.java line 42")
  = {| fileName := "SomeClass"; line := 1 |}.
Proof. vm_compute. reflexivity. Qed.

Example resolve_empty_match_array :
  runSearch (fun _ _ => Matches []) (resolveFileAndLine None (Some "x7") "Foo" "trace")
  = {| fileName := "Foo"; line := -1 |}.
Proof. reflexivity. Qed.

(** ** The reconciliation of retried test cases *)

Lemma keyEqb_spec (a b : option string) : reflect (a = b) (keyEqb a b).
Proof.
  destruct a as [x|], b as [y|]; simpl; try (constructor; congruence).
  destruct (String.eqb_spec x y); constructor; congruence.
Qed.

Lemma keyEqb_refl (a : option string) : keyEqb a a = true.
Proof. destruct (keyEqb_spec a a); congruence. Qed.

Lemma keyEqb_sym (a b : option string) : keyEqb a b = keyEqb b a.
Proof. destruct (keyEqb_spec a b), (keyEqb_spec b a); congruence. Qed.

Lemma memKey_In (k : option string) (ks : list (option string)) :
  memKey k ks = true <-> In k ks.
Proof.
  unfold memKey. rewrite existsb_exists. split.
  - intros (x & I & E). destruct (keyEqb_spec k x); [subst; exact I|discriminate].
  - intros I. exists k. split; [exact I|apply keyEqb_refl].
Qed.

Lemma memKey_false (k : option string) (ks : list (option string)) :
  memKey k ks = false <-> ~ In k ks.
Proof.
  rewrite <- memKey_In. destruct (memKey k ks); split; congruence.
Qed.

Lemma filter_twice {A : Type} (f g : A -> bool) (l : list A) :
  filter f (filter g l) = filter (fun x => g x && f x) l.
Proof.
  induction l as [|x l IH]; simpl; [reflexivity|].
  destruct (g x); simpl; [destruct (f x)|]; rewrite IH; reflexivity.
Qed.

(** *** First occurrences *)

Lemma firstOccurrences_app (xs ys : list (option string)) :
  firstOccurrences (xs ++ ys)
  = (firstOccurrences xs
     ++ filter (fun k => negb (memKey k xs)) (firstOccurrences ys))%list.
Proof.
  induction xs as [|x xs IH]; simpl.
  - induction (firstOccurrences ys) as [|y l IHl]; simpl; [reflexivity|].
    rewrite <- IHl. reflexivity.
  - rewrite IH, filter_app, filter_twice. f_equal. f_equal.
    apply filter_ext. intros k. unfold memKey. simpl.
    rewrite negb_orb. apply andb_comm.
Qed.

Lemma firstOccurrences_In (k : option string) (ks : list (option string)) :
  In k (firstOccurrences ks) <-> In k ks.
Proof.
  induction ks as [|x ks IH]; simpl; [tauto|].
  rewrite filter_In, IH. destruct (keyEqb_spec k x) as [->|N]; simpl.
  - tauto.
  - split; [tauto|]. intros [E|I]; [congruence|auto].
Qed.

Lemma firstOccurrences_NoDup (ks : list (option string)) : NoDup (firstOccurrences ks).
Proof.
  induction ks as [|x ks IH]; simpl; constructor.
  - rewrite filter_In. intros (_ & E). rewrite keyEqb_refl in E. discriminate.
  - apply NoDup_filter. exact IH.
Qed.

(** *** The map of the loop *)

Lemma mapGet_map (f : option string -> jsval) (k : option string)
  (keys : list (option string)) :
  mapGet k (map (fun k' => (k', f k')) keys)
  = if memKey k keys then Some (f k) else None.
Proof.
  induction keys as [|x keys IH]; simpl; [reflexivity|].
  rewrite (keyEqb_sym k x). destruct (keyEqb_spec x k) as [->|]; simpl; [reflexivity|exact IH].
Qed.

Lemma mapSet_map_absent (f : option string -> jsval) (k : option string) (v : jsval)
  (keys : list (option string)) :
  ~ In k keys ->
  mapSet k v (map (fun k' => (k', f k')) keys)
  = (map (fun k' => (k', f k')) keys ++ [(k, v)])%list.
Proof.
  induction keys as [|x keys IH]; simpl; intros N; [reflexivity|].
  destruct (keyEqb_spec x k) as [->|]; [tauto|]. rewrite IH by tauto. reflexivity.
Qed.

Lemma mapSet_map_present (f : option string -> jsval) (k : option string) (v : jsval)
  (keys : list (option string)) :
  NoDup keys -> In k keys ->
  mapSet k v (map (fun k' => (k', f k')) keys)
  = map (fun k' => (k', if keyEqb k' k then v else f k')) keys.
Proof.
  induction keys as [|x keys IH]; simpl; intros D I; [contradiction|].
  inversion D as [|? ? Nx D']; subst.
  destruct (keyEqb_spec x k) as [->|Nk].
  - f_equal. apply map_ext_in. intros k' I'.
    destruct (keyEqb_spec k' k) as [->|]; [contradiction|reflexivity].
  - f_equal. apply IH; [exact D'|]. destruct I; [contradiction|assumption].
Qed.

(** *** Representatives *)

Lemma casesNamed_snoc (k : option string) (l : list jsval) (tc : jsval) :
  casesNamed k (l ++ [tc])
  = (casesNamed k l ++ if keyEqb (caseName tc) k then [tc] else [])%list.
Proof. unfold casesNamed. rewrite filter_app. reflexivity. Qed.

Lemma casesNamed_nil (k : option string) (l : list jsval) :
  ~ In k (map caseName l) -> casesNamed k l = [].
Proof.
  unfold casesNamed. induction l as [|c l IH]; simpl; intros N; [reflexivity|].
  destruct (keyEqb_spec (caseName c) k); [tauto|]. apply IH. tauto.
Qed.

Lemma casesNamed_nonempty (k : option string) (l : list jsval) :
  In k (map caseName l) -> casesNamed k l <> [].
Proof.
  unfold casesNamed. induction l as [|c l IH]; simpl; intros I; [contradiction|].
  destruct (keyEqb_spec (caseName c) k); [discriminate|].
  apply IH. destruct I; [contradiction|assumption].
Qed.

Lemma find_snoc {A : Type} (f : A -> bool) (l : list A) (x : A) :
  find f (l ++ [x])
  = match find f l with
    | Some y => Some y
    | None => if f x then Some x else None
    end.
Proof.
  induction l as [|y l IH]; simpl; [reflexivity|].
  destruct (f y); [reflexivity|exact IH].
Qed.

Lemma find_none_hd {A : Type} (f : A -> bool) (l : list A) (d : A) :
  l <> [] -> find f l = None -> f (hd d l) = false.
Proof.
  destruct l as [|y l]; [contradiction|]. simpl. intros _.
  destruct (f y); [discriminate|reflexivity].
Qed.

Lemma find_some_true {A : Type} (f : A -> bool) (l : list A) (x : A) :
  find f l = Some x -> f x = true.
Proof. intros H. apply find_some in H. tauto. Qed.

(** The representative of a name fails exactly when every case of that name
    fails. *)
Lemma representative_failing (l : list jsval) (k : option string) :
  In k (map caseName l) ->
  failing (representative l k)
  = match find (fun c => negb (failing c)) (casesNamed k l) with
    | Some _ => false
    | None => true
    end.
Proof.
  intros I. unfold representative.
  destruct (find _ (casesNamed k l)) as [c|] eqn:F.
  - apply find_some_true in F. destruct (failing c); [discriminate|reflexivity].
  - pose proof (find_none_hd _ JUndefined (casesNamed_nonempty k l I) F) as H.
    simpl in H. destruct (failing (hd JUndefined (casesNamed k l))); [reflexivity|discriminate].
Qed.

Lemma representative_snoc_other (l : list jsval) (tc : jsval) (k : option string) :
  k <> caseName tc -> representative (l ++ [tc]) k = representative l k.
Proof.
  intros N. unfold representative. rewrite casesNamed_snoc.
  destruct (keyEqb_spec (caseName tc) k); [congruence|]. rewrite app_nil_r. reflexivity.
Qed.

Lemma representative_snoc_new (l : list jsval) (tc : jsval) :
  ~ In (caseName tc) (map caseName l) ->
  representative (l ++ [tc]) (caseName tc) = tc.
Proof.
  intros N. unfold representative. rewrite casesNamed_snoc, keyEqb_refl.
  rewrite (casesNamed_nil _ l N). simpl. destruct (negb (failing tc)); reflexivity.
Qed.

Lemma representative_snoc_same (l : list jsval) (tc : jsval) :
  In (caseName tc) (map caseName l) ->
  representative (l ++ [tc]) (caseName tc)
  = if negb (failing tc) && failing (representative l (caseName tc))
    then tc else representative l (caseName tc).
Proof.
  intros I. rewrite (representative_failing l _ I).
  unfold representative. rewrite casesNamed_snoc, keyEqb_refl, find_snoc.
  pose proof (casesNamed_nonempty _ l I) as N.
  destruct (find _ (casesNamed (caseName tc) l)) as [c|].
  - rewrite andb_false_r. reflexivity.
  - rewrite andb_true_r. destruct (negb (failing tc)); [reflexivity|].
    destruct (casesNamed (caseName tc) l); [contradiction|reflexivity].
Qed.

(** *** The loop *)

Lemma attr_name_hasAttributes (tc : jsval) :
  hasAttributes tc = true -> attr "name" tc = Ok (caseName tc).
Proof. destruct tc as [| | | |[attrs|] fields]; try discriminate. reflexivity. Qed.

Lemma reconcileLoop_fold (l : list jsval) :
  Forall (fun tc => hasAttributes tc = true) l ->
  forall m, reconcileLoop l m = Ok (fold_left reconcileStep l m).
Proof.
  induction 1 as [|tc l Htc _ IH]; intros m; simpl; [reflexivity|].
  rewrite (attr_name_hasAttributes tc Htc). simpl. unfold reconcileStep at 2.
  destruct (mapGet (caseName tc) m) as [previous|]; [|apply IH].
  destruct (failing tc) eqn:F; unfold failing in F; rewrite F; simpl.
  - destruct (negb (truthy (testFailureOf previous))); apply IH.
  - destruct (failing previous) eqn:P; unfold failing in P; rewrite P; apply IH.
Qed.

Lemma reconciledMap_snoc (l : list jsval) (tc : jsval) :
  reconciledMap (l ++ [tc]) = reconcileStep (reconciledMap l) tc.
Proof.
  unfold reconciledMap, reconcileStep.
  rewrite map_app, firstOccurrences_app, mapGet_map. simpl map.
  simpl firstOccurrences. simpl filter.
  destruct (memKey (caseName tc) (map caseName l)) eqn:M.
  - assert (M' : memKey (caseName tc) (firstOccurrences (map caseName l)) = true).
    { apply memKey_In, firstOccurrences_In, memKey_In, M. }
    rewrite M'. simpl. rewrite app_nil_r.
    apply memKey_In in M.
    pose proof (representative_snoc_same l tc M) as R.
    destruct (negb (failing tc) && failing (representative l (caseName tc))).
    + rewrite mapSet_map_present;
        [|apply firstOccurrences_NoDup|apply firstOccurrences_In; exact M].
      apply map_ext. intros k. destruct (keyEqb_spec k (caseName tc)) as [->|N].
      * rewrite R. reflexivity.
      * rewrite (representative_snoc_other l tc N). reflexivity.
    + apply map_ext. intros k. destruct (keyEqb_spec k (caseName tc)) as [->|N].
      * rewrite R. reflexivity.
      * rewrite (representative_snoc_other l tc N). reflexivity.
  - assert (M' : memKey (caseName tc) (firstOccurrences (map caseName l)) = false).
    { apply memKey_false. rewrite firstOccurrences_In. apply memKey_false, M. }
    rewrite M'. simpl. apply memKey_false in M.
    rewrite mapSet_map_absent by (rewrite firstOccurrences_In; exact M).
    rewrite map_app. simpl. rewrite (representative_snoc_new l tc M). f_equal.
    apply map_ext_in. intros k I. apply -> firstOccurrences_In in I.
    rewrite representative_snoc_other; [reflexivity|]. intros ->. contradiction.
Qed.

Lemma fold_reconcileStep (l : list jsval) :
  fold_left reconcileStep l [] = reconciledMap l.
Proof.
  induction l as [|tc l IH] using rev_ind; [reflexivity|].
  rewrite fold_left_app, IH, reconciledMap_snoc. reflexivity.
Qed.

(** The reconciliation returns, in the order of first occurrence of the
    names, the representative of each name. *)
Lemma reconcile_closed_form (l : list jsval) :
  forallb hasAttributes l = true ->
  reconcile l = Ok (map (representative l) (firstOccurrences (map caseName l))).
Proof.
  intros H. rewrite forallb_forall, <- Forall_forall in H.
  unfold reconcile. rewrite (reconcileLoop_fold H), fold_reconcileStep.
  simpl. unfold reconciledMap. rewrite map_map. reflexivity.
Qed.

Lemma representative_named (l : list jsval) (k : option string) :
  In k (map caseName l) ->
  In (representative l k) l /\ caseName (representative l k) = k.
Proof.
  intros I. unfold representative.
  destruct (find _ (casesNamed k l)) as [c|] eqn:F.
  - apply find_some in F. destruct F as (F & _). unfold casesNamed in F.
    apply filter_In in F. destruct F as (F & E).
    destruct (keyEqb_spec (caseName c) k); [auto|discriminate].
  - pose proof (casesNamed_nonempty k l I) as N.
    destruct (casesNamed k l) as [|c g] eqn:G; [contradiction|]. simpl.
    assert (F' : In c (casesNamed k l)) by (rewrite G; left; reflexivity).
    unfold casesNamed in F'. apply filter_In in F'. destruct F' as (F' & E).
    destruct (keyEqb_spec (caseName c) k); [auto|discriminate].
Qed.

Lemma casesNamed_app (k : option string) (l1 l2 : list jsval) :
  casesNamed k (l1 ++ l2) = (casesNamed k l1 ++ casesNamed k l2)%list.
Proof. unfold casesNamed. apply filter_app. Qed.

Lemma casesNamed_none (k : option string) (l : list jsval) :
  Forall (fun c => caseName c <> k) l -> casesNamed k l = [].
Proof.
  intros H. apply casesNamed_nil. rewrite in_map_iff. intros (c & E & I).
  rewrite Forall_forall in H. exact (H c I E).
Qed.

Lemma representative_of_two (l pre mid post : list jsval) (a b : jsval) (k : option string) :
  l = (pre ++ a :: mid ++ b :: post)%list ->
  caseName a = k -> caseName b = k ->
  Forall (fun c => caseName c <> k) (pre ++ mid ++ post) ->
  representative l k = if failing a && negb (failing b) then b else a.
Proof.
  intros -> Ha Hb N. apply Forall_app in N. destruct N as (Npre & N).
  apply Forall_app in N. destruct N as (Nmid & Npost).
  unfold representative.
  assert (G : casesNamed k (pre ++ a :: mid ++ b :: post) = [a; b]).
  { rewrite casesNamed_app, (casesNamed_none Npre).
    change (a :: mid ++ b :: post)%list with ([a] ++ mid ++ [b] ++ post)%list.
    rewrite !casesNamed_app, (casesNamed_none Nmid), (casesNamed_none Npost).
    unfold casesNamed. simpl. rewrite Ha, Hb, keyEqb_refl. reflexivity. }
  rewrite G. simpl. destruct (failing a), (failing b); reflexivity.
Qed.

(** C3. With [checkRetries] the test cases of a suite are reduced to one per
    name, in the order in which the names first occur; the case kept for a
    name is the first one that does not fail, and the first one when all
    fail.  For two cases of one name: when the first fails and the second
    passes the second is kept, at the place of the first; when both fail or
    both pass the first is kept and the second is dropped. *)
Theorem reconcile_keeps_one_case_per_name (l : list jsval) :
  forallb hasAttributes l = true ->
  reconcile l = Ok (map (representative l) (firstOccurrences (map caseName l))) /\
  map caseName (map (representative l) (firstOccurrences (map caseName l)))
  = firstOccurrences (map caseName l) /\
  (forall pre a mid b post k,
     l = (pre ++ a :: mid ++ b :: post)%list ->
     caseName a = k -> caseName b = k ->
     Forall (fun c => caseName c <> k) (pre ++ mid ++ post) ->
     exists outPre outPost,
       reconcile l
       = Ok (outPre ++ (if failing a && negb (failing b) then b else a) :: outPost)%list /\
       map caseName outPre = firstOccurrences (map caseName pre) /\
       Forall (fun c => caseName c <> k) (outPre ++ outPost)).
Proof.
  intros H. pose proof (reconcile_closed_form l H) as R.
  assert (Names : forall keys,
             (forall k, In k keys -> In k (map caseName l)) ->
             map caseName (map (representative l) keys) = keys).
  { intros keys Hk. rewrite map_map. rewrite <- (map_id keys) at 2.
    apply map_ext_in. intros k I. apply representative_named, Hk, I. }
  split; [exact R|]. split.
  - apply Names. intros k I. apply firstOccurrences_In, I.
  - intros pre a mid b post k E Ha Hb N.
    pose proof (@representative_of_two l pre mid post a b k E Ha Hb N) as W.
    apply Forall_app in N. destruct N as (Npre & N).
    assert (Kpre : ~ In k (map caseName pre)).
    { rewrite in_map_iff. intros (c & Ec & Ic).
      rewrite Forall_forall in Npre. exact (Npre c Ic Ec). }
    assert (FO : firstOccurrences (map caseName l)
                 = (firstOccurrences (map caseName pre)
                    ++ k :: filter (fun k' => negb (memKey k' (map caseName pre)))
                              (filter (fun k' => negb (keyEqb k' k))
                                 (firstOccurrences (map caseName (mid ++ b :: post)))))%list).
    { rewrite E, map_app, firstOccurrences_app. simpl map. rewrite Ha.
      simpl firstOccurrences. simpl filter.
      apply memKey_false in Kpre. rewrite Kpre. reflexivity. }
    exists (map (representative l) (firstOccurrences (map caseName pre))).
    eexists. split; [|split].
    + rewrite R, FO, map_app. simpl map. rewrite W. reflexivity.
    + apply Names. intros k' I. apply -> firstOccurrences_In in I.
      rewrite E, map_app. apply in_or_app. left. exact I.
    + apply Forall_app. split; apply Forall_forall; intros c Ic;
        apply in_map_iff in Ic; destruct Ic as (k' & <- & Ik').
      * apply -> firstOccurrences_In in Ik'.
        assert (Il : In k' (map caseName l)).
        { rewrite E, map_app. apply in_or_app. left. exact Ik'. }
        destruct (representative_named l k' Il) as (_ & ->).
        intros ->. contradiction.
      * apply filter_In in Ik'. destruct Ik' as (Ik' & _).
        apply filter_In in Ik'. destruct Ik' as (Ik' & Nk).
        apply -> firstOccurrences_In in Ik'.
        assert (Il : In k' (map caseName l)).
        { rewrite E, map_app. apply in_or_app. right. simpl. right. exact Ik'. }
        destruct (representative_named l k' Il) as (_ & ->).
        intros ->. rewrite keyEqb_refl in Nk. discriminate.
Qed.

Lemma reconcile_keeps_one_case_per_name_witness :
  reconcile flakySuite = Ok [passingCase "T"; passingCase "U"] /\
  reconcile flakySuite
  = Ok (map (representative flakySuite) (firstOccurrences (map caseName flakySuite))) /\
  map caseName
    (map (representative flakySuite) (firstOccurrences (map caseName flakySuite)))
  = firstOccurrences (map caseName flakySuite) /\
  (forall pre a mid b post k,
     flakySuite = (pre ++ a :: mid ++ b :: post)%list ->
     caseName a = k -> caseName b = k ->
     Forall (fun c => caseName c <> k) (pre ++ mid ++ post) ->
     exists outPre outPost,
       reconcile flakySuite
       = Ok (outPre ++ (if failing a && negb (failing b) then b else a) :: outPost)%list /\
       map caseName outPre = firstOccurrences (map caseName pre) /\
       Forall (fun c => caseName c <> k) (outPre ++ outPost)).
Proof.
  split; [reflexivity|].
  apply (@reconcile_keeps_one_case_per_name flakySuite). reflexivity.
Defined.

Example reconcile_both_failing :
  reconcile [failingCase "T" "first" "at 1"; failingCase "T" "second" "at 2"]
  = Ok [failingCase "T" "first" "at 1"].
Proof. reflexivity. Qed.

Example reconcile_pass_then_fail :
  reconcile [passingCase "T"; failingCase "T" "boom" "at T"] = Ok [passingCase "T"].
Proof. reflexivity. Qed.

Example reconcile_without_attributes :
  reconcile [passingCase "T"; JObject None []] = Throw TypeError.
Proof. reflexivity. Qed.

(** * Further properties of the parser *)

(** ** [resolvePath] *)

Lemma includes_empty (r : string) : JsString.includes EmptyString r = true.
Proof. destruct r; reflexivity. Qed.

Lemma sliceFrom_append (p s : string) :
  JsString.sliceFrom (String.length p) (p ++ s) = s.
Proof. induction p as [|c p IH]; simpl; [destruct s; reflexivity|exact IH]. Qed.

Lemma sliceFrom_root (root rel : string) :
  JsString.sliceFrom (String.length root + 1) (root ++ String "/" rel) = rel.
Proof.
  replace (String.length root + 1)%nat with (String.length (root ++ "/"))
    by (rewrite length_append; reflexivity).
  replace (root ++ String "/" rel) with ((root ++ "/") ++ rel).
  - apply sliceFrom_append.
  - induction root as [|c root IH]; simpl; [reflexivity|]. rewrite IH. reflexivity.
Qed.

Lemma firstUnexcluded_all_excluded (ex results : list string) :
  forallb (excluded ex) results = true -> firstUnexcluded ex results = None.
Proof.
  induction results as [|r rest IH]; simpl; [reflexivity|].
  intros H. apply andb_prop in H. destruct H as (E & H).
  unfold excluded in E. rewrite E. apply IH, H.
Qed.

Lemma firstUnexcluded_found (ex pre post : list string) (r : string) :
  forallb (excluded ex) pre = true -> excluded ex r = false ->
  firstUnexcluded ex (pre ++ r :: post) = Some r.
Proof.
  induction pre as [|x pre IH]; simpl; intros H N.
  - unfold excluded in N. rewrite N. reflexivity.
  - apply andb_prop in H. destruct H as (E & H).
    unfold excluded in E. rewrite E. apply IH; assumption.
Qed.

(** X1. When the walk yields no candidate, or only candidates that contain
    an excluded substring, [resolvePath] returns the file name it was given,
    without a leading [./], and does not throw. *)
Theorem resolvePath_falls_back_to_the_name (env : Collaborators) (fileName : string)
  (excludeSources : list string) (followSymlink : bool) :
  forallb (excluded excludeSources)
    (globGenerator env ("**/" ++ stripDotSlash fileName ++ ".*") followSymlink) = true ->
  resolvePath env fileName excludeSources followSymlink = Ok (stripDotSlash fileName).
Proof.
  intros H. unfold resolvePath. rewrite (firstUnexcluded_all_excluded _ _ H). reflexivity.
Qed.

Lemma resolvePath_falls_back_to_the_name_witness :
  forallb (excluded ["/build/"; "/src/"])
    (globGenerator (sourceWorld javaSources [])
       ("**/" ++ stripDotSlash "./FooTest" ++ ".*") false) = true /\
  resolvePath (sourceWorld javaSources []) "./FooTest" ["/build/"; "/src/"] false
  = Ok "FooTest".
Proof.
  split; [reflexivity|].
  apply (@resolvePath_falls_back_to_the_name (sourceWorld javaSources []) "./FooTest"
           ["/build/"; "/src/"] false).
  reflexivity.
Defined.

(** X2. [resolvePath] returns the first candidate of the walk that contains
    no excluded substring, as a path relative to the search root: the
    candidates before it are passed over, the ones after it are not looked
    at. *)
Theorem resolvePath_first_unexcluded_relative (env : Collaborators) (fileName : string)
  (excludeSources : list string) (followSymlink : bool)
  (pre post others : list string) (root rel : string) :
  globGenerator env ("**/" ++ stripDotSlash fileName ++ ".*") followSymlink
  = (pre ++ (root ++ String "/" rel)%string :: post)%list ->
  getSearchPaths env ("**/" ++ stripDotSlash fileName ++ ".*") followSymlink
  = root :: others ->
  forallb (excluded excludeSources) pre = true ->
  excluded excludeSources (root ++ String "/" rel) = false ->
  resolvePath env fileName excludeSources followSymlink = Ok rel.
Proof.
  intros G S P N. unfold resolvePath.
  rewrite G, (firstUnexcluded_found _ _ _ _ P N), S, sliceFrom_root. reflexivity.
Qed.

Lemma resolvePath_first_unexcluded_relative_witness :
  resolvePath (sourceWorld javaSources []) "FooTest" ["/build/"; "/__pycache__/"] false
  = Ok "src/test/java/FooTest.java".
Proof.
  apply (@resolvePath_first_unexcluded_relative (sourceWorld javaSources []) "FooTest"
           ["/build/"; "/__pycache__/"] false
           ["/work/build/classes/FooTest.class"] [] [] "/work"
           "src/test/java/FooTest.java"); reflexivity.
Defined.

(** X3. An empty string at the head of [excludeSources] switches every
    exclusion off: [find] returns it for each candidate and it is falsy, so
    the result is the one for an empty exclusion list. *)
Theorem resolvePath_empty_exclusion_disables_all (env : Collaborators) (fileName : string)
  (excludeSources : list string) (followSymlink : bool) :
  resolvePath env fileName (EmptyString :: excludeSources) followSymlink
  = resolvePath env fileName [] followSymlink.
Proof.
  unfold resolvePath.
  destruct (globGenerator env _ followSymlink) as [|r rest]; [reflexivity|].
  simpl. rewrite includes_empty. reflexivity.
Qed.

(** ** [escapeEmoji] *)

Lemma escapeEmoji_clean (s : string) : hasEmojiUnit (escapeEmoji s) = false.
Proof.
  induction s as [|c s IH]; simpl; [reflexivity|].
  destruct ((JsString.code c =? 169) || (JsString.code c =? 174)) eqn:E; [exact IH|].
  simpl. unfold isEmojiUnit. rewrite E. exact IH.
Qed.

Lemma escapeEmoji_fixes_clean (s : string) :
  hasEmojiUnit s = false -> escapeEmoji s = s.
Proof.
  induction s as [|c s IH]; simpl; [reflexivity|].
  unfold isEmojiUnit. intros H. apply orb_false_elim in H. destruct H as (E & H).
  rewrite E, (IH H). reflexivity.
Qed.

(** X4. [escapeEmoji] removes every copyright and registered sign (the
    emoji code units below 256), keeps all other characters in order, so it
    leaves a string without them unchanged, is idempotent, and distributes
    over concatenation. *)
Theorem escapeEmoji_strips_and_preserves (s t : string) :
  hasEmojiUnit (escapeEmoji s) = false /\
  (hasEmojiUnit s = false -> escapeEmoji s = s) /\
  escapeEmoji (escapeEmoji s) = escapeEmoji s /\
  escapeEmoji (s ++ t) = escapeEmoji s ++ escapeEmoji t /\
  list_ascii_of_string (escapeEmoji s)
  = filter (fun c => negb (isEmojiUnit c)) (list_ascii_of_string s).
Proof.
  split; [apply escapeEmoji_clean|]. split; [apply escapeEmoji_fixes_clean|].
  split; [apply escapeEmoji_fixes_clean, escapeEmoji_clean|]. split.
  - induction s as [|c s IH]; simpl; [reflexivity|].
    destruct ((JsString.code c =? 169) || (JsString.code c =? 174)); simpl;
      rewrite IH; reflexivity.
  - induction s as [|c s IH]; simpl; [reflexivity|]. unfold isEmojiUnit.
    destruct ((JsString.code c =? 169) || (JsString.code c =? 174)); simpl;
      rewrite IH; reflexivity.
Qed.

Example escapeEmoji_copyright :
  escapeEmoji (String "169" "2020 ScaCap") = "2020 ScaCap".
Proof. reflexivity. Qed.

(** ** The shape of the annotations *)

Lemma runSearch_line_nonzero (engine : string -> string -> matchAnswer)
  (file lineText : option string) (className output : string) :
  line (runSearch engine (resolveFileAndLine file lineText className output)) <> 0.
Proof.
  destruct (resolveFileAndLine_cases file lineText className output)
    as [(n & P & Hn & Hf & R)|(C & R)]; rewrite R; simpl runSearch; [exact Hn|].
  destruct (engine _ output) as [| |ms]; simpl;
    try (apply orElse_nonzero; discriminate).
  destruct (fromMatches (resolvedFileName file className) ms) as [p|e] eqn:M.
  - eapply fromMatches_nonzero; exact M.
  - apply orElse_nonzero. discriminate.
Qed.

Lemma positionOf_line_nonzero (env : Collaborators) (testsuite testcase : jsval)
  (stackTrace : string) (pos : Position) :
  positionOf env testsuite testcase stackTrace = Ok pos -> line pos <> 0.
Proof.
  unfold positionOf. intros H.
  bind_inv H. bind_inv H. bind_inv H. bind_inv H.
  destruct (if truthyStr v1 then v1 else v2) as [className|].
  - injection H as <-. apply runSearch_line_nonzero.
  - destruct (truthyStr _); [|discriminate].
    injection H as <-. apply runSearch_line_nonzero.
Qed.

Lemma evalTestcase_wellShaped (env : Collaborators) (opts : Options)
  (testsuite suiteName testcase : jsval) (o : CaseOutcome) :
  evalTestcase env opts testsuite suiteName testcase = Ok o -> wellShaped (annotation o).
Proof.
  unfold evalTestcase. intros H.
  bind_inv H. bind_inv H. bind_inv H. bind_inv H. bind_inv H. bind_inv H.
  injection H as <-. apply positionOf_line_nonzero in E2.
  unfold wellShaped. simpl. repeat split; try assumption.
  destruct v0, (truthy (testFailureOf testcase)); reflexivity.
Qed.

Section AnnotationInvariant.

Variable env : Collaborators.
Variable opts : Options.
Variable P : Annotation -> Prop.

Hypothesis evalTestcase_P :
  forall testsuite suiteName testcase o,
    evalTestcase env opts testsuite suiteName testcase = Ok o -> P (annotation o).

Lemma casesLoop_Forall (testsuite suiteName : jsval) (testcases : list jsval) :
  forall acc f,
    Forall P (annotations acc) ->
    casesLoop env opts testsuite suiteName testcases acc = Ok f ->
    Forall P (annotations (match f with Next a => a | Return a => a end)).
Proof.
  induction testcases as [|tc rest IH]; simpl; intros acc f A H.
  - injection H as <-. exact A.
  - bind_inv H.
    assert (A' : Forall P (annotations (addCase acc v))).
    { simpl. apply Forall_app. split; [exact A|].
      constructor; [eapply evalTestcase_P; exact E|constructor]. }
    destruct (limitReached opts _).
    + injection H as <-. exact A'.
    + eapply IH; eassumption.
Qed.

Lemma suitesLoop_Forall (rec : jsval -> jsval -> result InternalTestResult)
  (parentName : jsval) (testsuites : list jsval) :
  (forall t p r, rec t p = Ok r -> Forall P (annotations r)) ->
  forall acc r,
    Forall P (annotations acc) ->
    suitesLoop env opts rec parentName testsuites acc = Ok r ->
    Forall P (annotations r).
Proof.
  intros Hrec. induction testsuites as [|t rest IH]; simpl; intros acc r A H.
  - injection H as <-. exact A.
  - destruct (truthy t); simpl in H; [|injection H as <-; exact A].
    bind_inv H. bind_inv H.
    assert (A1 : Forall P (annotations (addResult acc v0))).
    { simpl. apply Forall_app. split; [exact A|]. eapply Hrec; exact E0. }
    destruct (truthy (prop "testcase" t)); simpl in H; [|eapply IH; eassumption].
    destruct (limitReached opts _); [injection H as <-; exact A1|].
    bind_inv H. bind_inv H.
    pose proof (@casesLoop_Forall t v v1 (addResult acc v0) v2 A1 E2) as A2.
    destruct v2 as [acc2|acc2].
    + eapply IH; eassumption.
    + injection H as <-. exact A2.
Qed.

Lemma parseSuiteN_Forall (n : nat) :
  forall suite parentName r,
    parseSuiteN env n opts suite parentName = Ok r -> Forall P (annotations r).
Proof.
  induction n as [|n IH]; simpl; intros suite parentName r H; [discriminate|].
  unfold suiteBody in H. bind_inv H.
  destruct (negb _ && negb _).
  - injection H as <-. constructor.
  - eapply suitesLoop_Forall; [| |exact H]; [|constructor].
    intros t p r'. apply IH.
Qed.

Lemma parseFile_Forall (file : string) (r : InternalTestResult) :
  parseFile env opts file = Ok r -> Forall P (annotations r).
Proof.
  unfold parseFile. intros H. bind_inv H.
  destruct (xml2json env v).
  - eapply parseSuiteN_Forall; exact H.
  - injection H as <-. constructor.
Qed.

Lemma filesLoop_Forall (files : list string) :
  forall t t',
    Forall P (t_annotations t) ->
    filesLoop env opts files t = Ok t' ->
    Forall P (t_annotations t').
Proof.
  induction files as [|file rest IH]; simpl; intros t t' A H.
  - injection H as <-. exact A.
  - bind_inv H. apply parseFile_Forall in E.
    destruct (totalCount v =? 0).
    + eapply IH; [|exact H]. exact A.
    + assert (A' : Forall P (t_annotations t ++ annotations v))
        by (apply Forall_app; split; assumption).
      destruct (limitReached opts _).
      * injection H as <-. exact A'.
      * eapply IH; [|exact H]. exact A'.
Qed.

Lemma parseTestReports_Forall (checkName summary reportPaths : string)
  (r : Report.TestResult) :
  parseTestReports env checkName summary reportPaths opts = Ok r ->
  Forall P (Report.annotations r).
Proof.
  unfold parseTestReports. intros H. bind_inv H. injection H as <-. simpl.
  eapply filesLoop_Forall; [|exact E]. constructor.
Qed.

End AnnotationInvariant.

(** X5. Every annotation of a result of [parseTestReports] spans one line
    ([start_line = end_line]) that is never zero, has both columns zero, and
    its level is ['failure'] exactly when its status is ['failure'] and
    ['notice'] otherwise, never ['warning']. *)
Theorem parseTestReports_annotations_wellShaped (env : Collaborators)
  (checkName summary reportPaths : string) (opts : Options) (r : Report.TestResult) :
  parseTestReports env checkName summary reportPaths opts = Ok r ->
  Forall wellShaped (Report.annotations r).
Proof.
  apply parseTestReports_Forall. intros testsuite suiteName testcase o.
  apply evalTestcase_wellShaped.
Qed.

Lemma parseTestReports_annotations_wellShaped_witness :
  exists r,
    parseTestReports (sampleWorld threeFiles) "check" "summary" "reports/*.xml"
      defaultOptions = Ok r /\
    map start_line (Report.annotations r) = [1; 10; 1; 1; 1] /\
    Forall wellShaped (Report.annotations r).
Proof.
  eexists. split; [vm_compute; reflexivity|]. split; [reflexivity|].
  apply (@parseTestReports_annotations_wellShaped (sampleWorld threeFiles)
           "check" "summary" "reports/*.xml" defaultOptions).
  vm_compute. reflexivity.
Defined.

(** ** The loop over the test cases of a suite *)

Lemma fold_addCase_annotations (os : list CaseOutcome) :
  forall acc,
    annotations (fold_left addCase os acc)
    = (annotations acc ++ map annotation os)%list /\
    totalCount (fold_left addCase os acc) = totalCount acc + Z.of_nat (List.length os) /\
    skipped (fold_left addCase os acc)
    = skipped acc + Z.of_nat (List.length (filter skip os)).
Proof.
  induction os as [|o os IH]; intros acc; simpl fold_left.
  - simpl. rewrite app_nil_r. repeat split; lia.
  - destruct (IH (addCase acc o)) as (A & T & S). rewrite A, T, S.
    unfold addCase; simpl. rewrite <- app_assoc. simpl.
    repeat split; [lia|]. destruct (skip o); simpl; lia.
Qed.

(** X6. With a limit that is not positive the loop over the test cases never
    returns early: every test case is evaluated, in document order, each
    adds one to [totalCount] and one annotation after those already there,
    and the skipped ones add to [skipped]. *)
Theorem casesLoop_without_limit_takes_every_case (env : Collaborators) (opts : Options)
  (testsuite suiteName : jsval) (testcases : list jsval)
  (acc : InternalTestResult) (f : flow InternalTestResult) :
  annotationsLimit opts <= 0 ->
  casesLoop env opts testsuite suiteName testcases acc = Ok f ->
  exists os,
    Forall2 (fun tc o => evalTestcase env opts testsuite suiteName tc = Ok o) testcases os /\
    f = Next (fold_left addCase os acc) /\
    annotations (fold_left addCase os acc) = (annotations acc ++ map annotation os)%list /\
    totalCount (fold_left addCase os acc)
    = totalCount acc + Z.of_nat (List.length testcases) /\
    skipped (fold_left addCase os acc)
    = skipped acc + Z.of_nat (List.length (filter skip os)).
Proof.
  intros L. revert acc f.
  assert (G : forall acc f,
             casesLoop env opts testsuite suiteName testcases acc = Ok f ->
             exists os,
               Forall2 (fun tc o => evalTestcase env opts testsuite suiteName tc = Ok o)
                 testcases os /\
               f = Next (fold_left addCase os acc)).
  { induction testcases as [|tc rest IH]; simpl; intros acc f H.
    - injection H as <-. exists []. split; [constructor|reflexivity].
    - bind_inv H. rewrite limitReached_unlimited in H by exact L.
      destruct (IH _ _ H) as (os & F & ->).
      exists (v :: os). split; [constructor; assumption|reflexivity]. }
  intros acc f H. destruct (G acc f H) as (os & F & ->).
  exists os. destruct (fold_addCase_annotations os acc) as (A & T & S).
  rewrite (Forall2_length F). auto.
Qed.

Lemma casesLoop_without_limit_takes_every_case_witness :
  exists f,
    casesLoop (sampleWorld []) defaultOptions suiteA (JString "") flakySuite emptyResult
    = Ok f /\
    exists os,
      Forall2 (fun tc o => evalTestcase (sampleWorld []) defaultOptions suiteA (JString "") tc
                           = Ok o) flakySuite os /\
      f = Next (fold_left addCase os emptyResult) /\
      annotations (fold_left addCase os emptyResult)
      = (annotations emptyResult ++ map annotation os)%list /\
      totalCount (fold_left addCase os emptyResult)
      = totalCount emptyResult + Z.of_nat (List.length flakySuite) /\
      skipped (fold_left addCase os emptyResult)
      = skipped emptyResult + Z.of_nat (List.length (filter skip os)).
Proof.
  eexists. split; [vm_compute; reflexivity|].
  apply (@casesLoop_without_limit_takes_every_case (sampleWorld []) defaultOptions
           suiteA (JString "") flakySuite emptyResult); [simpl; lia|vm_compute; reflexivity].
Defined.

(** X7. With a positive limit, the loop over the test cases that starts
    below the limit never goes beyond it: it returns out of [parseSuite] as
    soon as the count of the annotations that matter reaches the limit, and
    otherwise ends below it; what it had accumulated stays in front, and
    each case it evaluated counts once. *)
Theorem casesLoop_stops_at_the_limit (env : Collaborators) (opts : Options)
  (testsuite suiteName : jsval) (testcases : list jsval)
  (acc : InternalTestResult) (f : flow InternalTestResult) :
  0 < annotationsLimit opts ->
  limitCount opts (annotations acc) < annotationsLimit opts ->
  casesLoop env opts testsuite suiteName testcases acc = Ok f ->
  match f with
  | Return a => limitCount opts (annotations a) = annotationsLimit opts
  | Next a => limitCount opts (annotations a) < annotationsLimit opts
  end /\
  exists os,
    (List.length os <= List.length testcases)%nat /\
    Forall2 (fun tc o => evalTestcase env opts testsuite suiteName tc = Ok o)
      (firstn (List.length os) testcases) os /\
    match f with Return a | Next a => a end = fold_left addCase os acc.
Proof.
  intros L B H. split; [eapply casesLoop_keeps_limit; eassumption|].
  clear B. revert acc f H.
  induction testcases as [|tc rest IH]; simpl; intros acc f H.
  - injection H as <-. exists []. simpl. split; [lia|]. split; [constructor|reflexivity].
  - bind_inv H. destruct (limitReached opts _).
    + injection H as <-. exists [v]. simpl. split; [lia|].
      split; [constructor; [exact E|constructor]|reflexivity].
    + destruct (IH _ _ H) as (os & Len & F & R).
      exists (v :: os). simpl. split; [lia|]. split; [constructor; assumption|exact R].
Qed.

Lemma casesLoop_stops_at_the_limit_witness :
  casesLoop (sampleWorld []) (withLimit 1 defaultOptions) suiteA (JString "")
    passThenTwoFailures emptyResult = Ok stoppedFlow /\
  (exists a, stoppedFlow = Return a /\ map title (annotations a) = ["ok"; "a"]) /\
  match stoppedFlow with
  | Return a =>
      limitCount (withLimit 1 defaultOptions) (annotations a)
      = annotationsLimit (withLimit 1 defaultOptions)
  | Next a =>
      limitCount (withLimit 1 defaultOptions) (annotations a)
      < annotationsLimit (withLimit 1 defaultOptions)
  end /\
  exists os,
    (List.length os <= List.length passThenTwoFailures)%nat /\
    Forall2 (fun tc o => evalTestcase (sampleWorld []) (withLimit 1 defaultOptions)
                           suiteA (JString "") tc = Ok o)
      (firstn (List.length os) passThenTwoFailures) os /\
    match stoppedFlow with Return a | Next a => a end = fold_left addCase os emptyResult.
Proof.
  split; [vm_compute; reflexivity|].
  split; [eexists; split; vm_compute; reflexivity|].
  apply (@casesLoop_stops_at_the_limit (sampleWorld []) (withLimit 1 defaultOptions)
           suiteA (JString "") passThenTwoFailures emptyResult stoppedFlow);
    [reflexivity|reflexivity|vm_compute; reflexivity].
Defined.

(** ** The loop over the report files *)

Section FilesLoop.

Variable env : Collaborators.
Variable opts : Options.

(** The loop stops before the end of the list only at the limit. *)
Lemma filesLoop_found (files : list string) :
  forall t t',
    filesLoop env opts files t = Ok t' ->
    t_foundFiles t <= t_foundFiles t' <= t_foundFiles t + Z.of_nat (List.length files) /\
    (t_foundFiles t' = t_foundFiles t + Z.of_nat (List.length files) \/
     limitReached opts (t_annotations t') = true) /\
    (t_totalCount t < t_totalCount t' -> t_foundFiles t < t_foundFiles t') /\
    (files = [] -> t' = t).
Proof.
  induction files as [|file rest IH]; intros t t' H.
  - simpl in H. injection H as <-. simpl. repeat split; try lia; auto.
  - simpl in H. bind_inv H.
    change (List.length (file :: rest)) with (S (List.length rest)).
    destruct (totalCount v =? 0).
    + destruct (IH _ _ H) as (B & S & T & _). simpl in B, S, T.
      repeat split; try lia; [|discriminate].
      destruct S as [S|S]; [left; lia|right; exact S].
    + destruct (limitReached opts _) eqn:LR.
      * injection H as <-. simpl. repeat split; try lia; [|discriminate].
        right. exact LR.
      * destruct (IH _ _ H) as (B & S & T & _). simpl in B, S, T.
        repeat split; try lia; [|discriminate].
        destruct S as [S|S]; [left; lia|right; exact S].
Qed.

(** Without a limit, the loop over a list of files is the loop over a first
    part followed by the loop over the rest. *)
Lemma filesLoop_app (pre post : list string) :
  annotationsLimit opts <= 0 ->
  forall t,
    filesLoop env opts (pre ++ post) t
    = bind (filesLoop env opts pre t) (filesLoop env opts post).
Proof.
  intros L. induction pre as [|f pre IH]; intros t; [reflexivity|].
  simpl. destruct (parseFile env opts f) as [r|e]; simpl; [|reflexivity].
  destruct (totalCount r =? 0); [apply IH|].
  rewrite limitReached_unlimited by exact L. apply IH.
Qed.

End FilesLoop.

(** X8. In a result of [parseTestReports], [foundFiles] is the number of
    report files the loop visited: at most the number of files the pattern
    matched, exactly that number unless the loop stopped at the annotation
    limit, and at least one when a test was counted.  When no file matches,
    every count is zero and there is no annotation. *)
Theorem parseTestReports_foundFiles (env : Collaborators)
  (checkName summary reportPaths : string) (opts : Options) (r : Report.TestResult) :
  parseTestReports env checkName summary reportPaths opts = Ok r ->
  0 <= Report.foundFiles r
  <= Z.of_nat (List.length (globGenerator env reportPaths (followSymlink opts))) /\
  (Report.foundFiles r
   = Z.of_nat (List.length (globGenerator env reportPaths (followSymlink opts))) \/
   limitReached opts (Report.annotations r) = true) /\
  (0 < Report.totalCount r -> 1 <= Report.foundFiles r) /\
  (globGenerator env reportPaths (followSymlink opts) = [] ->
   Report.totalCount r = 0 /\ Report.skipped r = 0 /\ Report.failed r = 0 /\
   Report.passed r = 0 /\ Report.foundFiles r = 0 /\ Report.annotations r = []).
Proof.
  unfold parseTestReports. intros H. bind_inv H. injection H as <-. simpl.
  destruct (filesLoop_found env opts _ _ E) as (B & S & T & N). simpl in B, S, T.
  split; [lia|]. split; [exact S|]. split; [lia|].
  intros G. rewrite (N G). repeat split.
Qed.

Lemma parseTestReports_foundFiles_witness :
  exists r,
    parseTestReports (sampleWorld threeFiles) "check" "summary" "reports/*.xml"
      (withLimit 1 defaultOptions) = Ok r /\
    (Report.foundFiles r, Report.totalCount r) = (1, 2) /\
    0 <= Report.foundFiles r
    <= Z.of_nat (List.length (globGenerator (sampleWorld threeFiles) "reports/*.xml"
                                (followSymlink (withLimit 1 defaultOptions)))) /\
    (Report.foundFiles r
     = Z.of_nat (List.length (globGenerator (sampleWorld threeFiles) "reports/*.xml"
                                (followSymlink (withLimit 1 defaultOptions)))) \/
     limitReached (withLimit 1 defaultOptions) (Report.annotations r) = true) /\
    (0 < Report.totalCount r -> 1 <= Report.foundFiles r) /\
    (globGenerator (sampleWorld threeFiles) "reports/*.xml"
       (followSymlink (withLimit 1 defaultOptions)) = [] ->
     Report.totalCount r = 0 /\ Report.skipped r = 0 /\ Report.failed r = 0 /\
     Report.passed r = 0 /\ Report.foundFiles r = 0 /\ Report.annotations r = []).
Proof.
  eexists. split; [vm_compute; reflexivity|]. split; [reflexivity|].
  apply (@parseTestReports_foundFiles (sampleWorld threeFiles) "check" "summary"
           "reports/*.xml" (withLimit 1 defaultOptions)).
  vm_compute. reflexivity.
Defined.

(** X9. A report file that cannot be read is fatal, unlike one that cannot
    be parsed: [parseFile] throws the error of the read, and without a limit
    the loop over the files throws it as soon as the files before it are
    done, whatever follows; so does [parseTestReports]. *)
Theorem unreadable_report_aborts_the_run (env : Collaborators) (opts : Options)
  (file : string) (e : exn) :
  readFileSync env file = Throw e ->
  parseFile env opts file = Throw e /\
  (forall rest t, filesLoop env opts (file :: rest) t = Throw e) /\
  (annotationsLimit opts <= 0 ->
   forall pre post t t',
     filesLoop env opts pre t = Ok t' ->
     filesLoop env opts (pre ++ file :: post) t = Throw e) /\
  (forall checkName summary reportPaths rest,
     globGenerator env reportPaths (followSymlink opts) = file :: rest ->
     parseTestReports env checkName summary reportPaths opts = Throw e).
Proof.
  intros R.
  assert (P : parseFile env opts file = Throw e) by (unfold parseFile; rewrite R; reflexivity).
  assert (F : forall rest t, filesLoop env opts (file :: rest) t = Throw e)
    by (intros rest t; simpl; rewrite P; reflexivity).
  split; [exact P|]. split; [exact F|]. split.
  - intros L pre post t t' H. rewrite filesLoop_app by exact L. rewrite H. apply F.
  - intros checkName summary reportPaths rest G. unfold parseTestReports.
    rewrite G, F. reflexivity.
Qed.

Lemma unreadable_report_aborts_the_run_witness :
  parseFile (sampleWorld threeFiles) defaultOptions "reports/missing.xml" = Throw IoError /\
  (forall rest t,
     filesLoop (sampleWorld threeFiles) defaultOptions ("reports/missing.xml" :: rest) t
     = Throw IoError) /\
  (annotationsLimit defaultOptions <= 0 ->
   forall pre post t t',
     filesLoop (sampleWorld threeFiles) defaultOptions pre t = Ok t' ->
     filesLoop (sampleWorld threeFiles) defaultOptions
       (pre ++ "reports/missing.xml" :: post) t = Throw IoError) /\
  (forall checkName summary reportPaths rest,
     globGenerator (sampleWorld threeFiles) reportPaths (followSymlink defaultOptions)
     = "reports/missing.xml" :: rest ->
     parseTestReports (sampleWorld threeFiles) checkName summary reportPaths defaultOptions
     = Throw IoError).
Proof.
  apply (@unreadable_report_aborts_the_run (sampleWorld threeFiles) defaultOptions
           "reports/missing.xml" IoError).
  reflexivity.
Defined.

(** ** A suite without nested suites *)

Lemma limitReached_nil (opts : Options) : limitReached opts [] = false.
Proof.
  unfold limitReached, limitCount. simpl.
  destruct (Z.ltb_spec 0 (annotationsLimit opts)); [|reflexivity].
  destruct (Z.leb_spec (annotationsLimit opts) 0); [lia|reflexivity].
Qed.

(** [parseSuite] on a report whose root suite has only test cases. *)
Lemma parseSuite_flatSuite (env : Collaborators) (opts : Options)
  (attrs : option (list (string * string))) (testcase : jsval) :
  suiteRegex opts = EmptyString ->
  truthy testcase = true ->
  parseSuite env opts (reportOf (flatSuite attrs testcase)) (JString EmptyString)
  = (testcases <- (if checkRetries opts then reconcile (asArray testcase)
                   else Ok (asArray testcase)) ;;
     f <- casesLoop env opts (flatSuite attrs testcase) (JString EmptyString)
            testcases emptyResult ;;
     Ok (flowResult f)).
Proof.
  intros R T. rewrite parseSuite_unfold. unfold suiteBody, reportOf.
  change (get "testsuite" (JObject None [("testsuite", flatSuite attrs testcase)]))
    with (Ok (flatSuite attrs testcase)).
  change (testsuitesOf (JObject None [("testsuite", flatSuite attrs testcase)]))
    with [flatSuite attrs testcase].
  change (truthy (prop "testsuite" (JObject None [("testsuite", flatSuite attrs testcase)])))
    with true.
  simpl bind. simpl negb. simpl andb. cbv iota.
  unfold suitesLoop. change (truthy (flatSuite attrs testcase)) with true.
  simpl negb. cbv iota. unfold suiteNameOf at 1. rewrite R. simpl bind.
  rewrite T. simpl negb. cbv iota.
  rewrite limitReached_nil.
  change (addResult emptyResult emptyResult) with emptyResult.
  destruct (if checkRetries opts then reconcile (asArray testcase)
            else Ok (asArray testcase)) as [tcs|e]; simpl; [|reflexivity].
  destruct (casesLoop env opts (flatSuite attrs testcase) (JString "") tcs emptyResult)
    as [[a|a]|e]; reflexivity.
Qed.

Lemma evalTestcase_without_attributes (env : Collaborators) (opts : Options)
  (testsuite suiteName : jsval) (fields : list (string * jsval)) :
  evalTestcase env opts testsuite suiteName (JObject None fields) = Throw TypeError.
Proof.
  unfold evalTestcase. simpl get. simpl bind. unfold skipOf.
  destruct (truthy (prop "skipped" (JObject None fields))); [|reflexivity].
  simpl bind. unfold messageOf.
  destruct (truthyStr _); [|reflexivity]. reflexivity.
Qed.

(** X10. A test case element without any attribute cannot be evaluated:
    the loop over the test cases throws a TypeError when it comes to it, and
    a report whose suite holds such a test case makes [parseSuite], and
    with it [parseTestReports], throw instead of returning a result, with
    and without [checkRetries]. *)
Theorem case_without_attributes_aborts_the_run (env : Collaborators) (opts : Options)
  (attrs : option (list (string * string))) (fields : list (string * jsval)) :
  (forall testsuite suiteName rest acc,
     casesLoop env opts testsuite suiteName (JObject None fields :: rest) acc
     = Throw TypeError) /\
  (suiteRegex opts = EmptyString ->
   parseSuite env opts (reportOf (flatSuite attrs (JObject None fields)))
     (JString EmptyString) = Throw TypeError) /\
  (suiteRegex opts = EmptyString ->
   forall checkName summary reportPaths file data rest,
     globGenerator env reportPaths (followSymlink opts) = file :: rest ->
     readFileSync env file = Ok data ->
     xml2json env data = Ok (reportOf (flatSuite attrs (JObject None fields))) ->
     parseTestReports env checkName summary reportPaths opts = Throw TypeError).
Proof.
  assert (C : forall testsuite suiteName rest acc,
             casesLoop env opts testsuite suiteName (JObject None fields :: rest) acc
             = Throw TypeError).
  { intros. simpl. rewrite evalTestcase_without_attributes. reflexivity. }
  assert (P : suiteRegex opts = EmptyString ->
              parseSuite env opts (reportOf (flatSuite attrs (JObject None fields)))
                (JString EmptyString) = Throw TypeError).
  { intros R. rewrite parseSuite_flatSuite by (exact R || reflexivity).
    destruct (checkRetries opts); [reflexivity|]. cbn [bind asArray]. rewrite C. reflexivity. }
  split; [exact C|]. split; [exact P|].
  intros R checkName summary reportPaths file data rest G F X.
  unfold parseTestReports. rewrite G. simpl. unfold parseFile.
  rewrite F. simpl. rewrite X, (P R). reflexivity.
Qed.

Example bare_case_aborts :
  parseTestReports (sampleWorld bareCaseFiles) "check" "summary" "reports/*.xml"
    defaultOptions = Throw TypeError.
Proof. vm_compute. reflexivity. Qed.

(** X11. For a suite that has only test cases, no limit and an empty
    [suiteRegex]: without [checkRetries] every test case counts, also the
    repeated ones; with [checkRetries] the total is the number of distinct
    names.  There are as many annotations as counted cases. *)
Theorem retried_tests_count_once (env : Collaborators) (opts : Options)
  (attrs : option (list (string * string))) (l : list jsval) (r : InternalTestResult) :
  suiteRegex opts = EmptyString ->
  annotationsLimit opts <= 0 ->
  forallb hasAttributes l = true ->
  parseSuite env opts (reportOf (flatSuite attrs (JArray l))) (JString EmptyString) = Ok r ->
  totalCount r
  = Z.of_nat (List.length (if checkRetries opts
                           then firstOccurrences (map caseName l)
                           else map caseName l)) /\
  Z.of_nat (List.length (annotations r)) = totalCount r.
Proof.
  intros R L A H. rewrite parseSuite_flatSuite in H by (exact R || reflexivity).
  simpl asArray in H. bind_inv H. bind_inv H. injection H as <-.
  destruct (casesLoop_unlimited env opts (flatSuite attrs (JArray l)) (JString "") v L
              emptyResult E0) as (acc' & -> & T).
  pose proof (casesLoop_consistent env opts _ _ _ consistent_empty E0) as (C & _).
  simpl in C. simpl flowResult. split; [|lia]. rewrite T. simpl.
  destruct (checkRetries opts).
  - rewrite (reconcile_closed_form l A) in E. injection E as <-.
    rewrite !length_map. reflexivity.
  - injection E as <-. rewrite length_map. reflexivity.
Qed.

Lemma retried_tests_count_once_witness :
  exists r,
    parseSuite (sampleWorld [])
      {| suiteRegex := ""; annotatePassed := false; checkRetries := true;
         excludeSources := []; checkTitleTemplate := None; testFilesPrefix := "";
         transformer := []; followSymlink := false; annotationsLimit := 0;
         truncateStackTraces := true |}
      (reportOf (flatSuite None (JArray flakySuite))) (JString "") = Ok r /\
    map status (annotations r) = [SSuccess; SSuccess] /\
    totalCount r = 2 /\
    Z.of_nat (List.length (annotations r)) = totalCount r.
Proof.
  eexists. split; [vm_compute; reflexivity|]. split; [reflexivity|].
  apply (@retried_tests_count_once (sampleWorld [])
           {| suiteRegex := ""; annotatePassed := false; checkRetries := true;
              excludeSources := []; checkTitleTemplate := None; testFilesPrefix := "";
              transformer := []; followSymlink := false; annotationsLimit := 0;
              truncateStackTraces := true |}
           None flakySuite); [reflexivity|simpl; lia|reflexivity|vm_compute; reflexivity].
Defined.

(** ** The message derived from the stack trace *)

Lemma join_split (sep : ascii) (s : string) :
  JsString.join (String sep EmptyString) (JsString.split sep s) = s.
Proof.
  induction s as [|c s IH]; [reflexivity|].
  simpl JsString.split. pose proof (split_nonempty sep s) as N.
  destruct (Ascii.eqb_spec c sep) as [->|].
  - destruct (JsString.split sep s) as [|t ts]; [contradiction|].
    change (JsString.join (String sep "") ("" :: t :: ts))
      with (String sep (JsString.join (String sep "") (t :: ts))).
    rewrite IH. reflexivity.
  - destruct (JsString.split sep s) as [|t ts]; [contradiction|].
    rewrite <- IH. destruct ts; reflexivity.
Qed.

Lemma split_length (sep : ascii) (s : string) :
  List.length (JsString.split sep s) = S (countChar sep s).
Proof.
  induction s as [|c s IH]; [reflexivity|]. simpl.
  pose proof (split_nonempty sep s) as N.
  destruct (Ascii.eqb c sep); simpl; [rewrite IH; reflexivity|].
  destruct (JsString.split sep s); [contradiction|]. simpl in *. exact IH.
Qed.

Lemma split_parts_clean (sep : ascii) (s : string) :
  Forall (fun p => countChar sep p = O) (JsString.split sep s).
Proof.
  induction s as [|c s IH]; simpl; [repeat constructor|].
  pose proof (split_nonempty sep s) as N.
  destruct (Ascii.eqb c sep) eqn:E; [constructor; [reflexivity|exact IH]|].
  destruct (JsString.split sep s) as [|t ts]; [contradiction|].
  inversion IH; subst. constructor; [simpl; rewrite E; assumption|assumption].
Qed.

Lemma countChar_append (c : ascii) (a b : string) :
  countChar c (a ++ b) = (countChar c a + countChar c b)%nat.
Proof.
  induction a as [|x a IH]; simpl; [reflexivity|].
  destruct (Ascii.eqb x c); rewrite IH; reflexivity.
Qed.

Lemma startsWith_append (p s : string) : JsString.startsWith p (p ++ s) = true.
Proof. unfold JsString.startsWith. rewrite stripPrefix_append. reflexivity. Qed.

Lemma startsWith_refl (s : string) : JsString.startsWith s s = true.
Proof.
  unfold JsString.startsWith. induction s as [|c s IH]; simpl; [reflexivity|].
  rewrite Ascii.eqb_refl. exact IH.
Qed.

Lemma append_assoc3 (a b c : string) : (a ++ b) ++ c = a ++ b ++ c.
Proof. induction a as [|x a IH]; simpl; [reflexivity|]. rewrite IH. reflexivity. Qed.

Lemma countChar_cons_same (c : ascii) (s : string) :
  countChar c (String c s) = S (countChar c s).
Proof. simpl. rewrite Ascii.eqb_refl. reflexivity. Qed.

Lemma two_line_prefix (parts : list string) :
  parts <> [] ->
  Forall (fun p => countChar "010" p = O) parts ->
  JsString.startsWith (JsString.join newline (firstn 2 parts))
    (JsString.join newline parts) = true /\
  (countChar "010" (JsString.join newline (firstn 2 parts)) <= 1)%nat /\
  ((List.length parts <= 2)%nat ->
   JsString.join newline (firstn 2 parts) = JsString.join newline parts) /\
  ((3 <= List.length parts)%nat ->
   countChar "010" (JsString.join newline (firstn 2 parts)) = 1%nat /\
   exists rest,
     JsString.join newline parts
     = JsString.join newline (firstn 2 parts) ++ String "010" rest).
Proof.
  intros N Cl. unfold newline.
  destruct parts as [|a [|b [|c rest]]]; [contradiction| | |].
  - inversion Cl as [|? ? Ca _]; subst.
    split; [apply startsWith_refl|]. split; [simpl; rewrite Ca; lia|].
    split; [reflexivity|]. simpl. lia.
  - inversion Cl as [|? ? Ca Cl']; subst. inversion Cl' as [|? ? Cb _]; subst.
    split; [apply startsWith_refl|]. split.
    + simpl firstn. change (JsString.join (String "010" "") [a; b])
        with (a ++ String "010" b).
      rewrite countChar_append, countChar_cons_same, Ca, Cb. lia.
    + split; [reflexivity|]. simpl. lia.
  - inversion Cl as [|? ? Ca Cl']; subst. inversion Cl' as [|? ? Cb _]; subst.
    simpl firstn.
    assert (K : countChar "010" (JsString.join (String "010" "") [a; b]) = 1%nat).
    { change (JsString.join (String "010" "") [a; b]) with (a ++ String "010" b).
      rewrite countChar_append, countChar_cons_same, Ca, Cb. reflexivity. }
    assert (E : JsString.join (String "010" "") (a :: b :: c :: rest)
                = JsString.join (String "010" "") [a; b]
                  ++ String "010" (JsString.join (String "010" "") (c :: rest))).
    { change (JsString.join (String "010" "") (a :: b :: c :: rest))
        with (a ++ String "010" (b ++ String "010"
                (JsString.join (String "010" "") (c :: rest)))).
      change (JsString.join (String "010" "") [a; b]) with (a ++ String "010" b).
      rewrite append_assoc3. reflexivity. }
    split; [rewrite E; apply startsWith_append|].
    split; [lia|]. split; [simpl; lia|].
    intros _. split; [exact K|]. eexists. exact E.
Qed.

(** X12. The text the message is taken from when the failure has no
    [message] attribute is a prefix of the stack trace: the stack trace
    itself when [truncateStackTraces] is off or the trace has at most two
    lines, and otherwise its first two lines, with one line break. *)
Theorem stackTraceMessage_is_a_two_line_prefix (opts : Options) (stackTrace : string) :
  JsString.startsWith (stackTraceMessageOf opts stackTrace) stackTrace = true /\
  (truncateStackTraces opts = true ->
   (countChar "010" (stackTraceMessageOf opts stackTrace) <= 1)%nat) /\
  (truncateStackTraces opts = false \/ (countChar "010" stackTrace <= 1)%nat ->
   stackTraceMessageOf opts stackTrace = stackTrace) /\
  (truncateStackTraces opts = true -> (2 <= countChar "010" stackTrace)%nat ->
   countChar "010" (stackTraceMessageOf opts stackTrace) = 1%nat /\
   exists rest,
     stackTrace = stackTraceMessageOf opts stackTrace ++ String "010" rest).
Proof.
  unfold stackTraceMessageOf.
  destruct (truncateStackTraces opts).
  2:{ split; [apply startsWith_refl|]. split; [discriminate|].
      split; [reflexivity|discriminate]. }
  pose proof (split_length "010" stackTrace) as Len.
  destruct (@two_line_prefix (JsString.split "010" stackTrace)
              (split_nonempty "010" stackTrace)
              (split_parts_clean "010" stackTrace)) as (P & C & S & T).
  unfold newline in *. rewrite (join_split "010" stackTrace) in *.
  split; [exact P|]. split; [intros _; exact C|]. split.
  - intros [D|D]; [discriminate|]. apply S. lia.
  - intros _ H. apply T. lia.
Qed.

Example stackTraceMessage_three_lines :
  stackTraceMessageOf defaultOptions ("AssertionError" ++ newline ++ " at a" ++ newline ++ " at b")
  = "AssertionError" ++ newline ++ " at a".
Proof. reflexivity. Qed.

(** ** More on the reconciliation *)

Lemma firstOccurrences_NoDup_id (ks : list (option string)) :
  NoDup ks -> firstOccurrences ks = ks.
Proof.
  induction 1 as [|k ks N _ IH]; simpl; [reflexivity|]. rewrite IH. f_equal.
  apply forallb_filter_id. apply forallb_forall. intros k' I.
  destruct (keyEqb_spec k' k) as [->|]; [contradiction|reflexivity].
Qed.

Lemma casesNamed_unique (l : list jsval) :
  NoDup (map caseName l) ->
  forall c, In c l -> casesNamed (caseName c) l = [c].
Proof.
  induction l as [|x l IH]; simpl; intros D c I; [contradiction|].
  inversion D as [|? ? Nx D']; subst. unfold casesNamed. simpl.
  destruct I as [->|I].
  - rewrite keyEqb_refl. f_equal. apply (casesNamed_nil (caseName c) l Nx).
  - destruct (keyEqb_spec (caseName x) (caseName c)) as [E|_].
    + exfalso. apply Nx. rewrite E. apply in_map. exact I.
    + apply IH; assumption.
Qed.

Lemma representative_unique (l : list jsval) :
  NoDup (map caseName l) ->
  forall c, In c l -> representative l (caseName c) = c.
Proof.
  intros D c I. unfold representative. rewrite (casesNamed_unique l D c I). simpl.
  destruct (negb (failing c)); reflexivity.
Qed.

Lemma reconcile_distinct (l : list jsval) :
  forallb hasAttributes l = true -> NoDup (map caseName l) -> reconcile l = Ok l.
Proof.
  intros A D. rewrite (reconcile_closed_form l A), (firstOccurrences_NoDup_id D).
  rewrite map_map. f_equal. rewrite <- (map_id l) at 2.
  apply map_ext_in. intros c I. apply representative_unique; assumption.
Qed.

Lemma reconcile_output (l : list jsval) :
  forallb hasAttributes l = true ->
  exists out,
    reconcile l = Ok out /\
    map caseName out = firstOccurrences (map caseName l) /\
    (forall c, In c out -> In c l) /\
    forallb hasAttributes out = true.
Proof.
  intros A. eexists. split; [apply (reconcile_closed_form l A)|].
  assert (I : forall k, In k (firstOccurrences (map caseName l)) ->
                        In (representative l k) l /\ caseName (representative l k) = k).
  { intros k Ik. apply representative_named. apply -> firstOccurrences_In. exact Ik. }
  split; [|split].
  - rewrite map_map. rewrite <- (map_id (firstOccurrences _)) at 2.
    apply map_ext_in. intros k Ik. apply I, Ik.
  - intros c Ic. apply in_map_iff in Ic. destruct Ic as (k & <- & Ik). apply I, Ik.
  - apply forallb_forall. intros c Ic. apply in_map_iff in Ic.
    destruct Ic as (k & <- & Ik). rewrite forallb_forall in A. apply A, I, Ik.
Qed.

(** X13. With [checkRetries], a suite whose test cases have pairwise
    different names is left as it is. *)
Theorem reconcile_leaves_distinct_names_alone (l : list jsval) :
  forallb hasAttributes l = true ->
  NoDup (map caseName l) ->
  reconcile l = Ok l.
Proof. apply reconcile_distinct. Qed.

Lemma reconcile_leaves_distinct_names_alone_witness :
  reconcile passThenTwoFailures = Ok passThenTwoFailures.
Proof.
  apply (@reconcile_leaves_distinct_names_alone passThenTwoFailures); [reflexivity|].
  repeat constructor; simpl; intuition discriminate.
Defined.

(** X14. The reconciliation is idempotent: reconciling its output changes
    nothing. *)
Theorem reconcile_idempotent (l out : list jsval) :
  reconcile l = Ok out -> reconcile out = Ok out.
Proof.
  intros H.
  assert (A : forallb hasAttributes l = true).
  { unfold reconcile in H. bind_inv H. clear H. revert v E.
    generalize (@nil (option string * jsval)).
    induction l as [|tc l IH]; intros m v E; [reflexivity|].
    simpl in E. bind_inv E. simpl.
    assert (Htc : hasAttributes tc = true).
    { destruct tc as [| | | |[a|] f]; try discriminate. reflexivity. }
    rewrite Htc. simpl.
    destruct (mapGet v0 m).
    - destruct (_ && _); [eapply IH; exact E|].
      destruct (_ && _); eapply IH; exact E.
    - eapply IH; exact E. }
  destruct (reconcile_output l A) as (out' & R & N & _ & A').
  rewrite R in H. injection H as <-.
  apply reconcile_distinct; [exact A'|]. rewrite N. apply firstOccurrences_NoDup.
Qed.

Lemma reconcile_idempotent_witness :
  reconcile flakySuite = Ok [passingCase "T"; passingCase "U"] /\
  reconcile [passingCase "T"; passingCase "U"] = Ok [passingCase "T"; passingCase "U"].
Proof.
  split; [reflexivity|].
  apply (@reconcile_idempotent flakySuite). reflexivity.
Defined.

(** X15. The reconciliation invents nothing and reports a failure only when
    every run failed: each case of the output is a case of the input, there
    is one per name and at most as many as in the input; a name with a
    passing run is represented by a passing case, and a failing case in the
    output means that all the cases of its name fail. *)
Theorem reconcile_reports_failure_only_if_all_runs_fail (l : list jsval) :
  forallb hasAttributes l = true ->
  exists out,
    reconcile l = Ok out /\
    (forall c, In c out -> In c l) /\
    NoDup (map caseName out) /\
    (List.length out <= List.length l)%nat /\
    (forall c, In c l -> exists c', In c' out /\ caseName c' = caseName c) /\
    (forall c c', In c' out -> In c l -> caseName c = caseName c' ->
                  failing c' = true -> failing c = true).
Proof.
  intros A. destruct (reconcile_output l A) as (out & R & N & S & _).
  exists out. split; [exact R|]. split; [exact S|].
  split; [rewrite N; apply firstOccurrences_NoDup|]. split; [|split].
  - rewrite <- (length_map caseName out), N, <- (length_map caseName l).
    generalize (map caseName l). intros ks.
    induction ks as [|k ks IH]; simpl; [lia|].
    pose proof (filter_length_le (fun k' => negb (keyEqb k' k)) (firstOccurrences ks)).
    lia.
  - intros c I.
    assert (Ik : In (caseName c) (map caseName out)).
    { rewrite N. apply firstOccurrences_In. apply in_map. exact I. }
    apply in_map_iff in Ik. destruct Ik as (c' & E & I'). exists c'. auto.
  - intros c c' I' I E F.
    rewrite (reconcile_closed_form l A) in R. injection R as <-.
    apply in_map_iff in I'. destruct I' as (k & <- & Ik).
    apply -> firstOccurrences_In in Ik.
    destruct (representative_named l k Ik) as (_ & Ek). rewrite Ek in E.
    rewrite (representative_failing l k Ik) in F.
    destruct (find (fun x => negb (failing x)) (casesNamed k l)) eqn:Fd; [discriminate|].
    destruct (failing c) eqn:Fc; [reflexivity|]. exfalso.
    assert (Ic : In c (casesNamed k l)).
    { unfold casesNamed. apply filter_In. split; [exact I|].
      rewrite E. apply keyEqb_refl. }
    pose proof (find_none _ _ Fd c Ic) as X. simpl in X. rewrite Fc in X. discriminate.
Qed.

Lemma reconcile_reports_failure_only_if_all_runs_fail_witness :
  exists out,
    reconcile flakySuite = Ok out /\
    (forall c, In c out -> In c flakySuite) /\
    NoDup (map caseName out) /\
    (List.length out <= List.length flakySuite)%nat /\
    (forall c, In c flakySuite -> exists c', In c' out /\ caseName c' = caseName c) /\
    (forall c c', In c' out -> In c flakySuite -> caseName c = caseName c' ->
                  failing c' = true -> failing c = true).
Proof.
  apply (@reconcile_reports_failure_only_if_all_runs_fail flakySuite). reflexivity.
Defined.

(** ** When the file system is consulted *)

(** X16. The path of an annotation is looked up in the file system only for
    a test case that failed, or that succeeded while [annotatePassed] is on:
    for every other test case (a skipped failure, a passing case without
    [annotatePassed]) the evaluation is the same under any file system
    walk. *)
Theorem evalTestcase_consults_no_walk_unless_needed (env : Collaborators) (opts : Options)
  (walk paths : string -> bool -> list string)
  (testsuite suiteName testcase : jsval) (skipped : bool) :
  skipOf testcase = Ok skipped ->
  (failing testcase && negb skipped)
  || (annotatePassed opts && negb (failing testcase)) = false ->
  evalTestcase (withWalk walk paths env) opts testsuite suiteName testcase
  = evalTestcase env opts testsuite suiteName testcase.
Proof.
  intros S C. unfold failing in C. unfold evalTestcase. rewrite S.
  destruct (get "failure" testcase); simpl; [|reflexivity].
  destruct (messageOf opts testcase (stackTraceOf testcase)); simpl; [|reflexivity].
  change (positionOf (withWalk walk paths env) testsuite testcase (stackTraceOf testcase))
    with (positionOf env testsuite testcase (stackTraceOf testcase)).
  destruct (positionOf env testsuite testcase (stackTraceOf testcase)); simpl;
    [|reflexivity].
  rewrite C. reflexivity.
Qed.

Lemma evalTestcase_consults_no_walk_unless_needed_witness :
  evalTestcase (withWalk (fun _ _ => ["/elsewhere/ok.txt"]) (fun _ _ => [])
                  (sourceWorld javaSources []))
    defaultOptions suiteA (JString "") (passingCase "ok")
  = evalTestcase (sourceWorld javaSources []) defaultOptions suiteA (JString "")
      (passingCase "ok").
Proof.
  apply (@evalTestcase_consults_no_walk_unless_needed (sourceWorld javaSources [])
           defaultOptions (fun _ _ => ["/elsewhere/ok.txt"]) (fun _ _ => [])
           suiteA (JString "") (passingCase "ok") false); reflexivity.
Defined.

Example failed_case_is_looked_up :
  option_map (fun o => path (annotation o))
    (match evalTestcase (sourceWorld javaSources []) defaultOptions suiteA (JString "")
             (failingCase "FooTest" "boom" "at FooTest.run(FooTest.java:7)") with
     | Ok o => Some o
     | Throw _ => None
     end)
  = Some "src/test/java/FooTest.java".
Proof. vm_compute. reflexivity. Qed.

(** ** The resolved file name *)

Lemma split_clean (sep : ascii) (s : string) :
  countChar sep s = O -> JsString.split sep s = [s].
Proof.
  induction s as [|c s IH]; simpl; [reflexivity|].
  destruct (Ascii.eqb c sep); [discriminate|]. intros H. rewrite (IH H). reflexivity.
Qed.

Lemma last_cons_nonempty {A : Type} (x d : A) (l : list A) :
  l <> [] -> last (x :: l) d = last l d.
Proof. destruct l; [contradiction|reflexivity]. Qed.

Lemma last_split_cons (sep c : ascii) (s : string) :
  last (JsString.split sep (String c s)) EmptyString
  = if Ascii.eqb c sep then last (JsString.split sep s) EmptyString
    else if (countChar sep s =? 0)%nat then String c s
         else last (JsString.split sep s) EmptyString.
Proof.
  simpl JsString.split. pose proof (split_nonempty sep s) as N.
  pose proof (split_length sep s) as Len.
  destruct (Ascii.eqb c sep); [apply last_cons_nonempty; exact N|].
  destruct (Nat.eqb_spec (countChar sep s) 0) as [Z|Z].
  - rewrite (split_clean sep s Z). reflexivity.
  - destruct (JsString.split sep s) as [|t [|u ts]]; [contradiction| |reflexivity].
    simpl in Len. lia.
Qed.

Lemma last_split_clean (sep : ascii) (s : string) :
  countChar sep (last (JsString.split sep s) EmptyString) = O.
Proof.
  pose proof (split_parts_clean sep s) as F. pose proof (split_nonempty sep s) as N.
  rewrite Forall_forall in F. apply F.
  destruct (exists_last N) as (l & x & ->). rewrite last_last.
  apply in_or_app. right. left. reflexivity.
Qed.

Lemma endsWith_refl (s : string) : JsString.endsWith s s = true.
Proof. destruct s; [reflexivity|]. simpl. rewrite String.eqb_refl. reflexivity. Qed.

Lemma endsWith_cons (suf : string) (c : ascii) (s : string) :
  JsString.endsWith suf s = true -> JsString.endsWith suf (String c s) = true.
Proof. intros H. simpl. rewrite H. apply orb_true_r. Qed.

Lemma endsWith_last_split (sep : ascii) (s : string) :
  JsString.endsWith (last (JsString.split sep s) EmptyString) s = true.
Proof.
  induction s as [|c s IH]; [reflexivity|]. rewrite last_split_cons.
  destruct (Ascii.eqb c sep); [apply endsWith_cons, IH|].
  destruct (countChar sep s =? 0)%nat; [apply endsWith_refl|apply endsWith_cons, IH].
Qed.

(** A suffix without the separator stays a suffix of the last part. *)
Lemma endsWith_last_part (sep : ascii) (suf : string) :
  countChar sep suf = O ->
  forall s, JsString.endsWith suf s = true ->
            JsString.endsWith suf (last (JsString.split sep s) EmptyString) = true.
Proof.
  intros K. induction s as [|c s IH]; intros H; [exact H|].
  rewrite last_split_cons.
  assert (D : String c s = suf \/ JsString.endsWith suf s = true).
  { simpl in H. apply orb_prop in H. destruct H as [H|H]; [|right; exact H].
    left. apply String.eqb_eq. exact H. }
  destruct (Ascii.eqb c sep) eqn:E.
  - destruct D as [D|D]; [|apply IH, D].
    exfalso. rewrite <- D in K. simpl in K. rewrite E in K. discriminate.
  - destruct (Nat.eqb_spec (countChar sep s) 0) as [Z|Z]; [exact H|].
    destruct D as [D|D]; [|apply IH, D].
    exfalso. rewrite <- D in K. simpl in K. rewrite E in K. contradiction.
Qed.

(** A text is its last part, or ends with the separator and its last part. *)
Lemma last_split_decompose (sep : ascii) (s : string) :
  s = last (JsString.split sep s) EmptyString \/
  exists pre, s = pre ++ String sep (last (JsString.split sep s) EmptyString).
Proof.
  induction s as [|c s IH]; [left; reflexivity|]. rewrite last_split_cons.
  destruct (Ascii.eqb_spec c sep) as [->|Hc].
  - right. destruct IH as [IH|(pre & IH)].
    + exists EmptyString. simpl. rewrite <- IH. reflexivity.
    + exists (String sep pre). simpl. rewrite <- IH. reflexivity.
  - destruct (Nat.eqb_spec (countChar sep s) 0) as [Z|Z]; [left; reflexivity|].
    right. destruct IH as [IH|(pre & IH)].
    + exfalso. apply Z. rewrite IH. apply last_split_clean.
    + exists (String c pre). simpl. rewrite <- IH. reflexivity.
Qed.

(** What follows the last separator is the last part. *)
Lemma last_split_append (sep : ascii) (pre seg : string) :
  countChar sep seg = O ->
  last (JsString.split sep (pre ++ String sep seg)) EmptyString = seg.
Proof.
  intros K. rewrite split_append_sep, (split_clean sep seg K). apply last_last.
Qed.

(** X17. Without an explicit file name, the resolved file name is what
    follows the last dot of the class name: it contains no dot, and the
    class name is that name, or a text, a dot and that name.  So for a class
    name that ends with a dot and a text without dots it is that text, and
    for a class name without a dot it is the whole class name.  An explicit
    file name that is not empty is taken as it is. *)
Theorem resolvedFileName_is_the_last_segment (file : option string) (className : string) :
  (truthyStr file = false ->
   countChar "." (resolvedFileName file className) = O /\
   JsString.endsWith (resolvedFileName file className) className = true /\
   (className = resolvedFileName file className \/
    exists pre, className = pre ++ String "." (resolvedFileName file className)) /\
   (forall pre segment,
      className = pre ++ String "." segment -> countChar "." segment = O ->
      resolvedFileName file className = segment) /\
   (countChar "." className = O -> resolvedFileName file className = className)) /\
  (truthyStr file = true -> Some (resolvedFileName file className) = file).
Proof.
  assert (R : truthyStr file = false ->
              resolvedFileName file className
              = last (JsString.split "." className) EmptyString).
  { destruct file as [[|c f]|]; simpl; intros H; try discriminate; reflexivity. }
  split.
  - intros H. rewrite (R H). split; [apply last_split_clean|].
    split; [apply endsWith_last_split|].
    split; [apply last_split_decompose|].
    split.
    + intros pre segment -> K. apply last_split_append. exact K.
    + intros K. rewrite (split_clean "." className K). reflexivity.
  - destruct file as [[|c f]|]; simpl; intros H; try discriminate. reflexivity.
Qed.

(** The name of a source file taken for a class name resolves to its
    extension, and a qualified class name to the class. *)
Lemma resolvedFileName_is_the_last_segment_witness :
  resolvedFileName None "src/file.js" = "js" /\
  resolvedFileName (Some "") "com.acme.FooTest" = "FooTest" /\
  resolvedFileName None "FooTest" = "FooTest" /\
  Some (resolvedFileName (Some "x/y.rs") "a.b") = Some "x/y.rs".
Proof.
  split; [|split; [|split]].
  - exact (proj1 (proj2 (proj2 (proj2 (proj1
             (resolvedFileName_is_the_last_segment None "src/file.js") eq_refl))))
             "src/file" "js" eq_refl eq_refl).
  - exact (proj1 (proj2 (proj2 (proj2 (proj1
             (resolvedFileName_is_the_last_segment (Some "") "com.acme.FooTest") eq_refl))))
             "com.acme" "FooTest" eq_refl eq_refl).
  - exact (proj2 (proj2 (proj2 (proj2 (proj1
             (resolvedFileName_is_the_last_segment None "FooTest") eq_refl))))
             eq_refl).
  - exact (proj2 (resolvedFileName_is_the_last_segment (Some "x/y.rs") "a.b") eq_refl).
Defined.

Example resolvedFileName_of_a_file_name :
  resolvedFileName None "src/file.js" = "js" /\
  resolvedFileName None "com.acme.FooTest" = "FooTest" /\
  resolvedFileName None "trailing." = "" /\
  resolvedFileName (Some "") "a.b" = "b" /\
  resolvedFileName (Some "x/y.rs") "a.b" = "x/y.rs".
Proof. repeat split. Qed.

(** ** The file name of a Rust panic *)

Lemma strOr_some_empty (x : string) : strOr (Some x) EmptyString = x.
Proof. destruct x; reflexivity. Qed.

Lemma pop_last_word (sep : ascii) (s : string) :
  strOr (snd (pop (JsString.split sep s))) EmptyString
  = last (JsString.split sep s) EmptyString.
Proof.
  destruct (exists_last (split_nonempty sep s)) as (l & x & ->).
  rewrite pop_snoc, last_last. apply strOr_some_empty.
Qed.

Lemma list_last_two {A : Type} (l : list A) :
  l <> [] -> (exists x, l = [x]) \/ exists l' a b, l = (l' ++ [a; b])%list.
Proof.
  intros N. destruct (exists_last N) as (l1 & b & ->).
  destruct l1 as [|y l1]; [left; exists b; reflexivity|].
  right. assert (N1 : y :: l1 <> []) by discriminate.
  destruct (exists_last N1) as (l2 & a & ->).
  exists l2, a, b. rewrite <- app_assoc. reflexivity.
Qed.

Lemma join_cons (sep x : string) (l : list string) :
  l <> [] -> JsString.join sep (x :: l) = x ++ sep ++ JsString.join sep l.
Proof. destruct l; [contradiction|reflexivity]. Qed.

Lemma join_app_two (sep : string) (l : list string) (a b : string) :
  JsString.join sep (l ++ [a; b])
  = match l with
    | [] => EmptyString
    | _ => JsString.join sep l ++ sep
    end ++ a ++ sep ++ b.
Proof.
  induction l as [|x l IH]; [reflexivity|].
  change ((x :: l) ++ [a; b])%list with (x :: (l ++ [a; b]))%list.
  rewrite join_cons by (destruct l; discriminate). rewrite IH.
  destruct l as [|y l].
  - simpl. rewrite !append_assoc3. reflexivity.
  - rewrite (@join_cons sep x (y :: l)) by discriminate.
    rewrite !append_assoc3. reflexivity.
Qed.

(** The two last tokens of a text that ends with two tokens. *)
Lemma split_two_last (sep : ascii) (before token number : string) :
  before = EmptyString \/ (exists b, before = b ++ String sep EmptyString) ->
  countChar sep token = O -> countChar sep number = O ->
  exists l, JsString.split sep (before ++ token ++ String sep number)
            = (l ++ [token; number])%list.
Proof.
  intros [->|(b & ->)] Kt Kn.
  - exists []. simpl append. rewrite split_append_sep.
    rewrite (split_clean sep token Kt), (split_clean sep number Kn). reflexivity.
  - exists (JsString.split sep b). rewrite append_assoc3.
    change (String sep "" ++ token ++ String sep number)
      with (String sep (token ++ String sep number)).
    rewrite !split_append_sep.
    rewrite (split_clean sep token Kt), (split_clean sep number Kn). reflexivity.
Qed.

(** A text whose tokens end with two tokens ends with them. *)
Lemma two_last_tokens (sep : ascii) (s : string) (l : list string) (token number : string) :
  JsString.split sep s = (l ++ [token; number])%list ->
  exists before,
    s = before ++ token ++ String sep number /\
    (before = EmptyString \/ exists b, before = b ++ String sep EmptyString) /\
    countChar sep token = O /\ countChar sep number = O.
Proof.
  intros E. pose proof (join_split sep s) as J. pose proof (split_parts_clean sep s) as F.
  rewrite E in J, F. rewrite join_app_two in J.
  apply Forall_app in F. destruct F as (_ & F).
  inversion F as [|? ? Kt F']; subst. inversion F' as [|? ? Kn _]; subst.
  destruct l as [|x l].
  - exists EmptyString. repeat split; auto.
  - exists (JsString.join (String sep "") (x :: l) ++ String sep "").
    repeat split; auto. right. eexists. reflexivity.
Qed.

(** The file name that the statements after a successful search give. *)
Lemma fromMatches_fileName (name : string) (ms : list string) :
  ms <> [] ->
  exists p,
    fromMatches name ms = Ok p /\
    ((exists x, JsString.split ":" (last ms EmptyString) = [x] /\ fileName p = name) \/
     exists l token number,
       JsString.split ":" (last ms EmptyString) = (l ++ [token; number])%list /\
       fileName p = if JsString.endsWith ".rs" token
                    then last (JsString.split " " token) EmptyString
                    else name).
Proof.
  intros N. destruct (exists_last N) as (l0 & lastItem & ->).
  unfold fromMatches. rewrite pop_snoc, last_last. cbn [snd].
  eexists. split; [reflexivity|]. cbn [fileName].
  destruct (list_last_two (split_nonempty ":" lastItem)) as [(x & E)|(l & a & b & E)];
    rewrite E.
  - left. exists x. split; reflexivity.
  - right. exists l, a, b. split; [reflexivity|].
    replace (l ++ [a; b])%list with ((l ++ [a]) ++ [b])%list
      by (rewrite <- app_assoc; reflexivity).
    rewrite pop_snoc. cbn [fst]. rewrite pop_snoc. cbn [snd].
    rewrite strOr_some_empty, pop_last_word. reflexivity.
Qed.

(** X18. Whatever the search returns, the file name of the position is the
    resolved file name, or, after a match, the last word of the token that
    stands before the line number in the last match, when that token ends in
    [.rs]: a name that ends in [.rs] and has no space.  The second happens
    whenever the search is made and the last match ends with such a token;
    in every other case the file name is the resolved one. *)
Theorem resolveFileAndLine_file_is_resolved_or_rust (engine : string -> string -> matchAnswer)
  (file lineText : option string) (className output : string) :
  let name := resolvedFileName file className in
  let searched := fileLinePattern (escapedFileName name) in
  let position := runSearch engine (resolveFileAndLine file lineText className output) in
  (fileName position = name \/
   (JsString.endsWith ".rs" (fileName position) = true /\
    countChar " " (fileName position) = O /\
    exists ms before token number,
      engine searched output = Matches ms /\
      last ms EmptyString = before ++ token ++ String ":" number /\
      (before = EmptyString \/ exists b, before = b ++ ":") /\
      countChar ":" token = O /\ countChar ":" number = O /\
      JsString.endsWith ".rs" token = true /\
      (token = fileName position \/
       exists words, token = words ++ String " " (fileName position)))) /\
  (forall ms before token number,
     safeParseInt lineText = None \/ safeParseInt lineText = Some 0 \/
     name = EmptyString ->
     engine searched output = Matches ms -> ms <> [] ->
     last ms EmptyString = before ++ token ++ String ":" number ->
     (before = EmptyString \/ exists b, before = b ++ ":") ->
     countChar ":" token = O -> countChar ":" number = O ->
     (JsString.endsWith ".rs" token = false -> fileName position = name) /\
     (JsString.endsWith ".rs" token = true ->
      (countChar " " token = O -> fileName position = token) /\
      (forall words word,
         token = words ++ String " " word -> countChar " " word = O ->
         fileName position = word))) /\
  (engine searched output = Raised \/ engine searched output = NoMatch \/
   engine searched output = Matches [] ->
   fileName position = name) /\
  (forall n, safeParseInt lineText = Some n -> n <> 0 -> name <> EmptyString ->
             fileName position = name).
Proof.
  intros name searched position. unfold position.
  destruct (resolveFileAndLine_cases file lineText className output)
    as [(n & P & Hn & Hf & R)|(C & R)]; rewrite R; simpl runSearch.
  - fold name in Hf. split; [left; reflexivity|]. split; [|split; [reflexivity|reflexivity]].
    intros ms before token number S. exfalso. destruct S as [S|[S|S]].
    + rewrite P in S. discriminate.
    + rewrite P in S. injection S as ->. contradiction.
    + contradiction.
  - fold name searched.
    assert (T : forall n, safeParseInt lineText = Some n -> n <> 0 -> name <> EmptyString ->
                          False).
    { intros n P Hn Hf. destruct C as [C|[C|C]].
      - contradiction.
      - rewrite P in C. discriminate.
      - rewrite P in C. injection C as ->. contradiction. }
    destruct (engine searched output) as [| |ms] eqn:A.
    + split; [left; reflexivity|]. split; [discriminate|].
      split; [reflexivity|]. intros n P Hn Hf. reflexivity.
    + split; [left; reflexivity|]. split; [discriminate|].
      split; [reflexivity|]. intros n P Hn Hf. reflexivity.
    + destruct ms as [|m ms'].
      * split; [left; reflexivity|]. split; [intros ? ? ? ? _ A0 N; injection A0 as <-; contradiction|].
        split; [reflexivity|]. intros n P Hn Hf. reflexivity.
      * set (ms := m :: ms') in *.
        destruct (@fromMatches_fileName name ms) as (p & M & K); [discriminate|].
        simpl tryBody. rewrite M.
        split; [|split; [|split]].
        -- destruct K as [(x & E & ->)|(l & t & nb & E & ->)]; [left; reflexivity|].
           destruct (JsString.endsWith ".rs" t) eqn:Rs; [|left; reflexivity].
           right. split; [apply endsWith_last_part; [reflexivity|exact Rs]|].
           split; [apply last_split_clean|].
           destruct (@two_last_tokens ":" (last ms EmptyString) l t nb E)
             as (before & L & B & Kt & Kn).
           exists ms, before, t, nb. repeat split; try assumption.
           apply last_split_decompose.
        -- intros ms0 before token number _ A0 _ L B Kt Kn.
           injection A0 as <-.
           destruct (@split_two_last ":" before token number B Kt Kn) as (l' & E').
           rewrite <- L in E'.
           destruct K as [(x & E & _)|(l & t & nb & E & ->)].
           ++ exfalso. rewrite E in E'. apply (f_equal (@List.length string)) in E'.
              rewrite length_app in E'. simpl in E'. lia.
           ++ rewrite E in E'.
              replace (l ++ [t; nb])%list with ((l ++ [t]) ++ [nb])%list in E'
                by (rewrite <- app_assoc; reflexivity).
              replace (l' ++ [token; number])%list with ((l' ++ [token]) ++ [number])%list in E'
                by (rewrite <- app_assoc; reflexivity).
              apply app_inj_tail in E'. destruct E' as (E' & _).
              apply app_inj_tail in E'. destruct E' as (_ & ->).
              split.
              ** intros ->. reflexivity.
              ** intros ->. split.
                 --- intros Ks. rewrite (split_clean " " token Ks). reflexivity.
                 --- intros words word -> Kw. apply last_split_append. exact Kw.
        -- intros [E|[E|E]]; discriminate.
        -- intros n P Hn Hf. exfalso. exact (T n P Hn Hf).
Qed.

(** The panic of a Rust test names the file of the test. *)
Lemma resolveFileAndLine_file_is_resolved_or_rust_witness :
  fileName (runSearch RegExp.matchAll
              (resolveFileAndLine None None "project::tests"
                 "thread 'it_works' panicked at 'boom', tests/project/tests.rs:48:38"))
  = "tests/project/tests.rs" /\
  fileName (runSearch RegExp.matchAll
              (resolveFileAndLine None None "com.acme.FooTest"
                 "AssertionError at com.acme.FooTest.bar(FooTest.java:42)"))
  = "FooTest".
Proof.
  split.
  - destruct (resolveFileAndLine_file_is_resolved_or_rust RegExp.matchAll None None
                "project::tests"
                "thread 'it_works' panicked at 'boom', tests/project/tests.rs:48:38")
      as (_ & W & _).
    destruct (W [" tests/project/tests.rs:48"] "" " tests/project/tests.rs" "48"
                (or_introl eq_refl) ltac:(vm_compute; reflexivity) ltac:(discriminate)
                eq_refl (or_introl eq_refl) eq_refl eq_refl)
      as (_ & Y).
    destruct (Y eq_refl) as (_ & Z).
    exact (Z "" "tests/project/tests.rs" eq_refl eq_refl).
  - destruct (resolveFileAndLine_file_is_resolved_or_rust RegExp.matchAll None None
                "com.acme.FooTest"
                "AssertionError at com.acme.FooTest.bar(FooTest.java:42)")
      as (_ & W & _).
    destruct (W [" com.acme.FooTest.bar(FooTest.java:42"] ""
                " com.acme.FooTest.bar(FooTest.java" "42"
                (or_introl eq_refl) ltac:(vm_compute; reflexivity) ltac:(discriminate)
                eq_refl (or_introl eq_refl) eq_refl eq_refl)
      as (X & _).
    exact (X eq_refl).
Defined.

Example resolve_rust_panic :
  runSearch RegExp.matchAll
    (resolveFileAndLine None None "project::tests"
       "thread 'it_works' panicked at 'boom', tests/project/tests.rs:48:38")
  = {| fileName := "tests/project/tests.rs"; line := 48 |}.
Proof. vm_compute. reflexivity. Qed.

(** ** The order of the annotations *)

Lemma casesLoop_unlimited_fold (env : Collaborators) (opts : Options)
  (testsuite suiteName : jsval) (testcases : list jsval) :
  annotationsLimit opts <= 0 ->
  forall acc f,
    casesLoop env opts testsuite suiteName testcases acc = Ok f ->
    exists os, List.length os = List.length testcases /\
               f = Next (fold_left addCase os acc).
Proof.
  intros L. induction testcases as [|tc rest IH]; simpl; intros acc f H.
  - injection H as <-. exists []. split; reflexivity.
  - bind_inv H. rewrite limitReached_unlimited in H by exact L.
    destruct (IH _ _ H) as (os & Len & ->).
    exists (v :: os). split; [simpl; rewrite Len|]; reflexivity.
Qed.

(** X19. Without a limit, the result for a suite holds first everything
    its nested suites gave, in their order, and then one annotation for each
    of its own test cases; a suite without test cases adds nothing of its
    own. *)
Theorem nested_suites_come_before_own_cases (env : Collaborators) (opts : Options)
  (attrs : option (list (string * string))) (fields : list (string * jsval))
  (parentName : jsval) (r : InternalTestResult) :
  annotationsLimit opts <= 0 ->
  parseSuite env opts (reportOf (JObject attrs fields)) parentName = Ok r ->
  exists suiteName nested own,
    suiteNameOf env opts parentName (JObject attrs fields) = Ok suiteName /\
    parseSuite env opts (JObject attrs fields) suiteName = Ok nested /\
    annotations r = (annotations nested ++ own)%list /\
    totalCount r = totalCount nested + Z.of_nat (List.length own) /\
    (truthy (prop "testcase" (JObject attrs fields)) = false -> own = []).
Proof.
  intros L H. rewrite parseSuite_unfold in H. unfold suiteBody, reportOf in H.
  change (get "testsuite" (JObject None [("testsuite", JObject attrs fields)]))
    with (Ok (JObject attrs fields)) in H.
  change (testsuitesOf (JObject None [("testsuite", JObject attrs fields)]))
    with [JObject attrs fields] in H.
  change (truthy (prop "testsuite" (JObject None [("testsuite", JObject attrs fields)])))
    with true in H.
  cbn [bind negb andb] in H. unfold suitesLoop in H.
  change (truthy (JObject attrs fields)) with true in H. cbn [negb] in H.
  bind_inv H. bind_inv H. exists v, v0.
  destruct (truthy (prop "testcase" (JObject attrs fields))) eqn:T; cbn [negb] in H.
  - rewrite limitReached_unlimited in H by exact L.
    bind_inv H. bind_inv H.
    destruct (casesLoop_unlimited_fold env opts _ _ _ L _ E2) as (os & Len & ->).
    injection H as <-. destruct (fold_addCase_annotations os (addResult emptyResult v0))
      as (A & C & _).
    exists (map annotation os). rewrite A, C. simpl. rewrite length_map.
    repeat split; try assumption; try lia; discriminate.
  - injection H as <-. exists []. simpl. rewrite app_nil_r.
    repeat split; try assumption; lia.
Qed.

Lemma nested_suites_come_before_own_cases_witness :
  exists r,
    parseSuite (sampleWorld []) defaultOptions
      (reportOf (JObject (Some [("name", "outer")])
                   [("testsuite", suiteB); ("testcase", passingCase "own")]))
      (JString "") = Ok r /\
    map title (annotations r) = ["bad"; "own"] /\
    exists suiteName nested own,
      suiteNameOf (sampleWorld []) defaultOptions (JString "")
        (JObject (Some [("name", "outer")])
           [("testsuite", suiteB); ("testcase", passingCase "own")]) = Ok suiteName /\
      parseSuite (sampleWorld []) defaultOptions
        (JObject (Some [("name", "outer")])
           [("testsuite", suiteB); ("testcase", passingCase "own")]) suiteName = Ok nested /\
      annotations r = (annotations nested ++ own)%list /\
      totalCount r = totalCount nested + Z.of_nat (List.length own) /\
      (truthy (prop "testcase"
                 (JObject (Some [("name", "outer")])
                    [("testsuite", suiteB); ("testcase", passingCase "own")])) = false ->
       own = []).
Proof.
  eexists. split; [vm_compute; reflexivity|]. split; [reflexivity|].
  apply (@nested_suites_come_before_own_cases (sampleWorld []) defaultOptions
           (Some [("name", "outer")])
           [("testsuite", suiteB); ("testcase", passingCase "own")] (JString ""));
    [simpl; lia|vm_compute; reflexivity].
Defined.

(** ** The escaping of the file name *)

Lemma escapeRegExp_plain (s : string) :
  forallb (fun c => negb (isRegExpSpecial c)) (list_ascii_of_string s) = true ->
  escapeRegExp s = s.
Proof.
  induction s as [|c s IH]; simpl; [reflexivity|].
  intros H. apply andb_prop in H. destruct H as (N & H).
  apply negb_true_iff in N. rewrite N, (IH H). reflexivity.
Qed.

(** X20. [escapeRegExp] makes its argument a literal for the regular
    expression: read back, the escaped text is the original text, whatever
    special characters it holds; a text without special characters is not
    changed; and the pattern that [resolveFileAndLine] searches stands for
    the resolved name with its first ["::"] replaced by ["/"]. *)
Theorem escaped_name_reads_back (s : string) :
  RegExp.literalOf (escapeRegExp s) = Some s /\
  (forallb (fun c => negb (isRegExpSpecial c)) (list_ascii_of_string s) = true ->
   escapeRegExp s = s) /\
  RegExp.middleOf (fileLinePattern (escapedFileName s)) = Some (escapedFileName s) /\
  RegExp.literalOf (escapedFileName s) = Some (JsString.replace "::" "/" s).
Proof.
  split; [apply literalOf_escapeRegExp|]. split; [apply escapeRegExp_plain|].
  split; [apply middleOf_fileLinePattern|apply literalOf_escapedFileName].
Qed.

Example escapeRegExp_specials :
  escapeRegExp "a.b(c)[d]$" = "a\.b\(c\)\[d\]\$".
Proof. reflexivity. Qed.

(** ** Documents without suites *)

(** X21. A report whose document has neither a [testsuite] nor a
    [testsuites] element gives the empty result, whatever else it holds and
    whatever the options; in [parseTestReports] such a file only counts as
    found: the run ends as the run without it does. *)
Theorem document_without_suites_is_empty (env : Collaborators) (opts : Options)
  (file data : string) (attrs : option (list (string * string)))
  (fields : list (string * jsval)) :
  readFileSync env file = Ok data ->
  xml2json env data = Ok (JObject attrs fields) ->
  truthy (prop "testsuite" (JObject attrs fields)) = false ->
  truthy (prop "testsuites" (JObject attrs fields)) = false ->
  (forall parentName,
     parseSuite env opts (JObject attrs fields) parentName = Ok emptyResult) /\
  parseFile env opts file = Ok emptyResult /\
  (forall pre post t, exists k,
     (k = 0 \/ k = 1) /\
     sameRun k (filesLoop env opts (pre ++ file :: post) t)
               (filesLoop env opts (pre ++ post) t)).
Proof.
  intros R X T1 T2.
  assert (P : forall parentName,
             parseSuite env opts (JObject attrs fields) parentName = Ok emptyResult).
  { intros parentName. rewrite parseSuite_unfold. unfold suiteBody.
    simpl get. cbn [bind]. rewrite T1, T2. reflexivity. }
  assert (F : parseFile env opts file = Ok emptyResult).
  { unfold parseFile. rewrite R. cbn [bind]. rewrite X. apply P. }
  split; [exact P|]. split; [exact F|].
  intros pre post t. apply filesLoop_without_unparsable. exact F.
Qed.

Lemma document_without_suites_is_empty_witness :
  (exists r,
     parseTestReports (sampleWorld otherDocumentFiles) "check" "summary" "reports/*.xml"
       defaultOptions = Ok r /\
     (Report.totalCount r, Report.foundFiles r) = (5, 3)) /\
  (forall parentName,
     parseSuite (sampleWorld otherDocumentFiles) defaultOptions
       (JObject None [("coverage", JObject None [])]) parentName = Ok emptyResult) /\
  parseFile (sampleWorld otherDocumentFiles) defaultOptions "reports/coverage.xml"
  = Ok emptyResult /\
  (forall pre post t, exists k,
     (k = 0 \/ k = 1) /\
     sameRun k
       (filesLoop (sampleWorld otherDocumentFiles) defaultOptions
          (pre ++ "reports/coverage.xml" :: post) t)
       (filesLoop (sampleWorld otherDocumentFiles) defaultOptions (pre ++ post) t)).
Proof.
  split; [eexists; split; vm_compute; reflexivity|].
  apply (@document_without_suites_is_empty (sampleWorld otherDocumentFiles) defaultOptions
           "reports/coverage.xml" "reports/coverage.xml" None
           [("coverage", JObject None [])]); reflexivity.
Defined.

(** ** The location a test case states itself *)

(** X22. A test case that has a [file] attribute and a [line] attribute
    that parses to a number other than zero is located there: the [file]
    and [line] of its failure and of its suite, its class name and the stack
    trace are not looked at, and nothing is searched. *)
Theorem explicit_location_of_the_case_wins (env : Collaborators)
  (testsuite : jsval) (attrs : list (string * string)) (fields : list (string * jsval))
  (stackTrace f l : string) (n : Z) :
  assoc "file" attrs = Some f -> f <> EmptyString ->
  assoc "line" attrs = Some l -> safeParseInt (Some l) = Some n -> n <> 0 ->
  positionOf env testsuite (JObject (Some attrs) fields) stackTrace
  = Ok {| fileName := f; line := n |}.
Proof.
  intros F Nf L P Nn. unfold positionOf. simpl attr. rewrite F, L. cbn [bind].
  assert (Tf : truthyStr (Some f) = true) by (destruct f; [contradiction|reflexivity]).
  assert (Tl : truthyStr (Some l) = true).
  { destruct l; [discriminate|reflexivity]. }
  unfold strOrStr. rewrite Tf, Tl.
  assert (R : forall className,
             resolveFileAndLine (Some f) (Some l) className stackTrace
             = Done {| fileName := f; line := n |}).
  { intros className. unfold resolveFileAndLine. rewrite P.
    assert (E : resolvedFileName (Some f) className = f)
      by (destruct f; [contradiction|reflexivity]).
    rewrite E. destruct f; [contradiction|]. simpl.
    destruct (Z.eqb_spec n 0); [contradiction|reflexivity]. }
  destruct (if truthyStr (assoc "classname" attrs) then assoc "classname" attrs
            else assoc "name" attrs); rewrite R; [reflexivity|].
  rewrite Tf. reflexivity.
Qed.

Lemma explicit_location_of_the_case_wins_witness :
  positionOf (sampleWorld [])
    (JObject (Some [("name", "Suite"); ("file", "suite.rb"); ("line", "1")]) [])
    locatedCase "at lib/a.rb:3"
  = Ok {| fileName := "spec/a_spec.rb"; line := 12 |}.
Proof.
  apply (@explicit_location_of_the_case_wins (sampleWorld [])
           (JObject (Some [("name", "Suite"); ("file", "suite.rb"); ("line", "1")]) [])
           [("name", "t"); ("file", "spec/a_spec.rb"); ("line", "12")]
           [("failure",
             JObject (Some [("message", "boom"); ("file", "lib/a.rb"); ("line", "3")])
               [("_text", JString "at lib/a.rb:3")])]
           "at lib/a.rb:3" "spec/a_spec.rb" "12" 12);
    [reflexivity|discriminate|reflexivity|reflexivity|discriminate].
Defined.
